(** * Lookback reward wrapper, trajectory recorder and victim embedding

    A shallow embedding of
      - [modelfree/common/utils.py]  ([_filter_dict], [TrajectoryRecorder],
                                      [VideoWrapper]),
      - [modelfree/train.py]         ([EmbedVictimWrapper], [_save], [_stable],
                                      [ExpertDatasetFromOurFormat]),
      - [modelfree/lookback.py]      ([LookbackRewardVecWrapper], [DebugVenv]),
    the properties of these that the specification states, and further
    properties that the code has.

    Python objects that the wrappers only talk to (vectorised environments,
    policies, TensorFlow sessions) are interfaces: type classes whose
    operations thread the collaborator's state explicitly.  Exceptions are
    values of [exn]; a Python function that may raise returns a [result]. *)

From Stdlib Require Import ZArith Lia Permutation.
From stdpp Require Import base option list gmap strings fin_maps.
From stdpp Require Import pretty.

Set Default Proof Using "Type*".

(* ===================================================================== *)
(** * Python exceptions *)
(* ===================================================================== *)

Inductive exn : Type :=
| AttributeError (ty attr : string)
| KeyError
| IndexError
| TypeError
| ValueError (msg : string)
| FileNotFoundError.

Inductive result (A : Type) : Type :=
| Ok (a : A)
| Raise (e : exn).
Arguments Ok {A} a.
Arguments Raise {A} e.

#[global] Instance result_ret : MRet result := @Ok.
#[global] Instance result_bind : MBind result :=
  λ A B f r, match r with Ok a => f a | Raise e => Raise e end.
#[global] Instance result_fmap : FMap result :=
  λ A B f r, match r with Ok a => Ok (f a) | Raise e => Raise e end.

Definition is_Ok {A} (r : result A) : Prop := ∃ a, r = Ok a.

(** [l[i]] on a list or array: [IndexError] out of range. *)
Definition getitem {A} (l : list A) (i : nat) : result A :=
  match l !! i with Some x => Ok x | None => Raise IndexError end.

(** [l[i] = x] on a list or array: [IndexError] out of range. *)
Definition setitem {A} (l : list A) (i : nat) (x : A) : result (list A) :=
  if decide (i < length l) then Ok (<[i := x]> l) else Raise IndexError.

(** [d[k]] on a plain dict: [KeyError] when the key is absent. *)
Definition getkey `{Countable K} {A} (d : gmap K A) (k : K) : result A :=
  match d !! k with Some x => Ok x | None => Raise KeyError end.

(** Subscripting a possibly-[None] object: [None[i]] is a [TypeError]. *)
Definition not_none {A} (o : option A) : result A :=
  match o with Some x => Ok x | None => Raise TypeError end.

(** A call [f(..., k1=, k2=, ...)]: a keyword that is not among the
    parameters of [f] is a [TypeError]. *)
Definition check_keywords (params given : list string) : result unit :=
  if decide (Forall (λ k, k ∈ params) given) then Ok tt else Raise TypeError.

(** [for x in xs: s = body(s, x)], stopping at the first exception. *)
Fixpoint for_each {S X} (body : S → X → result S) (xs : list X) (s : S)
  : result S :=
  match xs with
  | [] => Ok s
  | x :: xs' => s' ← body s x; for_each body xs' s'
  end.

(** [for k, v in d.items(): s = body(s, k, v)]. *)
Definition for_items `{Countable K} {A S}
    (body : K → A → S → result S) (d : gmap K A) (s : S) : result S :=
  map_fold (λ k v r, r ≫= body k v) (Ok s) d.

(* ===================================================================== *)
(** * Paths and formatted numbers *)
(* ===================================================================== *)

(** [posixpath.join] of two components. *)
Definition ends_with_sep (a : string) : bool :=
  bool_decide (String.substring (String.length a - 1) 1 a = "/").

Definition osp_join (a b : string) : string :=
  if String.prefix "/" b then b
  else if bool_decide (a = "") || ends_with_sep a then a +:+ b
  else a +:+ "/" +:+ b.

(** A number formatted with a zero-padded width, as in [f'{n:012}']: the
    sign first, then zeros up to the width. *)
Fixpoint zeros (n : nat) : string :=
  match n with
  | 0 => ""
  | S n' => "0" +:+ zeros n'
  end.

Definition zero_pad (w : nat) (s : string) : string :=
  zeros (w - String.length s) +:+ s.

Definition format_int0 (w : nat) (n : Z) : string :=
  if decide (n < 0)%Z then "-" +:+ zero_pad (w - 1) (pretty (- n)%Z)
  else zero_pad w (pretty n).

(* ===================================================================== *)
(** * modelfree/common/utils.py *)
(* ===================================================================== *)

(** Values that flow through the recorder (scalars, NumPy arrays, network
    activations).  [py_int0] is the integer [0] that the built-in [sum]
    starts from, [py_add] is [+], [np_array] is [np.array] on a list. *)
Class PyValue (value : Type) := {
  py_int0 : value;
  py_add : value → value → value;
  np_array : list value → value;
}.

(** The built-in [sum]: [0 + x0 + x1 + ...], left to right. *)
Definition py_sum {value} `{!PyValue value} (xs : list value) : value :=
  foldl py_add py_int0 xs.

Module BuiltinSet.
(** The methods of the built-in [set] that take one iterable and return
    a new set.  Looking up any other attribute of that shape (such as
    [intersect]) raises [AttributeError]. *)
Definition method (name : string) : result (gset string → gset string → gset string) :=
  if decide (name = "intersection") then Ok (λ a b, a ∩ b)
  else if decide (name = "difference") then Ok (λ a b, a ∖ b)
  else if decide (name = "union") then Ok (λ a b, a ∪ b)
  else if decide (name = "symmetric_difference") then Ok (λ a b, (a ∖ b) ∪ (b ∖ a))
  else Raise (AttributeError "set" name).

Definition call (name : string) (a b : gset string) : result (gset string) :=
  f ← method name; Ok (f a b).
End BuiltinSet.

(** [warnings.warn("Missing expected keys: {}".format(missing_keys))]. *)
Inductive warning : Type :=
| MissingExpectedKeys (missing : gset string).

(** [_filter_dict(d, keys)]: the filtered dict and the warnings emitted. *)
Definition _filter_dict {V} (d : gmap string V) (keys : option (list string))
  : result (gmap string V * list warning) :=
  match keys with
  | None => Ok (d, [])
  | Some keys =>
      let keys : gset string := list_to_set keys in
      present_keys ← BuiltinSet.call "intersect" keys (dom d);
      missing_keys ← BuiltinSet.call "difference" keys (dom d);
      let res := filter (λ kv, kv.1 ∈ present_keys) d in
      (* [missing_keys is not None]: a set object is never [None] *)
      let missing_opt : option (gset string) := Some missing_keys in
      let warned :=
        match missing_opt with
        | Some m => [MissingExpectedKeys m]
        | None => []
        end in
      Ok (res, warned)
  end.

(** [d[key].append(x)] on a [defaultdict(list)]. *)
Definition dd_append {V} (key : string) (x : V) (d : gmap string (list V))
  : gmap string (list V) :=
  <[key := default [] (d !! key) ++ [x]]> d.

(** The list under a key after [d[key].append(x)], if there is an [x]. *)
Definition app1 {V} (o : option (list V)) (x : option V) : option (list V) :=
  match x with
  | Some x => Some (default [] o ++ [x])
  | None => o
  end.

(** [d[key]] on a [defaultdict(list)]: a missing key is created with []. *)
Definition dd_get {V} (key : string) (d : gmap string (list V))
  : list V * gmap string (list V) :=
  match d !! key with
  | Some l => (l, d)
  | None => ([], <[key := []]> d)
  end.

(** The multi-agent vectorised environment under the recorder.
    Observations, actions and rewards are indexed [agent][lane]; infos are
    indexed [lane][agent][key]. *)
Class VecMultiEnv (value E : Type) := {
  venv_reset : E → E * list (list value);
  venv_step_async : list (list value) → E → E;
  venv_step_wait :
    E → E * (list (list value) * list (list value) * list bool
             * list (gmap nat (gmap string value)));
}.

(** The file system that [save] writes to.  [os_makedirs] is
    [os.makedirs(path, exist_ok=True)] and [write_npz] is what [np.savez]
    does with its arrays; either can fail, as the operating system
    decides. *)
Class FileSystem (value FS : Type) := {
  os_makedirs : string → FS → result FS;
  write_npz : string → gmap string value → FS → result FS;
}.

Module TrajectoryRecorder.
Section recorder.
Context {value E : Type} `{!PyValue value, !VecMultiEnv value E}.

Abbreviation batch := (list (list value)).
Abbreviation infos_t := (list (gmap nat (gmap string value))).
Abbreviation traj := (gmap string (list value)).

Record t : Type := mk {
  venv : E;
  num_agents : nat;
  num_envs : nat;
  agent_indices : list nat;
  env_keys : option (list string);
  info_keys : option (list string);
  traj_dicts : list (list traj);        (* [dict_idx][env_idx] *)
  full_traj_dicts : list traj;          (* [dict_idx] *)
  prev_obs : option batch;
  actions : option batch;
  warned : list warning;                (* warnings emitted so far *)
}.

Definition with_venv (r : t) (e : E) : t :=
  mk e (num_agents r) (num_envs r) (agent_indices r) (env_keys r) (info_keys r)
     (traj_dicts r) (full_traj_dicts r) (prev_obs r) (actions r) (warned r).
Definition with_prev_obs (r : t) (o : option batch) : t :=
  mk (venv r) (num_agents r) (num_envs r) (agent_indices r) (env_keys r)
     (info_keys r) (traj_dicts r) (full_traj_dicts r) o (actions r) (warned r).
Definition with_actions (r : t) (a : option batch) : t :=
  mk (venv r) (num_agents r) (num_envs r) (agent_indices r) (env_keys r)
     (info_keys r) (traj_dicts r) (full_traj_dicts r) (prev_obs r) a (warned r).
Definition with_traj (r : t) (td : list (list traj)) (ft : list traj)
    (w : list warning) : t :=
  mk (venv r) (num_agents r) (num_envs r) (agent_indices r) (env_keys r)
     (info_keys r) td ft (prev_obs r) (actions r) (warned r ++ w).

(** The [agent_indices] argument of the constructor. *)
Inductive agent_indices_arg : Type :=
| IndicesNone
| IndicesInt (i : nat)
| IndicesOther (l : list nat).

(** [__init__]: [self.agent_indices] is assigned only for [None] and for
    an [int]; for anything else the attribute is read before it exists. *)
Definition __init__ (venv0 : E) (n_agents n_envs : nat)
    (indices : agent_indices_arg) (env_keys0 info_keys0 : option (list string))
  : result t :=
  indices' ←
    match indices with
    | IndicesNone => Ok (seq 0 n_agents)
    | IndicesInt i => Ok [i]
    | IndicesOther _ => Raise (AttributeError "TrajectoryRecorder" "agent_indices")
    end;
  Ok (mk venv0 n_agents n_envs indices' env_keys0 info_keys0
         (map (λ _, replicate n_envs ∅) indices')
         (map (λ _, ∅) indices')
         None None []).

(** [val[agent_idx][env_idx]] *)
Definition index2 (val : option batch) (agent_idx env_idx : nat) : result value :=
  v ← not_none val; row ← getitem v agent_idx; getitem row env_idx.

(** First half of the loop body of [record_timestep_data], for one
    [(dict_idx, env_idx)]: the lane's accumulator with the values of this
    timestep appended, and the warnings emitted on the way. *)
Definition accumulate_lane (r : t) (env_data : gmap string (option batch))
    (infos : infos_t) (dict_idx env_idx : nat) : result (traj * list warning) :=
  agent_dicts ← getitem (traj_dicts r) dict_idx;
  agent_idx ← getitem (agent_indices r) dict_idx;
  acc ← getitem agent_dicts env_idx;
  acc ← for_items
           (λ key val acc, x ← index2 val agent_idx env_idx; Ok (dd_append key x acc))
           env_data acc;
  info_env ← getitem infos env_idx;
  info_dict ← getkey info_env agent_idx;
  '(info_dict, w) ← _filter_dict info_dict (info_keys r);
  Ok (map_fold (λ key val acc, dd_append key val acc) acc info_dict, w).

(** The [if dones[env_idx]] block without its last line: the episode
    return and one array per field are appended to the agent's store. *)
Definition consolidate_episode (acc store : traj) : traj :=
  let '(rews, acc) := dd_get "rewards" acc in
  let ep_ret := py_sum rews in
  let store := dd_append "episode_returns" (np_array [ep_ret]) store in
  map_fold (λ key val store, dd_append key (np_array val) store) store acc.

(** The whole loop body. *)
Definition record_lane (r : t) (env_data : gmap string (option batch))
    (dones : list bool) (infos : infos_t) (dict_idx env_idx : nat) : result t :=
  '(acc, w) ← accumulate_lane r env_data infos dict_idx env_idx;
  agent_dicts ← getitem (traj_dicts r) dict_idx;
  done ← getitem dones env_idx;
  if (done : bool) then
    store ← getitem (full_traj_dicts r) dict_idx;
    let store := consolidate_episode acc store in
    agent_dicts ← setitem agent_dicts env_idx ∅;
    td ← setitem (traj_dicts r) dict_idx agent_dicts;
    ft ← setitem (full_traj_dicts r) dict_idx store;
    Ok (with_traj r td ft w)
  else
    agent_dicts ← setitem agent_dicts env_idx acc;
    td ← setitem (traj_dicts r) dict_idx agent_dicts;
    Ok (with_traj r td (full_traj_dicts r) w).

(** [itertools.product(enumerate(self.traj_dicts), range(self.num_envs))] *)
Definition iter_space (r : t) : list (nat * nat) :=
  d ← seq 0 (length (traj_dicts r)); e ← seq 0 (num_envs r); [(d, e)].

Definition record_timestep_data (r : t) (prev_obs0 actions0 : option batch)
    (rewards : batch) (dones : list bool) (infos : infos_t) : result t :=
  let env_data : gmap string (option batch) :=
    {[ "observations" := prev_obs0;
       "actions" := actions0;
       "rewards" := Some rewards ]} in
  '(env_data, w) ← _filter_dict env_data (env_keys r);
  let r := with_traj r (traj_dicts r) (full_traj_dicts r) w in
  for_each (λ r '(d, e), record_lane r env_data dones infos d e) (iter_space r) r.

Definition step_async (r : t) (acts : batch) : t :=
  let r := with_actions r (Some acts) in
  with_venv r (venv_step_async acts (venv r)).

Definition step_wait (r : t)
  : result (t * (batch * batch * list bool * infos_t)) :=
  let '(e, (observations, rewards, dones, infos)) := venv_step_wait (venv r) in
  let r := with_venv r e in
  r ← record_timestep_data r (prev_obs r) (actions r) rewards dones infos;
  let r := with_prev_obs r (Some observations) in
  Ok (r, (observations, rewards, dones, infos)).

Definition reset (r : t) : t * batch :=
  let '(e, observations) := venv_reset (venv r) in
  let r := with_venv r e in
  let r := with_prev_obs r (Some observations) in
  (r, observations).

(** The fields that recording a timestep leaves alone. *)
Definition same_config (r r' : t) : Prop :=
  venv r' = venv r ∧ num_agents r' = num_agents r ∧ num_envs r' = num_envs r ∧
  agent_indices r' = agent_indices r ∧ env_keys r' = env_keys r ∧
  info_keys r' = info_keys r ∧ prev_obs r' = prev_obs r ∧ actions r' = actions r.

(** A recorder as [__init__] builds it when no key filter is given: one
    accumulator per recorded agent and lane, one store per recorded agent. *)
Definition shape_ok (r : t) : Prop :=
  env_keys r = None ∧ info_keys r = None ∧
  length (agent_indices r) = length (traj_dicts r) ∧
  length (full_traj_dicts r) = length (traj_dicts r) ∧
  Forall (λ ad, num_envs r ≤ length ad) (traj_dicts r).

(** Data of one timestep with an entry for every recorded agent and lane. *)
Definition data_ok (r : t) (po acts : option batch)
    (rewards : batch) (dones : list bool) (infos : infos_t) : Prop :=
  ∀ ai e, ai ∈ agent_indices r → e < num_envs r →
    is_Ok (index2 po ai e) ∧ is_Ok (index2 acts ai e) ∧
    is_Ok (index2 (Some rewards) ai e) ∧
    is_Some (infos !! e ≫= (.!! ai)) ∧ is_Some (dones !! e).

(** What a caller of a vectorised environment can do and see. *)
Inductive call : Type :=
| CallReset
| CallStepAsync (acts : batch)
| CallStepWait.

Inductive reply : Type :=
| ReplyReset (observations : batch)
| ReplyStepAsync
| ReplyStepWait (out : batch * batch * list bool * infos_t).

(** The wrapped environment driven directly. *)
Fixpoint run_venv (cs : list call) (e : E) : E * list reply :=
  match cs with
  | [] => (e, [])
  | CallReset :: cs' =>
      let '(e1, o) := venv_reset e in
      let '(e2, rs) := run_venv cs' e1 in (e2, ReplyReset o :: rs)
  | CallStepAsync a :: cs' =>
      let '(e2, rs) := run_venv cs' (venv_step_async a e) in
      (e2, ReplyStepAsync :: rs)
  | CallStepWait :: cs' =>
      let '(e1, out) := venv_step_wait e in
      let '(e2, rs) := run_venv cs' e1 in (e2, ReplyStepWait out :: rs)
  end.

(** The same calls made on the recorder. *)
Fixpoint run (cs : list call) (r : t) : result (t * list reply) :=
  match cs with
  | [] => Ok (r, [])
  | CallReset :: cs' =>
      let '(r1, o) := reset r in
      '(r2, rs) ← run cs' r1; Ok (r2, ReplyReset o :: rs)
  | CallStepAsync a :: cs' =>
      '(r2, rs) ← run cs' (step_async r a); Ok (r2, ReplyStepAsync :: rs)
  | CallStepWait :: cs' =>
      '(r1, out) ← step_wait r;
      '(r2, rs) ← run cs' r1; Ok (r2, ReplyStepWait out :: rs)
  end.

(** [f'agent_{agent_idx}.npz'] under [save_dir]. *)
Definition agent_file (save_dir : string) (agent_idx : nat) : string :=
  osp_join save_dir ("agent_" +:+ pretty agent_idx +:+ ".npz").

Context {FS : Type} `{!FileSystem value FS}.

(** [np.savez(file, ...)] with the arrays unpacked as keywords: a key that
    repeats the name of the first parameter is a [TypeError]. *)
Definition np_savez (file : string) (kwds : gmap string value) (fs : FS)
  : result FS :=
  match kwds !! "file" with
  | Some _ => Raise TypeError
  | None => write_npz file kwds fs
  end.

Definition save (r : t) (save_dir : string) (fs : FS) : result FS :=
  fs ← os_makedirs save_dir fs;
  for_each
    (λ fs '(dict_idx, agent_idx),
       agent_dicts ← getitem (full_traj_dicts r) dict_idx;
       let dump_dict := np_array <$> agent_dicts in
       let save_path := agent_file save_dir agent_idx in
       np_savez save_path dump_dict fs)
    (imap (λ dict_idx agent_idx, (dict_idx, agent_idx)) (agent_indices r)) fs.

(** Writing some files one after the other. *)
Definition write_all (files : list (string * gmap string value)) (fs : FS)
  : result FS :=
  for_each (λ fs '(path, arrays), write_npz path arrays fs) files fs.

(** The number of episodes that a store holds under a key. *)
Definition episodes_stored (store : traj) (key : string) : nat :=
  length (default [] (store !! key)).

(** Every store holds as many episodes of observations, of actions and
    of rewards as it holds episode returns. *)
Definition stores_aligned (r : t) : Prop :=
  ∀ d store, full_traj_dicts r !! d = Some store →
    episodes_stored store "observations" = episodes_stored store "episode_returns" ∧
    episodes_stored store "actions" = episodes_stored store "episode_returns" ∧
    episodes_stored store "rewards" = episodes_stored store "episode_returns".

(** No accumulator has the given key. *)
Definition lanes_lack (key : string) (r : t) : Prop :=
  ∀ d e acc, traj_dicts r !! d ≫= (.!! e) = Some acc → acc !! key = None.

(** No info dict of a reply has the given key. *)
Definition reply_lacks (key : string) (rep : reply) : Prop :=
  match rep with
  | ReplyStepWait (_, _, _, infos) =>
      Forall (map_Forall (λ _ (info : gmap string value), info !! key = None)) infos
  | _ => True
  end.

#[global] Instance reply_lacks_dec key rep : Decision (reply_lacks key rep).
Proof. destruct rep as [?| |[[[? ?] ?] ?]]; simpl; apply _. Defined.

Definition infos_lack (key : string) (rs : list reply) : Prop :=
  Forall (reply_lacks key) rs.
End recorder.
Arguments t : clear implicits.
End TrajectoryRecorder.

(** ** Video recording: [VideoWrapper] *)

Module VideoWrapper.
Section video.
(** Environment states, actions, observations, rewards, info values. *)
Context {E Act Obs Rew IV : Type}.

(** [info.items()]: the agents and their dicts, in the dict's order. *)
Abbreviation info_t := (list (nat * gmap string IV)).

(** The wrapped [gym] environment. *)
Class GymEnv := {
  env_step : Act → E → E * (Obs * Rew * bool * info_t);
  env_reset : E → E * Obs;
}.
Context `{!GymEnv}.

Inductive meta : Type :=
| MetaInt (n : nat)
| MetaList (l : list nat).

(** A [gym.monitoring.VideoRecorder]: where it writes, the metadata that
    the wrapper has given it, and the frames captured so far, each the
    rendering of an environment state. *)
Record VideoRecorder : Type := mk_recorder {
  base_path : string;
  metadata : gmap string meta;
  frames : list E;
}.

(** [capture_frame()] renders the environment as it is now. *)
Definition capture_frame (rec : VideoRecorder) (e : E) : VideoRecorder :=
  mk_recorder (base_path rec) (metadata rec) (frames rec ++ [e]).

(** The wrapper, and the recorders closed so far, oldest first. *)
Record t : Type := mk {
  env : E;
  directory : string;
  episode_id : nat;
  video_recorder : option VideoRecorder;
  closed : list VideoRecorder;
}.

(** [directory0] is the directory as [osp.abspath] gives it. *)
Definition __init__ (env0 : E) (directory0 : string) : t :=
  mk env0 directory0 0 None [].

Definition _reset_video_recorder (w : t) (md : option (gmap string meta)) : t :=
  let closed' :=
    match video_recorder w with
    | Some rec =>
        let rec :=
          match md with
          | Some md => mk_recorder (base_path rec) (md ∪ metadata rec) (frames rec)
          | None => rec
          end in
        closed w ++ [rec]
    | None => closed w
    end in
  let rec' :=
    mk_recorder
      (osp_join (directory w)
                ("video." +:+ format_int0 6 (Z.of_nat (episode_id w))))
      {[ "episode_id" := MetaInt (episode_id w) ]} [] in
  mk (env w) (directory w) (episode_id w) (Some rec') closed'.

(** [[i for i, d in info.items() if 'winner' in d]] *)
Definition winners (info : info_t) : list nat :=
  (filter (λ item, is_Some (item.2 !! "winner")) info).*1.

Definition _step (w : t) (action : Act)
  : result (t * (Obs * Rew * bool * info_t)) :=
  let '(e, (obs, rew, done, info)) := env_step action (env w) in
  let w := mk e (directory w) (episode_id w) (video_recorder w) (closed w) in
  let w :=
    if (done : bool)
    then _reset_video_recorder w (Some {[ "winners" := MetaList (winners info) ]})
    else w in
  rec ← match video_recorder w with
        | Some rec => Ok rec
        | None => Raise (AttributeError "NoneType" "capture_frame")
        end;
  let w := mk (env w) (directory w) (episode_id w)
              (Some (capture_frame rec (env w))) (closed w) in
  Ok (w, (obs, rew, done, info)).

Definition _reset (w : t) : t * Obs :=
  let w := _reset_video_recorder w None in
  let w := mk (env w) (directory w) (episode_id w + 1) (video_recorder w)
              (closed w) in
  let '(e, obs) := env_reset (env w) in
  (mk e (directory w) (episode_id w) (video_recorder w) (closed w), obs).
End video.
Arguments GymEnv : clear implicits.
Arguments VideoRecorder : clear implicits.
Arguments t : clear implicits.
End VideoWrapper.

(** ** [make_env] *)

(** The parameters of [make_env]. *)
Definition make_env_params : list string :=
  ["env_name"; "seed"; "i"; "out_dir"; "our_idx"; "pre_wrapper"; "post_wrapper"].

(* ===================================================================== *)
(** * modelfree/train.py *)
(* ===================================================================== *)

(** The victim's TensorFlow session ([victim.sess.close()]) and the
    environment pipeline under the wrapper.  [super_close] is
    [VecMultiWrapper.close], which the wrapper inherits: it closes the
    wrapped (curried) environment. *)
Class Closeable (Sess W : Type) := {
  sess_close : Sess → Sess;
  super_close : W → W;
}.

Module EmbedVictimWrapper.
Section embed.
Context {Sess W : Type} `{!Closeable Sess W}.

(** [victim_sess] is [self.victim.sess]; policies that are not backed by
    a TensorFlow graph carry [sess = None]. *)
Record t : Type := mk {
  victim_sess : option Sess;
  venv : W;
}.

Definition close (w : t) : result t :=
  match victim_sess w with
  | None => Raise (AttributeError "NoneType" "close")
  | Some s =>
      let s := sess_close s in
      Ok (mk (Some s) (super_close (venv w)))
  end.
End embed.
Arguments t : clear implicits.
End EmbedVictimWrapper.

(** The parameters of [EmbedVictimWrapper.__init__], [self] aside. *)
Definition EmbedVictimWrapper_params : list string :=
  ["multi_env"; "victim"; "victim_index"].

(** ** Checkpoints and the training driver: [_save], [_stable] *)

Module Stable.
Section stable.
(** Models, values of keyword arguments, save callbacks, log callbacks. *)
Context {M V F G : Type}.

(** Besides the built-in exceptions of [exn], [_stable] can read its local
    [model] before any branch has assigned it. *)
Inductive error : Type :=
| UnboundLocalError (name : string)
| Builtin (e : exn).

#[global] Instance error_bind : MBind (sum error) :=
  λ A B f r, match r with inr a => f a | inl e => inl e end.

Definition lift {A} (r : result A) : error + A :=
  match r with Ok a => inr a | Raise e => inl (Builtin e) end.

Inductive kwval : Type :=
| KwEnv
| KwInt (z : Z)
| KwVal (v : V).

(** What the driver does to the outside world, in order. *)
Inductive event : Type :=
| Makedirs (path : string)
| ModelSave (m : M) (path : string)
| SaveCallback (f : F) (root_dir : string)
| LogCallback (g : G) (locals : gmap string Z)
| SessClose (m : M).

(** The RL algorithm class [cls] and the zoo loaders.  [learn] lists, for
    every invocation of the callback, the model at that moment and the
    [locals()] handed over, and gives the trained model; the callback
    always answers [True], so it never cuts this list short. *)
Class Algo := {
  cls_load : string → gmap string kwval → M;
  cls_new : V → gmap string kwval → M;
  get_policy_type_for_zoo_agent : string → result (V * V);
  load_zoo_agent_params : string → string → Z → result V;
  act_model_restore : V → M → M;
  learn : M → Z → Z → list (M * gmap string Z) * M;
}.
Context `{!Algo}.

(** Keyword dicts unpacked into a call on top of explicit keywords: a
    keyword given twice is a [TypeError]. *)
Definition merge_keywords (explicit : gmap string kwval)
    (stars : list (gmap string kwval)) : result (gmap string kwval) :=
  foldl (λ acc d, a ← acc;
                  if decide (dom a ##@{gset string} dom d) then Ok (a ∪ d)
                  else Raise TypeError)
        (Ok explicit) stars.

Definition _save (model : M) (root_dir : string) (save_callbacks : list F)
  : list event :=
  [Makedirs root_dir; ModelSave model (osp_join root_dir "model.pkl")]
  ++ map (λ f, SaveCallback f root_dir) save_callbacks.

Record load_policy_t : Type := mk_load_policy {
  lp_path : option string;
  lp_type : string;
}.

Record args : Type := mk_args {
  our_type : string;
  callback_key : string;
  callback_mul : Z;
  seed : Z;
  env_name : string;
  out_dir : string;
  total_timesteps : Z;
  policy : V;
  load_policy : load_policy_t;
  rl_args : gmap string kwval;
  victim_index : Z;
  debug : bool;
  log_callbacks : list G;
  save_callbacks : list F;
  log_interval : Z;
  checkpoint_interval : Z;
  kwargs : gmap string kwval;
}.

(** The two [nonlocal] counters of the callback. *)
Record counters : Type := mk_counters {
  last_checkpoint : Z;
  last_log : Z;
}.

Definition checkpoint_dir (a : args) (step : Z) : string :=
  osp_join (osp_join (out_dir a) "checkpoint") (format_int0 12 step).

(** One invocation of [callback(locals, globals)] while the model is
    [model]: the counters afterwards and what was done. *)
Definition callback (a : args) (model : M) (c : counters)
    (locals : gmap string Z) : result (counters * list event) :=
  v ← getkey locals (callback_key a);
  let step := (v * callback_mul a)%Z in
  let '(c, saved) :=
    if decide (step - checkpoint_interval a > last_checkpoint c)%Z
    then (mk_counters step (last_log c),
          _save model (checkpoint_dir a step) (save_callbacks a))
    else (c, []) in
  let '(c, logged) :=
    if decide (step - log_interval a > last_log c)%Z
    then (mk_counters (last_checkpoint c) step,
          map (λ g, LogCallback g locals) (log_callbacks a))
    else (c, []) in
  Ok (c, saved ++ logged).

(** The callback over everything [learn] reports. *)
Fixpoint run_callbacks (a : args) (c : counters)
    (calls : list (M * gmap string Z)) : result (counters * list event) :=
  match calls with
  | [] => Ok (c, [])
  | (m, locals) :: calls' =>
      '(c, tr) ← callback a m c locals;
      '(c, tr') ← run_callbacks a c calls';
      Ok (c, tr ++ tr')
  end.

(** The model that the first part of [_stable] binds, if any. *)
Definition make_model (a : args) (kw : gmap string kwval)
  : result (option M) :=
  match lp_path (load_policy a) with
  | Some path =>
      if decide (lp_type (load_policy a) = our_type a) then
        Ok (Some (cls_load path kw))
      else if decide (lp_type (load_policy a) = "zoo") then
        '(policy_cls, policy_kwargs) ← get_policy_type_for_zoo_agent (env_name a);
        let kw := <["policy_kwargs" := KwVal policy_kwargs]> kw in
        kw ← merge_keywords {[ "policy" := KwVal policy_cls ]} [kw];
        let model := cls_new policy_cls kw in
        let our_idx := (1 - victim_index a)%Z in
        params ← load_zoo_agent_params path (env_name a) our_idx;
        Ok (Some (act_model_restore params model))
      else Ok None
  | None =>
      kw ← merge_keywords {[ "policy" := KwVal (policy a) ]} [kw];
      Ok (Some (cls_new (policy a) kw))
  end.

(** [_stable]: the path of the final model and everything done on the way. *)
Definition _stable (a : args) : error + (string * list event) :=
  kw ← lift (merge_keywords
               {[ "env" := KwEnv;
                  "verbose" := KwInt (if debug a then 2 else 1) ]}
               [kwargs a; rl_args a]);
  model ← lift (make_model a kw);
  match model with
  | None => inl (UnboundLocalError "model")
  | Some model =>
      let '(calls, trained) := learn model (total_timesteps a) (seed a) in
      '(_, tr) ← lift (run_callbacks a (mk_counters 0 0) calls);
      let final_path := osp_join (out_dir a) "final_model" in
      inr (final_path,
           tr ++ _save trained final_path (save_callbacks a) ++ [SessClose trained])
  end.

(** The directories created, in order. *)
Definition created_dirs (tr : list event) : list string :=
  omap (λ ev, match ev with Makedirs p => Some p | _ => None end) tr.

(** Each step exceeds the one before it, and the first exceeds [from],
    by more than [gap]. *)
Fixpoint spaced (gap from : Z) (steps : list Z) : Prop :=
  match steps with
  | [] => True
  | s :: steps' => (s - gap > from)%Z ∧ spaced gap s steps'
  end.

(** The steps that the callback computes from what it is called with, in
    order: [locals[callback_key] * callback_mul]. *)
Definition reported_steps (a : args) (calls : list (M * gmap string Z))
  : list Z :=
  omap (λ call, (λ v, (v * callback_mul a)%Z) <$> call.2 !! callback_key a)
       calls.
End stable.
Arguments error : clear implicits.
Arguments kwval : clear implicits.
Arguments event : clear implicits.
Arguments Algo : clear implicits.
Arguments args : clear implicits.
End Stable.

(** ** GAIL demonstrations: [ExpertDatasetFromOurFormat] *)

Module ExpertDatasetFromOurFormat.
Section dataset.
(** What an episode array holds for one timestep. *)
Context {V : Type}.

(** A flattened array: data of the trajectories, or episode-start flags. *)
Inductive column : Type :=
| Data (rows : list V)
| Flags (starts : list bool).

(** [np.concatenate] along the first axis: no arrays is a [ValueError]. *)
Definition np_concatenate {A} (arrays : list (list A)) : result (list A) :=
  match arrays with
  | [] => Raise (ValueError "need at least one array to concatenate")
  | _ => Ok (concat arrays)
  end.

(** [[True] + [False] * (ep_len - 1)]; a list times a number below one
    is empty. *)
Definition ep_starts (ep_len : nat) : list bool :=
  [true] ++ replicate (ep_len - 1) false.

(** [__init__] up to the call of the base class: the [traj_data] handed
    to [ExpertDataset], from the episodes per key that [np.load] gives. *)
Definition __init__ (traj_data : gmap string (list (list V)))
  : result (gmap string column) :=
  rewards ← getkey traj_data "rewards";
  let episode_starts :=
    map (λ reward_dict, ep_starts (length reward_dict)) rewards in
  flat ← for_items (λ k v flat, x ← np_concatenate v; Ok (<[k := Data x]> flat))
                   traj_data ∅;
  starts ← np_concatenate episode_starts;
  let flat := <["episode_starts" := Flags starts]> flat in
  obs ← getkey flat "observations";
  let flat := <["obs" := obs]> flat in
  Ok (delete "observations" flat).

(** Where the episodes begin in the flattened arrays. *)
Definition episode_offset (episodes : list (list V)) (j : nat) : nat :=
  length (concat (take j episodes)).
End dataset.
Arguments column : clear implicits.
End ExpertDatasetFromOurFormat.

(* ===================================================================== *)
(** * modelfree/lookback.py *)
(* ===================================================================== *)

(** The carrier types of the collaborators: rewards and norms ([num]),
    activation and observation vectors of the transparent victim ([vec]),
    one feature of an observation row ([feat]), per-lane actions and
    recurrent policy states, and the simulator's snapshots. *)
Class Domain := {
  num : Type;
  vec : Type;
  feat : Type;
  act : Type;
  rstate : Type;
  sim_state : Type;
  full_state : Type;
  radius : Type;
  curry_obs_t : Type;
}.

(** NumPy arithmetic on rewards and vectors.  [zero] is [0], [coef] is the
    literal [0.05], [vsub] is array subtraction, [norm] is
    [np.linalg.norm]. *)
Class Numeric (D : Domain) := {
  zero : num;
  coef : num;
  add : num → num → num;
  mul : num → num → num;
  vsub : vec → vec → vec;
  norm : vec → num;
}.

(** The info dict of one agent in one lane, as far as the wrapper reads it:
    [info['ff']] is a dict from network name to per-layer arrays indexed by
    lane, [info['obs']] is an array indexed by lane. *)
Record agent_info `{D : Domain} : Type := mk_info {
  ff : option (gmap string (list (list vec)));
  obs : option (list vec);
}.

Section signatures.
Context `{D : Domain}.

Definition obs_batch : Type := list (list feat).
Definition infos_t : Type := list (gmap nat agent_info).
Definition step_out : Type := obs_batch * list num * list bool * infos_t.

(** [policy.predict(obs, state=, mask=)], with the policy's own state
    (sampling, session) threaded through [P]. *)
Class Policy (P : Type) := {
  load_policy : string → string → string → Z → P;
  predict : P → option obs_batch → option (list rstate) → option (list bool)
            → P * (list act * option (list rstate));
  is_actor_critic : P → bool;
  observation_space_dim : P → nat;
  ob_space_dim : P → nat;
}.

(** The live environment [self.venv].  [live_get_state None] is
    [env_method('get_state')], [live_get_state (Some i)] is
    [env_method('get_state', indices=i)]; [live_get_obs] is
    [get_curry_venv().get_obs()]. *)
Class LiveEnv (L : Type) := {
  live_num_envs : L → nat;
  live_get_state : option nat → L → list sim_state;
  live_get_full_state : option nat → L → list full_state;
  live_get_radius : option nat → L → list radius;
  live_get_obs : L → curry_obs_t;
  live_set_debug_file : nat → L → L;
  live_reset : L → L * obs_batch;
  live_step_async : list act → L → L;
  live_step_wait : L → L * step_out;
}.

(** What one shadow pipeline is built from. *)
Record shadow_args : Type := mk_args {
  sa_env_name : string;
  sa_use_dummy : bool;
  sa_victim_index : nat;
  sa_victim_path : string;
  sa_victim_type : string;
  sa_transparent_params : gset string;
  sa_num_envs : nat;
}.

(** One shadow pipeline: simulator, debug wrapper, embedded victim and
    flattening.  [LookbackTuple.curry] and [LookbackTuple.venv] are two
    handles on this one object.  [make_vec_env use_dummy env_fns] is
    [make_dummy_vec_multi_env(env_fns)] or
    [make_subproc_vec_multi_env(env_fns)], which take thunks and decide
    themselves where they call them and what they raise. *)
Class ShadowEnv (V : Type) := {
  make_vec_env : bool → list (unit → result unit) → result unit;
  shadow_make : shadow_args → V;
  shadow_set_obs : curry_obs_t → option nat → V → V;
  shadow_set_state : nat → sim_state → option full_state → V → V;
  shadow_set_radius : nat → radius → V → V;
  shadow_set_debug_file : nat → V → V;
  shadow_reset : V → V * obs_batch;
  shadow_step_async : option (list act) → V → V;
  shadow_step_wait : V → V * step_out;
}.
End signatures.

(** [lookback_params]: a dict read at the keys ['num_lb'], ['type'] and
    ['path']. *)
Record lookback_params_t : Type := mk_params {
  lp_num_lb : option nat;
  lp_type : option string;
  lp_path : option string;
}.

Definition getfield {A} (o : option A) : result A :=
  match o with Some x => Ok x | None => Raise KeyError end.

(** [l[-1]]. *)
Definition get_last {A} (l : list A) : result A :=
  match last l with Some x => Ok x | None => Raise IndexError end.

(** [[l[-1]] + l[:-1]]. *)
Definition cycle {A} (l : list A) : result (list A) :=
  x ← get_last l; Ok ([x] ++ take (length l - 1) l).

(** [n] rotations of the ring. *)
Fixpoint cycles {A} (n : nat) (l : list A) : result (list A) :=
  match n with
  | 0 => Ok l
  | S n' => l' ← cycle l; cycles n' l'
  end.

(** [for i, x in enumerate(xs)] building the list of the updated [x]. *)
Fixpoint map_enumerate {X Y} (f : nat → X → result Y) (i : nat) (xs : list X)
  : result (list Y) :=
  match xs with
  | [] => Ok []
  | x :: xs' => y ← f i x; ys ← map_enumerate f (S i) xs'; Ok (y :: ys)
  end.

Module LookbackRewardVecWrapper.
Section lookback.
Context `{D : Domain} {P L V : Type}.
Context `{!Numeric D, !Policy P, !LiveEnv L, !ShadowEnv V}.

(** [data_dict]: the values cached for a slot's next step.  [d_info] is
    the [defaultdict(dict)] indexed [lane][agent]. *)
Record data_t : Type := mk_data {
  d_state : option (list rstate);
  d_action : option (list act);
  d_reward : list num;
  d_info : gmap nat (gmap nat agent_info);
}.

(** [LookbackTuple(curry, venv, data)].  [slot_id] is the position at
    which [_create_lb_dicts] built the tuple; it stands for the identity
    of the Python object. *)
Record LookbackTuple : Type := mk_tuple {
  slot_id : nat;
  lt_venv : V;
  data : data_t;
}.

Definition set_venv (lb : LookbackTuple) (v : V) : LookbackTuple :=
  mk_tuple (slot_id lb) v (data lb).

Record t : Type := mk {
  venv : L;
  num_envs : nat;
  lookback_num : nat;
  lookback_space : nat;
  transparent_params : gset string;
  victim_index : nat;
  _policy : P;
  _action : option (list act);
  _obs : option obs_batch;
  _state : option (list rstate);
  _new_lb_state : option (list rstate);
  _dones : list bool;
  ep_lens : list nat;
  lb_dicts : list LookbackTuple;
  debug_files : list nat;               (* handle of [debug{i}.pkl] is [i] *)
  stdout : list (num * nat * nat);      (* lines written by [print] *)
}.

Definition with_venv (s : t) (x : L) : t :=
  mk x (num_envs s) (lookback_num s) (lookback_space s) (transparent_params s)
     (victim_index s) (_policy s) (_action s) (_obs s) (_state s)
     (_new_lb_state s) (_dones s) (ep_lens s) (lb_dicts s) (debug_files s) (stdout s).
Definition with_policy (s : t) (x : P) : t :=
  mk (venv s) (num_envs s) (lookback_num s) (lookback_space s) (transparent_params s)
     (victim_index s) x (_action s) (_obs s) (_state s)
     (_new_lb_state s) (_dones s) (ep_lens s) (lb_dicts s) (debug_files s) (stdout s).
Definition with_own (s : t) (a : option (list act)) (o : option obs_batch)
    (r : option (list rstate)) : t :=
  mk (venv s) (num_envs s) (lookback_num s) (lookback_space s) (transparent_params s)
     (victim_index s) (_policy s) a o r
     (_new_lb_state s) (_dones s) (ep_lens s) (lb_dicts s) (debug_files s) (stdout s).
Definition with_new_lb_state (s : t) (x : option (list rstate)) : t :=
  mk (venv s) (num_envs s) (lookback_num s) (lookback_space s) (transparent_params s)
     (victim_index s) (_policy s) (_action s) (_obs s) (_state s)
     x (_dones s) (ep_lens s) (lb_dicts s) (debug_files s) (stdout s).
Definition with_dones (s : t) (x : list bool) : t :=
  mk (venv s) (num_envs s) (lookback_num s) (lookback_space s) (transparent_params s)
     (victim_index s) (_policy s) (_action s) (_obs s) (_state s)
     (_new_lb_state s) x (ep_lens s) (lb_dicts s) (debug_files s) (stdout s).
Definition with_ep_lens (s : t) (x : list nat) : t :=
  mk (venv s) (num_envs s) (lookback_num s) (lookback_space s) (transparent_params s)
     (victim_index s) (_policy s) (_action s) (_obs s) (_state s)
     (_new_lb_state s) (_dones s) x (lb_dicts s) (debug_files s) (stdout s).
Definition with_lb_dicts (s : t) (x : list LookbackTuple) : t :=
  mk (venv s) (num_envs s) (lookback_num s) (lookback_space s) (transparent_params s)
     (victim_index s) (_policy s) (_action s) (_obs s) (_state s)
     (_new_lb_state s) (_dones s) (ep_lens s) x (debug_files s) (stdout s).
Definition with_stdout (s : t) (x : list (num * nat * nat)) : t :=
  mk (venv s) (num_envs s) (lookback_num s) (lookback_space s) (transparent_params s)
     (victim_index s) (_policy s) (_action s) (_obs s) (_state s)
     (_new_lb_state s) (_dones s) (ep_lens s) (lb_dicts s) (debug_files s) x.

(** [env_fn(i)]: the call of [make_env] with three positional arguments
    and the keywords [out_dir], [pre_wrapper] and [resettable]. *)
Definition env_fn (i : nat) : result unit :=
  check_keywords make_env_params ["out_dir"; "pre_wrapper"; "resettable"].

(** [_create_lb_dicts]: one tuple per iteration of
    [for _ in range(self.lookback_num)].  The vectorised environment is
    made from one thunk per lane, [lambda: env_fn(i)], all of which read
    [i] when they are called, after the comprehension has left it at
    [num_envs - 1]; the victim is loaded by [load_policy], which returns
    here as it does in [__init__]; [EmbedVictimWrapper] is then called
    with the keywords [multi_env], [victim], [victim_index] and
    [transparent_params].  [shadow_make] stands for the pipeline that the
    iteration assembles. *)
Definition _create_lb_dicts (n_envs lb_num : nat) (args : shadow_args)
  : result (list LookbackTuple) :=
  for_each
    (λ lb_dicts slot,
       _ ← make_vec_env (V := V) (sa_use_dummy args)
              (replicate n_envs (λ _, env_fn (n_envs - 1)));
       _ ← check_keywords EmbedVictimWrapper_params
              ["multi_env"; "victim"; "victim_index"; "transparent_params"];
       let data_dict := mk_data None None (replicate n_envs zero) ∅ in
       Ok (lb_dicts ++ [mk_tuple slot (shadow_make args) data_dict]))
    (seq 0 lb_num) [].

Definition __init__ (venv0 : L) (lookback_params : lookback_params_t)
    (env_name : string) (use_dummy : bool) (victim_idx : nat)
    (victim_path victim_type : string)
    (transparent : option (gset string)) (lb_space : nat) : result t :=
  let n_envs := live_num_envs venv0 in
  num_lb ← getfield (lp_num_lb lookback_params);
  tp ← match transparent with
       | None => Raise (ValueError
           "LookbackRewardVecWrapper assumes transparent policies and venvs.")
       | Some tp => Ok tp
       end;
  ty ← getfield (lp_type lookback_params);
  path ← getfield (lp_path lookback_params);
  let policy := load_policy ty path env_name (1 - Z.of_nat victim_idx)%Z in
  lbs ← _create_lb_dicts n_envs num_lb
           (mk_args env_name use_dummy victim_idx victim_path victim_type
                    tp n_envs);
  let files := seq 0 (num_lb + 1) in
  f0 ← getitem files 0;
  let main := live_set_debug_file f0 venv0 in
  Ok (mk main n_envs num_lb lb_space tp victim_idx policy None None None None
         (replicate n_envs false) (replicate n_envs 0) lbs files []).

(** [obs[:, :d]] with [d] the first dimension of the policy's
    observation space. *)
Definition _get_truncated_obs (s : t) (o : obs_batch) : obs_batch :=
  if is_actor_critic (_policy s)
  then map (take (observation_space_dim (_policy s))) o
  else map (take (ob_space_dim (_policy s))) o.

Definition _process_own_obs (s : t) (observations : obs_batch) : t :=
  let o := _get_truncated_obs s observations in
  let '(pol, (a, r)) := predict (_policy s) (Some o) (_state s) (Some (_dones s)) in
  with_policy (with_own s (Some a) (Some o) r) pol.

(** [info.update(new)] on the cached dict of one lane. *)
Definition update_info (info : gmap nat (gmap nat agent_info)) (env_idx : nat)
    (new : gmap nat agent_info) : gmap nat (gmap nat agent_info) :=
  <[env_idx := new ∪ default ∅ (info !! env_idx)]> info.

Definition _process_lb_data (s : t) (lb_data : list step_out) : result t :=
  for_each
    (λ s '(idx, (lb_obs, lb_reward, _, lb_info)),
       let lb_obs := _get_truncated_obs s lb_obs in
       lb ← getitem (lb_dicts s) idx;
       let input_state := d_state (data lb) in
       let '(pol, (lb_action, lb_state)) :=
         predict (_policy s) (Some lb_obs) input_state (Some (_dones s)) in
       info ← for_each
                (λ info env_idx,
                   new ← getitem lb_info env_idx; Ok (update_info info env_idx new))
                (seq 0 (num_envs s)) (d_info (data lb));
       let lb := mk_tuple (slot_id lb) (lt_venv lb)
                   (mk_data lb_state (Some lb_action) lb_reward info) in
       lbs ← setitem (lb_dicts s) idx lb;
       Ok (with_policy (with_lb_dicts s lbs) pol))
    (zip (seq 0 (length lb_data)) lb_data) s.

(** The per-slot part of [_reset_state_data]. *)
Definition reset_slot (s : t) (env_idx : option nat)
    (action : list act) (state : option (list rstate))
    (curry_obs : curry_obs_t) (initial_env_states : list sim_state)
    (initial_env_full_state : list full_state) (initial_env_radii : list radius)
    (lb_dict : LookbackTuple) : result LookbackTuple :=
  let d := data lb_dict in
  '(v, d) ←
    match env_idx with
    | None =>
        let '(v, _) := shadow_reset (lt_venv lb_dict) in
        Ok (v, mk_data state (Some action) (map (λ r, mul r zero) (d_reward d)) ∅)
    | Some e =>
        a ← getitem action e;
        old_action ← not_none (d_action d);
        new_action ← setitem old_action e a;
        new_state ←
          match state with
          | None => Ok None
          | Some st =>
              x ← getitem st e;
              old_state ← not_none (d_state d);
              Some <$> setitem old_state e x
          end;
        r ← getitem (d_reward d) e;
        new_reward ← setitem (d_reward d) e (mul r zero);
        Ok (lt_venv lb_dict, mk_data new_state (Some new_action) new_reward (d_info d))
    end;
  let v := shadow_set_obs curry_obs env_idx v in
  let envs_iter := match env_idx with None => seq 0 (num_envs s) | Some e => [e] end in
  v ← for_each
        (λ v '(i, env_to_set),
           rad ← getitem initial_env_radii i;
           let v := shadow_set_radius env_to_set rad v in
           st ← getitem initial_env_states i;
           full ← getitem initial_env_full_state i;
           Ok (shadow_set_state env_to_set st (Some full) v))
        (zip (seq 0 (length envs_iter)) envs_iter) v;
  Ok (mk_tuple (slot_id lb_dict) v d).

Definition _reset_state_data (s : t) (initial_observations : obs_batch)
    (env_idx : option nat) : result t :=
  let truncated_obs := _get_truncated_obs s initial_observations in
  let curry_obs := live_get_obs (venv s) in
  let '(pol, (action, state)) := predict (_policy s) (Some truncated_obs) None None in
  let initial_env_states := live_get_state env_idx (venv s) in
  let initial_env_full_state := live_get_full_state env_idx (venv s) in
  let initial_env_radii := live_get_radius env_idx (venv s) in
  lbs ← map_enumerate
          (λ _ lb_dict,
             reset_slot s env_idx action state curry_obs initial_env_states
               initial_env_full_state initial_env_radii lb_dict)
          0 (lb_dicts s);
  Ok (with_policy (with_lb_dicts s lbs) pol).

Definition step_async (s : t) (actions : list act) : result t :=
  let current_states := live_get_state None (venv s) in
  lbs ← cycle (lb_dicts s);
  new_baseline_dict ← getitem lbs 0;
  let curry_obs := live_get_obs (venv s) in
  let v := shadow_set_obs curry_obs None (lt_venv new_baseline_dict) in
  v ← for_each
        (λ v env_idx,
           st ← getitem current_states env_idx;
           Ok (shadow_set_state env_idx st None v))
        (seq 0 (num_envs s)) v;
  rest ← map_enumerate
           (λ i lb_dict,
              f ← getitem (debug_files s) (i + 2);
              let lv := shadow_set_debug_file f (lt_venv lb_dict) in
              Ok (set_venv lb_dict (shadow_step_async (d_action (data lb_dict)) lv)))
           0 (drop 1 lbs);
  let '(pol, (lb_action, new_lb_state)) :=
    predict (_policy s) (_obs s) (_new_lb_state s) (Some (_dones s)) in
  let d := data new_baseline_dict in
  let d := mk_data new_lb_state (d_action d) (d_reward d) (d_info d) in
  f1 ← getitem (debug_files s) 1;
  let v := shadow_set_debug_file f1 v in
  let v := shadow_step_async (Some lb_action) v in
  let new_baseline_dict := mk_tuple (slot_id new_baseline_dict) v d in
  let s := with_lb_dicts s (new_baseline_dict :: rest) in
  let s := with_policy (with_new_lb_state s new_lb_state) pol in
  let s := with_venv s (live_step_async actions (venv s)) in
  Ok (with_ep_lens s (map S (ep_lens s))).

(** [ep_lens *= ~np.array(dones)], with NumPy's broadcasting of a
    one-element operand. *)
Definition mul_not_dones (ep : list nat) (dones : list bool) : result (list nat) :=
  let keep (d : bool) := if d then 0 else 1 in
  if decide (length dones = length ep)
  then Ok (zip_with (λ n d, n * keep d) ep dones)
  else match dones with
       | [d] => Ok (map (λ n, n * keep d) ep)
       | _ => Raise (ValueError "operands could not be broadcast together")
       end.

(** [info['ff']['policy'][0][env_idx]] and [info['obs'][env_idx]]. *)
Definition ff_signal (info : agent_info) (env_idx : nat) : result vec :=
  d ← getfield (ff info);
  layers ← getkey d "policy";
  arr ← getitem layers 0;
  getitem arr env_idx.

Definition obs_signal (info : agent_info) (env_idx : nat) : result vec :=
  arr ← getfield (obs info);
  getitem arr env_idx.

(** The body of the loop over [enumerate(valid_lb_dicts)]: the accumulated
    [env_diff_reward] and the lines printed so far. *)
Definition diff_step (s : t) (env_idx : nat) (victim_info : agent_info) (ep_len : nat)
    (acc : num * list (num * nat * nat)) (slot : nat * LookbackTuple)
  : result (num * list (num * nat * nat)) :=
  let '(env_diff_reward, printed) := acc in
  let '(i, lb_dict) := slot in
  lb_victim_info ←
    getkey (default ∅ (d_info (data lb_dict) !! env_idx)) (victim_index s);
  acc ←
    (if decide ("ff" ∈ transparent_params s) then
       a ← ff_signal victim_info env_idx;
       b ← ff_signal lb_victim_info env_idx;
       let diff_ff := vsub a b in
       Ok (add env_diff_reward (norm diff_ff),
           printed ++ [(norm diff_ff, i, ep_len)])
     else Ok (env_diff_reward, printed));
  _ ←
    (if decide ("obs" ∈ transparent_params s) then
       a ← obs_signal victim_info env_idx;
       b ← obs_signal lb_victim_info env_idx;
       let diff_obs := vsub a b in
       Ok (Some diff_obs)
     else Ok None);
  Ok acc.

Definition lane_diff_reward (s : t) (env_idx : nat) (victim_info : agent_info)
    (valid_lb_dicts : list LookbackTuple)
  : result (num * list (num * nat * nat)) :=
  ep_len ← getitem (ep_lens s) env_idx;
  for_each (diff_step s env_idx victim_info ep_len)
    (zip (seq 0 (length valid_lb_dicts)) valid_lb_dicts)
    (zero, []).

(** The body of [for env_idx in range(self.num_envs)] in [step_wait]. *)
Definition step_wait_lane (observations : obs_batch) (infos : infos_t)
    (sr : t * list num) (env_idx : nat) : result (t * list num) :=
  let '(s, rewards) := sr in
  done ← getitem (_dones s) env_idx;
  s ← (if (done : bool)
       then _reset_state_data s observations (Some env_idx)
       else Ok s);
  ep_len ← getitem (ep_lens s) env_idx;
  let valid_lb_dicts := take ep_len (lb_dicts s) in
  info_e ← getitem infos env_idx;
  victim_info ← getkey info_e (victim_index s);
  '(env_diff_reward, printed) ← lane_diff_reward s env_idx victim_info valid_lb_dicts;
  r ← getitem rewards env_idx;
  rewards ← setitem rewards env_idx (add r (mul coef env_diff_reward));
  Ok (with_stdout s (stdout s ++ printed), rewards).

Definition step_wait (s : t) : result (t * step_out) :=
  let '(live, (observations, rewards, dones, infos)) := live_step_wait (venv s) in
  let s := with_dones (with_venv s live) dones in
  let s := _process_own_obs s observations in
  let stepped :=
    map (λ lb_dict,
           let '(v, out) := shadow_step_wait (lt_venv lb_dict) in
           (set_venv lb_dict v, out))
        (lb_dicts s) in
  let s := with_lb_dicts s (map fst stepped) in
  let lb_data := map snd stepped in
  s ← _process_lb_data s lb_data;
  ep ← mul_not_dones (ep_lens s) (_dones s);
  let s := with_ep_lens s ep in
  '(s, rewards) ←
    for_each (step_wait_lane observations infos) (seq 0 (num_envs s)) (s, rewards);
  Ok (s, (observations, rewards, _dones s, infos)).

Definition reset (s : t) : result (t * obs_batch) :=
  let '(live, observations) := live_reset (venv s) in
  let s := with_venv s live in
  let s := _process_own_obs s observations in
  s ← _reset_state_data s observations None;
  Ok (s, observations).

(** The identities of the slots and their cached info dicts, in ring
    order (offset 0 first). *)
Definition slot_ids (s : t) : list nat := map slot_id (lb_dicts s).

Definition cached_infos (s : t) : list (gmap nat (gmap nat agent_info)) :=
  map (λ lb_dict, d_info (data lb_dict)) (lb_dicts s).

(** The distance contributed by one slot, as the specification words it:
    the norm of the difference between the live victim's feature signal
    and the slot's victim's signal for the same lane. *)
Definition slot_distance (vidx env_idx : nat) (victim_info : agent_info)
    (slot_info : gmap nat (gmap nat agent_info)) : result num :=
  lb_victim_info ← getkey (default ∅ (slot_info !! env_idx)) vidx;
  a ← ff_signal victim_info env_idx;
  b ← ff_signal lb_victim_info env_idx;
  Ok (norm (vsub a b)).

(** The terms of a lane's bonus: with ['ff'] among the transparent
    parameters one distance per valid slot, in ring order; none otherwise. *)
Definition bonus_terms (s : t) (env_idx : nat) (victim_info : agent_info)
    (ep_len : nat) (dists : list num) : Prop :=
  if decide ("ff" ∈ transparent_params s) then
    Forall2 (λ slot_info d,
               slot_distance (victim_index s) env_idx victim_info slot_info = Ok d)
            (take ep_len (cached_infos s)) dists
  else dists = [].

(** The lines that [print] writes for a lane with these terms. *)
Definition printed_lines (ep_len : nat) (dists : list num) : list (num * nat * nat) :=
  zip_with (λ i d, (d, i, ep_len)) (seq 0 (length dists)) dists.

(** What the loop over the lanes in [step_wait] never changes. *)
Definition frame (s s' : t) : Prop :=
  num_envs s' = num_envs s ∧ transparent_params s' = transparent_params s ∧
  victim_index s' = victim_index s ∧ ep_lens s' = ep_lens s ∧
  _dones s' = _dones s ∧ _state s' = _state s ∧ venv s' = venv s ∧
  slot_ids s' = slot_ids s ∧ cached_infos s' = cached_infos s.

(** What [step_async] and the first half of [step_wait] never change. *)
Definition same_setup (s s' : t) : Prop :=
  num_envs s' = num_envs s ∧ lookback_num s' = lookback_num s ∧
  transparent_params s' = transparent_params s ∧
  victim_index s' = victim_index s ∧ debug_files s' = debug_files s ∧
  stdout s' = stdout s.

(** The fields that the methods called after construction leave alone. *)
Definition same_config (s s' : t) : Prop :=
  num_envs s' = num_envs s ∧ lookback_num s' = lookback_num s ∧
  transparent_params s' = transparent_params s ∧
  victim_index s' = victim_index s ∧ debug_files s' = debug_files s.

(** The shape that [__init__] gives a wrapper: one episode length per
    lane and one debug file more than there are slots. *)
Definition well_formed (s : t) : Prop :=
  length (ep_lens s) = num_envs s ∧
  length (debug_files s) = length (lb_dicts s) + 1.

(** The loop of [step_async] that copies the live simulator states into
    the slot that was rotated to the front. *)
Definition seed_lanes (states : list sim_state) (n : nat) (v : V) : V :=
  foldl (λ v '(env_idx, st), shadow_set_state env_idx st None v) v
        (zip (seq 0 n) states).

(** What a training loop does with the wrapper: [reset], or one
    [step_async]/[step_wait] cycle with a batch of actions. *)
Inductive call : Type :=
| CallReset
| CallStep (actions : list act).

Fixpoint run (cs : list call) (s : t) : result t :=
  match cs with
  | [] => Ok s
  | CallReset :: cs' => '(s1, _) ← reset s; run cs' s1
  | CallStep a :: cs' =>
      s1 ← step_async s a;
      '(s2, _) ← step_wait s1;
      run cs' s2
  end.

(** The number of [step_async]/[step_wait] cycles among some calls. *)
Fixpoint steps_in (cs : list call) : nat :=
  match cs with
  | [] => 0
  | CallReset :: cs' => steps_in cs'
  | CallStep _ :: cs' => S (steps_in cs')
  end.

(** The reset of lane [e] as the specification words it: in every slot
    the cached info of the lane is back to the empty dict that [reset]
    installs and the cached recurrent state of the lane is the fresh
    one, and so is the tracked state of our own policy. *)
Definition lane_reset_as_specified (fresh : option (list rstate)) (s : t) (e : nat)
  : Prop :=
  (∀ lb, lb ∈ lb_dicts s →
     default ∅ (d_info (data lb) !! e) = ∅ ∧
     d_state (data lb) ≫= (.!! e) = fresh ≫= (.!! e)) ∧
  _state s ≫= (.!! e) = fresh ≫= (.!! e).
End lookback.
Arguments t {D} P L V.
Arguments LookbackTuple {D} V.
Arguments data_t {D}.
End LookbackRewardVecWrapper.

(** ** Debug dumps: [DebugVenv] *)

Module DebugVenv.
Section debug.
(** Environment states, actions, observations, rewards, infos. *)
Context {E Act Obs Rew Inf : Type}.

(** The vectorised environment under the wrapper.  [sim_data_fields] is
    the chain [unwrapped.envs[0].env.sim.data] down to the [_fields_] of
    the simulator's data, which not every environment has. *)
Class Venv := {
  inner_step_async : Act → E → E;
  inner_step_wait : E → E * (Obs * Rew * list bool * Inf);
  inner_reset : E → E * Obs;
  sim_data_fields : E → result (list (string * string));
}.
Context `{!Venv}.

Inductive entry : Type :=
| Actions (a : Act)
| Observations (o : Obs)
| Rewards (r : Rew).

Abbreviation record := (gmap string entry).

(** Open files by handle: the records pickled into each, oldest first. *)
Abbreviation files := (gmap nat (list record)).

Record t : Type := mk {
  venv : E;
  num_agents : nat;
  debug_file : option nat;
  debug_dict : record;
}.

Definition __init__ (venv0 : E) : t := mk venv0 2 None ∅.

Definition step_async (w : t) (actions : Act) : result t :=
  let debug_dict' := <["actions" := Actions actions]> (debug_dict w) in
  fields ← sim_data_fields (venv w);
  let keys := filter (λ k, k ≠ "contact") (fields.*1) in
  Ok (mk (inner_step_async actions (venv w)) (num_agents w) (debug_file w)
         debug_dict').

(** [pickle.dump(obj, file)]: [None] is no file to write to. *)
Definition pickle_dump (obj : record) (file : option nat) (fs : files)
  : result files :=
  match file with
  | Some f => Ok (<[f := default [] (fs !! f) ++ [obj]]> fs)
  | None => Raise TypeError
  end.

Definition step_wait (w : t) (fs : files)
  : result (t * files * (Obs * Rew * list bool * Inf)) :=
  let '(e, (obs, rew, dones, infos)) := inner_step_wait (venv w) in
  let debug_dict' :=
    {[ "next_obs" := Observations obs; "rewards" := Rewards rew ]}
    ∪ debug_dict w in
  fs ← pickle_dump debug_dict' (debug_file w) fs;
  Ok (mk e (num_agents w) (debug_file w) ∅, fs, (obs, rew, dones, infos)).

Definition reset (w : t) : t * Obs :=
  let '(e, observations) := inner_reset (venv w) in
  (mk e (num_agents w) (debug_file w)
      (<["prev_obs" := Observations observations]> (debug_dict w)),
   observations).

Definition set_debug_file (w : t) (f : nat) : t :=
  mk (venv w) (num_agents w) (Some f) (debug_dict w).

Definition get_debug_venv (w : t) : t := w.
End debug.
Arguments Venv : clear implicits.
Arguments entry : clear implicits.
Arguments t : clear implicits.
End DebugVenv.

(* ===================================================================== *)
(** * A small concrete world

    Instances of the interfaces on which the definitions above can be run:
    integer-valued trajectories for the recorder, and for the lookback
    wrapper a one-dimensional simulator whose lanes hold a position, with
    rewards in fixed point (two decimals, so that [0.05] is [5]). *)
(* ===================================================================== *)

Module Demo.
(** ** Recorder *)
#[warnings="-register-all"] Inductive zval : Type :=
| ZS (z : Z)
| ZA (l : list zval).

Fixpoint zadd_scalar (x : Z) (b : zval) : zval :=
  match b with
  | ZS y => ZS (x + y)
  | ZA l => ZA (map (zadd_scalar x) l)
  end.

Fixpoint zadd (a b : zval) {struct a} : zval :=
  match a with
  | ZS x => zadd_scalar x b
  | ZA la =>
      match b with
      | ZS y => zadd_scalar y a
      | ZA lb =>
          ZA ((fix go (la lb : list zval) : list zval :=
                 match la, lb with
                 | x :: la', y :: lb' => zadd x y :: go la' lb'
                 | _, _ => []
                 end) la lb)
      end
  end.

#[global] Instance zval_value : PyValue zval :=
  {| py_int0 := ZS 0; py_add := zadd; np_array := ZA |}.

(** One agent, one lane; the state counts the steps of the episode.  The
    reward of step [n] is [n], the observation is the step count, and
    the episode ends with the third step. *)
#[global] Instance counter_env : VecMultiEnv zval nat :=
  {| venv_reset := λ _, (0, [[ZS 0]]);
     venv_step_async := λ _ n, S n;
     venv_step_wait := λ n,
       let done := bool_decide (n = 3) in
       ((if done then 0 else n),
        ([[ZS (Z.of_nat n)]], [[ZS (Z.of_nat n)]], [done], [{[ 0 := ∅ ]}])) |}.

(** A disk that remembers the directories made and the files written, in
    order; as [os.makedirs] does, it refuses the empty path. *)
Record disk : Type := mk_disk {
  disk_dirs : list string;
  disk_files : list (string * gmap string zval);
}.

#[global] Instance disk_fs : FileSystem zval disk :=
  {| os_makedirs := λ path d,
       if decide (path = "") then Raise FileNotFoundError
       else Ok (mk_disk (disk_dirs d ++ [path]) (disk_files d));
     write_npz := λ path arrays d,
       Ok (mk_disk (disk_dirs d) (disk_files d ++ [(path, arrays)])) |}.

Definition recorder0 : TrajectoryRecorder.t zval nat :=
  TrajectoryRecorder.mk 0 1 1 [0] None None [[∅]] [∅] None None [].

Definition three_steps : list (TrajectoryRecorder.call (value := zval)) :=
  [TrajectoryRecorder.CallReset;
   TrajectoryRecorder.CallStepAsync [[ZS 7]]; TrajectoryRecorder.CallStepWait;
   TrajectoryRecorder.CallStepAsync [[ZS 8]]; TrajectoryRecorder.CallStepWait;
   TrajectoryRecorder.CallStepAsync [[ZS 9]]; TrajectoryRecorder.CallStepWait].

(** The recorder in the middle of the third [step_wait], when the loop of
    [record_timestep_data] is about to run. *)
Definition recorder_at_end : TrajectoryRecorder.t zval nat :=
  match TrajectoryRecorder.run (take 6 three_steps) recorder0 with
  | Ok (r, _) => TrajectoryRecorder.with_venv r 0
  | Raise _ => recorder0
  end.

Definition env_data_at_end : gmap string (option (list (list zval))) :=
  {[ "observations" := TrajectoryRecorder.prev_obs recorder_at_end;
     "actions" := TrajectoryRecorder.actions recorder_at_end;
     "rewards" := Some [[ZS 3]] ]}.

(** ** Victim embedding: a session and a pipeline are open or closed. *)
#[global] Instance flag_closeable : Closeable bool bool :=
  {| sess_close := λ _, false; super_close := λ _, false |}.

(** ** Lookback wrapper *)
#[global] Instance demoD : Domain :=
  {| num := Z; vec := list Z; feat := Z; act := Z; rstate := Z;
     sim_state := Z; full_state := Z; radius := Z; curry_obs_t := list Z |}.

#[global] Instance demo_numeric : Numeric demoD :=
  {| zero := 0%Z; coef := 5%Z;
     add := Z.add;
     mul := λ a b : Z, (a * b / 100)%Z;
     vsub := λ a b : list Z, zip_with Z.sub a b;
     norm := λ v : list Z, Z.sqrt (foldr (λ x acc, x * x + acc)%Z 0%Z v) |}.

(** A recurrent policy that counts the steps of the episode in its
    state (restarting where the mask is set) and always plays [1]. *)
#[global] Instance demo_policy : Policy (D := demoD) unit :=
  {| load_policy := λ _ _ _ _, tt;
     predict := λ p (o : option (obs_batch (D := demoD))) (st : option (list Z)) mask,
       let n := length (default [] o) in
       let st := default (replicate n 0%Z) st in
       let mask := default (replicate n false) mask in
       (p, (replicate n 1%Z,
            Some (zip_with (λ (x : Z) (m : bool), ((if m then 0 else x) + 1)%Z) st mask)));
     is_actor_critic := λ _, true;
     observation_space_dim := λ _, 1;
     ob_space_dim := λ _, 1 |}.

(** The simulator: each lane has a position; a step adds [gain] times
    the action; the episode of a lane ends when it reaches [limit]. *)
Record sim : Type := mk_sim {
  pos : list Z;
  pending : list Z;
  gain : Z;
  limit : Z;
  debug_file : option nat;
}.

Definition sim_info (p : list Z) : agent_info (D := demoD) :=
  mk_info demoD (Some {[ "policy" := [map (λ x, [x * 100; 0]%Z) p] ]})
          (Some (map (λ x, [x]) p)).

Definition sim_step (s : sim) : sim * step_out (D := demoD) :=
  let moved := zip_with (λ x a, x + gain s * a)%Z (pos s) (pending s) in
  let dones := map (λ x, bool_decide (limit s ≤ x)%Z) moved in
  let p := zip_with (λ x (d : bool), if d then 0%Z else x) moved dones in
  (mk_sim p [] (gain s) (limit s) (debug_file s),
   (map (λ x, [x; x]) p, map (λ x, x * 100)%Z moved, dones,
    map (λ _, {[ 0 := sim_info moved ]}) p)).

Definition sim_set_pos (i : nat) (x : Z) (s : sim) : sim :=
  mk_sim (<[i := x]> (pos s)) (pending s) (gain s) (limit s) (debug_file s).

Definition sim_lookup (which : option nat) (s : sim) : list Z :=
  match which with
  | None => pos s
  | Some i => match pos s !! i with Some x => [x] | None => [] end
  end.

#[global] Instance demo_live : LiveEnv (D := demoD) sim :=
  {| live_num_envs := λ s, length (pos s);
     live_get_state := sim_lookup;
     live_get_full_state := sim_lookup;
     live_get_radius := λ which s, map (λ _, 1%Z) (sim_lookup which s);
     live_get_obs := pos;
     live_set_debug_file := λ f s,
       mk_sim (pos s) (pending s) (gain s) (limit s) (Some f);
     live_reset := λ s,
       let p := map (λ _, 0%Z) (pos s) in
       (mk_sim p [] (gain s) (limit s) (debug_file s), map (λ x, [x; x]) p);
     live_step_async := λ a s,
       mk_sim (pos s) a (gain s) (limit s) (debug_file s);
     live_step_wait := sim_step |}.

#[global] Instance demo_shadow : ShadowEnv (D := demoD) sim :=
  {| make_vec_env := λ use_dummy env_fns,
       if use_dummy then for_each (λ _ fn, fn tt) env_fns tt else Ok tt;
     shadow_make := λ args, mk_sim (replicate (sa_num_envs args) 0%Z) [] 2 1000 None;
     shadow_set_obs := λ _ _ s, s;
     shadow_set_state := λ i x _ s, sim_set_pos i x s;
     shadow_set_radius := λ _ _ s, s;
     shadow_set_debug_file := λ f s,
       mk_sim (pos s) (pending s) (gain s) (limit s) (Some f);
     shadow_reset := λ s,
       let p := map (λ _, 0%Z) (pos s) in
       (mk_sim p [] (gain s) (limit s) (debug_file s), map (λ x, [x; x]) p);
     shadow_step_async := λ a s,
       mk_sim (pos s) (default [] a) (gain s) (limit s) (debug_file s);
     shadow_step_wait := sim_step |}.

Definition live0 : sim := mk_sim [0; 0]%Z [] 1 3 None.

Definition params (k : nat) : lookback_params_t :=
  mk_params (Some k) (Some "ppo2") (Some "model.pkl").

(** The constructor on the live simulator [live]. *)
Definition make_on (live : sim) (k : nat) (transparent : option (gset string))
  : result (LookbackRewardVecWrapper.t unit sim sim) :=
  LookbackRewardVecWrapper.__init__ live (params k) "multicomp/SumoAnts-v0" true 0
    "1" "zoo" transparent 1.

Definition make (k : nat) (transparent : option (gset string))
  : result (LookbackRewardVecWrapper.t unit sim sim) :=
  make_on live0 k transparent.

(** A wrapper that holds [k] slots: the fields as the constructor
    assigns them, the slots as [_create_lb_dicts] is written to assemble
    them, numbered in that order. *)
Definition with_slots_on (live : sim) (k : nat) (transparent : gset string)
  : LookbackRewardVecWrapper.t unit sim sim :=
  let n := live_num_envs live in
  let args := mk_args "multicomp/SumoAnts-v0" true 0 "1" "zoo" transparent n in
  LookbackRewardVecWrapper.mk
    (live_set_debug_file 0 live) n k 1 transparent 0
    (load_policy "ppo2" "model.pkl" "multicomp/SumoAnts-v0" 1%Z)
    None None None None (replicate n false) (replicate n 0)
    (map (λ i, LookbackRewardVecWrapper.mk_tuple i (shadow_make args)
                 (LookbackRewardVecWrapper.mk_data None None (replicate n 0%Z) ∅))
         (seq 0 k))
    (seq 0 (k + 1)) [].

Definition with_slots (k : nat) (transparent : gset string)
  : LookbackRewardVecWrapper.t unit sim sim :=
  with_slots_on live0 k transparent.

(** A reset followed by [n] cycles in which our agent plays [1] in both
    lanes.  The live episode ends with the third cycle. *)
Definition calls (n : nat) : list (LookbackRewardVecWrapper.call (D := demoD)) :=
  LookbackRewardVecWrapper.CallReset
    :: replicate n (LookbackRewardVecWrapper.CallStep [1; 1]%Z).

(** The wrapper with [k] slots after these calls. *)
Definition after (k : nat) (transparent : gset string) (n : nat)
  : result (LookbackRewardVecWrapper.t unit sim sim) :=
  LookbackRewardVecWrapper.run (calls n) (with_slots k transparent).
End Demo.

(** A two-agent game on a line: the position moves by the action, the
    episode ends at 2 and agent 0 is then the winner. *)
Module VideoDemo.
Import VideoWrapper.

#[global] Instance line_env : GymEnv Z Z Z Z bool := {|
  env_step a e :=
    let e' := (e + a)%Z in
    let done := bool_decide (2 ≤ e')%Z in
    (e', (e', 1%Z, done,
          [(0, if done then {[ "winner" := true ]} else ∅); (1, ∅)]));
  env_reset _ := (0%Z, 0%Z);
|}.

Definition fresh : t Z := __init__ 0%Z "videos".

(** After a reset and one step that does not end the episode. *)
Definition midway : result (t Z) :=
  '(w, _) ← _step (_reset fresh).1 1%Z; Ok w.
End VideoDemo.

(** A training run to compute with: models are the number of updates
    done, [learn] makes [total_timesteps] updates and reports each one
    under [update], as PPO2 does. *)
Module StableDemo.
Import Stable.

#[global] Instance demo_algo : Algo nat string := {|
  cls_load _ _ := 0;
  cls_new _ _ := 0;
  get_policy_type_for_zoo_agent _ := Ok ("MlpPolicyValue", "zoo_kwargs");
  load_zoo_agent_params _ _ _ := Ok "zoo_params";
  act_model_restore _ m := m;
  learn m total _ :=
    (map (λ k, (m + k, {[ "update" := Z.of_nat k ]})) (seq 1 (Z.to_nat total)),
     m + Z.to_nat total);
|}.

(** Seven updates of two timesteps each, a checkpoint interval of four. *)
Definition ppo2_args (load : load_policy_t) (rl : gmap string (kwval string))
  : args string string string :=
  mk_args "ppo2" "update" 2 0 "multicomp/SumoAnts-v0" "out" 7 "MlpPolicy" load rl
          0 false ["game_outcome"] ["running_average"] 2 4
          {[ "n_steps" := KwInt 1 ]}.

Definition from_scratch : args string string string :=
  ppo2_args (mk_load_policy None "ppo2") {[ "ent_coef" := KwInt 0 ]}.
End StableDemo.

(** Two recorded episodes, of two timesteps and of one, and the same file
    with an episode of no timesteps between them. *)
Module DatasetDemo.
Definition two_episodes : gmap string (list (list Z)) :=
  {[ "observations" := [[10; 11]; [12]];
     "actions" := [[1; 1]; [0]];
     "rewards" := [[0; 1]; [5]] ]}%Z.

Definition with_empty_episode : gmap string (list (list Z)) :=
  {[ "observations" := [[10; 11]; []; [12]];
     "rewards" := [[0; 1]; []; [5]] ]}%Z.
End DatasetDemo.

(** A counter as the wrapped environment, and a wrapper that writes to
    the file with handle 7. *)
Module DebugDemo.
Import DebugVenv.

#[global] Instance counter_venv : Venv Z Z Z Z unit := {|
  inner_step_async a e := (e + a)%Z;
  inner_step_wait e := (e, (e, 1%Z, [false], tt));
  inner_reset _ := (0%Z, 0%Z);
  sim_data_fields _ := Ok [("qpos", "c_double"); ("contact", "mjContact")];
|}.

Definition with_file : t Z Z Z Z := set_debug_file (__init__ 0%Z) 7.
End DebugDemo.

(* ===================================================================== *)
(** * Properties *)
(* ===================================================================== *)

(** ** Reasoning about [result] *)

Lemma bind_Ok {A B} (m : result A) (f : A → result B) (b : B) :
  m ≫= f = Ok b ↔ ∃ a, m = Ok a ∧ f a = Ok b.
Proof.
  destruct m as [a|e]; simpl; split.
  - intros Hf. by exists a.
  - by intros (a' & [= ->] & Hf).
  - discriminate.
  - by intros (a' & [=] & _).
Qed.

Lemma fmap_Ok {A B} (f : A → B) (m : result A) (b : B) :
  f <$> m = Ok b ↔ ∃ a, m = Ok a ∧ b = f a.
Proof.
  destruct m as [a|e]; simpl; split.
  - intros [= <-]. by exists a.
  - by intros (a' & [= ->] & ->).
  - discriminate.
  - by intros (a' & [=] & _).
Qed.

Lemma getitem_Ok {A} (l : list A) i x : getitem l i = Ok x ↔ l !! i = Some x.
Proof. unfold getitem. destruct (l !! i); split; congruence. Qed.

Lemma setitem_Ok {A} (l l' : list A) i x :
  setitem l i x = Ok l' ↔ i < length l ∧ l' = <[i := x]> l.
Proof.
  unfold setitem. case_decide; split.
  - by intros [= <-].
  - by intros [_ ->].
  - discriminate.
  - intros [? _]. lia.
Qed.

Lemma setitem_lt {A} (l : list A) i x :
  i < length l → setitem l i x = Ok (<[i := x]> l).
Proof. intros. unfold setitem. by rewrite decide_True. Qed.

Lemma getkey_Ok `{Countable K} {A} (d : gmap K A) k x :
  getkey d k = Ok x ↔ d !! k = Some x.
Proof. unfold getkey. destruct (d !! k); split; congruence. Qed.

Lemma getfield_Ok {A} (o : option A) x : getfield o = Ok x ↔ o = Some x.
Proof. destruct o; simpl; split; congruence. Qed.

Lemma not_none_Ok {A} (o : option A) x : not_none o = Ok x ↔ o = Some x.
Proof. destruct o; simpl; split; congruence. Qed.

Lemma Ok_inj {A} (a b : A) : Ok a = Ok b → a = b.
Proof. by intros [= ->]. Qed.

(** Take apart a hypothesis saying that a monadic computation succeeded. *)
Ltac inv_ok :=
  repeat match goal with
  | H : Ok _ = Ok _ |- _ => apply Ok_inj in H
  | H : Raise _ = Ok _ |- _ => discriminate H
  | H : mbind _ _ = Ok _ |- _ =>
      let a := fresh "a" in
      let Ha := fresh "Ha" in
      apply bind_Ok in H as (a & Ha & H)
  | H : fmap _ _ = Ok _ |- _ =>
      let a := fresh "a" in
      let Ha := fresh "Ha" in
      apply fmap_Ok in H as (a & Ha & H)
  | H : getitem _ _ = Ok _ |- _ => apply getitem_Ok in H
  | H : setitem _ _ _ = Ok _ |- _ => apply setitem_Ok in H as [? H]
  | H : getkey _ _ = Ok _ |- _ => apply getkey_Ok in H
  | H : getfield _ = Ok _ |- _ => apply getfield_Ok in H
  | H : not_none _ = Ok _ |- _ => apply not_none_Ok in H
  | H : (let '(_, _) := ?x in _) = Ok _ |- _ => destruct x eqn:?
  end.

(** A loop that succeeded kept every invariant that its body keeps. *)
Lemma for_each_invariant {S X} (I : S → Prop) (body : S → X → result S) xs s s' :
  (∀ s x s', x ∈ xs → I s → body s x = Ok s' → I s') →
  I s → for_each body xs s = Ok s' → I s'.
Proof.
  revert s. induction xs as [|x xs IH]; simpl; intros s Hbody Hs Hrun.
  - by injection Hrun as <-.
  - apply bind_Ok in Hrun as (s1 & H1 & Hrun).
    apply (IH s1); [|by eapply Hbody; [left|..]|done].
    intros ???? ; apply Hbody. by right.
Qed.

(** A loop succeeds when its body does wherever an invariant holds. *)
Lemma for_each_total {S X} (I : S → Prop) (body : S → X → result S) xs s :
  (∀ s x, x ∈ xs → I s → ∃ s', body s x = Ok s' ∧ I s') →
  I s → ∃ s', for_each body xs s = Ok s' ∧ I s'.
Proof.
  revert s. induction xs as [|x xs IH]; simpl; intros s Hbody Hs.
  - by exists s.
  - destruct (Hbody s x) as (s1 & -> & H1); [by left|done|]. simpl.
    apply IH; [|done]. intros s2 x2 Hx2 Hs2. apply Hbody; [by right|done].
Qed.

Lemma map_enumerate_Forall2 {X Y} (R : X → Y → Prop) (f : nat → X → result Y) i xs ys :
  (∀ i x y, x ∈ xs → f i x = Ok y → R x y) →
  map_enumerate f i xs = Ok ys → Forall2 R xs ys.
Proof.
  revert i ys. induction xs as [|x xs IH]; simpl; intros i ys Hf Hrun.
  - injection Hrun as <-. constructor.
  - inv_ok. subst ys. constructor.
    + eapply Hf; [by left|done].
    + eapply IH; [|done]. intros ????; apply Hf; by right.
Qed.

(** ** utils.py: [_filter_dict] *)

Module FilterDictSpec.
Section filter.
Context {V : Type}.

Lemma filter_none (d : gmap string V) : _filter_dict d None = Ok (d, []).
Proof. reflexivity. Qed.

(** C6. The docstring of [_filter_dict] promises a warning and no failure
    for a requested key that the dict lacks.  The function looks up the
    attribute [intersect] on a built-in set, which does not exist: every
    call with a list of requested keys raises [AttributeError], whether or
    not a key is missing, and no warning is ever emitted. *)
Theorem filter_dict_requested_keys_raise (d : gmap string V) (keys : list string) :
  _filter_dict d (Some keys) = Raise (AttributeError "set" "intersect").
Proof. reflexivity. Qed.
End filter.
End FilterDictSpec.

(** ** utils.py: [TrajectoryRecorder] *)

Module TrajectoryRecorderSpec.
Import TrajectoryRecorder.
Section recorder.
Context {value E : Type} `{!PyValue value, !VecMultiEnv value E}.
Implicit Types (r : t value E) (acc store : gmap string (list value)).

(** *** Dictionaries of lists *)

Lemma lookup_dd_append {V} (d : gmap string (list V)) key x k :
  dd_append key x d !! k =
    if decide (key = k) then Some (default [] (d !! key) ++ [x]) else d !! k.
Proof. unfold dd_append. by rewrite lookup_insert. Qed.

(** Appending one consolidated array per field of [acc]. *)
Lemma lookup_consolidate_fields acc store k :
  map_fold (λ key val store, dd_append key (np_array val) store) store acc !! k =
    match acc !! k with
    | Some vs => Some (default [] (store !! k) ++ [np_array vs])
    | None => store !! k
    end.
Proof.
  revert k. apply (map_fold_weak_ind (λ res m, ∀ k, res !! k =
    match m !! k with
    | Some vs => Some (default [] (store !! k) ++ [np_array vs])
    | None => store !! k
    end)).
  - intros k. by rewrite lookup_empty.
  - intros i x m res Hi IH k. rewrite lookup_dd_append, lookup_insert.
    case_decide as Hik; [subst k|by apply IH].
    by rewrite IH, Hi.
Qed.

Lemma consolidate_episode_field acc store key vs :
  key ≠ "episode_returns" → acc !! key = Some vs →
  consolidate_episode acc store !! key =
    Some (default [] (store !! key) ++ [np_array vs]).
Proof.
  intros Hkey Hacc. unfold consolidate_episode, dd_get.
  destruct (acc !! "rewards") as [rews|] eqn:Hrews;
    rewrite lookup_consolidate_fields.
  - rewrite Hacc, lookup_dd_append. by case_decide.
  - rewrite lookup_insert. case_decide; [congruence|].
    rewrite Hacc, lookup_dd_append. by case_decide.
Qed.

Lemma consolidate_episode_return acc store :
  consolidate_episode acc store !! "episode_returns" =
    Some ((default [] (store !! "episode_returns")
           ++ [np_array [py_sum (default [] (acc !! "rewards"))]])
          ++ match acc !! "episode_returns" with
             | Some vs => [np_array vs]
             | None => []
             end).
Proof.
  unfold consolidate_episode, dd_get.
  destruct (acc !! "rewards") as [rews|] eqn:Hrews;
    rewrite lookup_consolidate_fields.
  - rewrite lookup_dd_append. case_decide; [|done]. simpl.
    destruct (acc !! "episode_returns"); [done|]. by rewrite app_nil_r.
  - rewrite lookup_insert. case_decide; [done|].
    rewrite lookup_dd_append. case_decide; [|done]. simpl.
    destruct (acc !! "episode_returns"); [done|]. by rewrite app_nil_r.
Qed.

(** *** The fields that recording leaves alone *)

Lemma same_config_refl r : same_config r r.
Proof. by repeat split. Qed.

Lemma same_config_trans r1 r2 r3 :
  same_config r1 r2 → same_config r2 r3 → same_config r1 r3.
Proof. unfold same_config. intros ? ?. intuition congruence. Qed.

Lemma record_lane_same_config r env_data dones infos d e r' :
  record_lane r env_data dones infos d e = Ok r' → same_config r r'.
Proof.
  unfold record_lane. intros Hrun. inv_ok.
  destruct a1; inv_ok; subst r'; by repeat split.
Qed.

Lemma record_timestep_data_same_config r po acts rewards dones infos r' :
  record_timestep_data r po acts rewards dones infos = Ok r' → same_config r r'.
Proof.
  unfold record_timestep_data. intros Hrun. inv_ok.
  eapply (for_each_invariant (same_config r)); [| |exact Hrun].
  - intros s [d e] s' _ Hs Hbody.
    eapply same_config_trans; [done|]. by eapply record_lane_same_config.
  - by repeat split.
Qed.

(** *** Passing calls through *)

Lemma step_async_forwards r acts :
  venv (step_async r acts) = venv_step_async acts (venv r) ∧
  actions (step_async r acts) = Some acts.
Proof. done. Qed.

Lemma reset_passthrough r :
  venv_reset (venv r) = ((venv (reset r).1), (reset r).2).
Proof. unfold reset. by destruct (venv_reset (venv r)). Qed.

Lemma step_wait_passthrough r r' out :
  step_wait r = Ok (r', out) → venv_step_wait (venv r) = (venv r', out).
Proof.
  unfold step_wait. intros Hrun.
  destruct (venv_step_wait (venv r)) as [e [[[o rw] dn] inf]].
  inv_ok. injection Hrun as <- <-.
  apply record_timestep_data_same_config in Ha as (Hv & _). simpl in *.
  by rewrite Hv.
Qed.

(** C8. The recorder is a transparent passthrough: whatever sequence of
    [reset], [step_async] and [step_wait] calls is made on it, the wrapped
    environment receives the very same calls with the caller's actions, and
    the replies handed to the caller are the wrapped environment's own. *)
Theorem recorder_is_passthrough (cs : list call) r r' (replies : list reply) :
  run cs r = Ok (r', replies) →
  run_venv cs (venv r) = (venv r', replies).
Proof.
  revert r r' replies. induction cs as [|c cs IH]; simpl; intros r r' replies Hrun.
  - by injection Hrun as <- <-.
  - destruct c as [|acts|].
    + pose proof (reset_passthrough r) as Hreset.
      destruct (reset r) as [r1 o]. simpl in Hreset. rewrite Hreset.
      inv_ok. destruct a as [r2 rs]. injection Hrun as <- <-.
      by rewrite (IH _ _ _ Ha).
    + inv_ok. destruct a as [r2 rs]. injection Hrun as <- <-.
      apply IH in Ha. destruct (step_async_forwards r acts) as [Hv _].
      rewrite Hv in Ha. by rewrite Ha.
    + inv_ok. destruct a as [r1 out]. destruct a0 as [r2 rs].
      injection Hrun as <- <-.
      apply step_wait_passthrough in Ha. rewrite Ha.
      by rewrite (IH _ _ _ Ha0).
Qed.


(** *** What a timestep appends to a lane's accumulator *)

Lemma for_items_append (g : option (list (list value)) → result value)
    (env_data : gmap string (option (list (list value)))) acc acc' :
  for_items (λ key val acc, x ← g val; Ok (dd_append key x acc)) env_data acc = Ok acc' →
  ∀ k, match env_data !! k with
       | Some val => ∃ x, g val = Ok x ∧ acc' !! k = Some (default [] (acc !! k) ++ [x])
       | None => acc' !! k = acc !! k
       end.
Proof.
  unfold for_items. revert acc'.
  apply (map_fold_weak_ind (λ res m, ∀ acc', res = Ok acc' → ∀ k,
    match m !! k with
    | Some val => ∃ x, g val = Ok x ∧ acc' !! k = Some (default [] (acc !! k) ++ [x])
    | None => acc' !! k = acc !! k
    end)).
  - intros acc' [= <-] k. by rewrite lookup_empty.
  - intros i val m res Hi IH acc' Hres k. inv_ok. subst acc'.
    specialize (IH _ Ha k). rewrite lookup_dd_append, lookup_insert.
    case_decide as Hik.
    + subst k. rewrite Hi in IH. exists a0. by rewrite IH.
    + done.
Qed.

Lemma for_items_total (g : option (list (list value)) → result value)
    (env_data : gmap string (option (list (list value)))) acc :
  (∀ k val, env_data !! k = Some val → is_Ok (g val)) →
  is_Ok (for_items (λ key val acc, x ← g val; Ok (dd_append key x acc)) env_data acc).
Proof.
  unfold for_items.
  apply (map_fold_weak_ind (λ res m,
    (∀ k val, m !! k = Some val → is_Ok (g val)) → is_Ok res)).
  - intros _. by eexists.
  - intros i val m res Hi IH Hg.
    destruct IH as [acc1 ->].
    { intros k v Hk. apply (Hg k). rewrite lookup_insert_ne; [done|congruence]. }
    destruct (Hg i val) as [x Hx]; [by rewrite lookup_insert_eq|].
    simpl. rewrite Hx. by eexists.
Qed.

(** With no key filter and an info dict without a key named [rewards],
    the accumulator gains exactly this lane's reward of the timestep. *)
Lemma accumulate_lane_rewards r po acts rewards infos d e acc w agent_idx
    (old : gmap string (list value)) info_dict :
  info_keys r = None →
  accumulate_lane r {[ "observations" := po; "actions" := acts;
                       "rewards" := Some rewards ]} infos d e = Ok (acc, w) →
  agent_indices r !! d = Some agent_idx →
  traj_dicts r !! d ≫= (.!! e) = Some old →
  infos !! e ≫= (.!! agent_idx) = Some info_dict →
  info_dict !! "rewards" = None →
  ∃ x, rewards !! agent_idx ≫= (.!! e) = Some x ∧
       acc !! "rewards" = Some (default [] (old !! "rewards") ++ [x]).
Proof.
  unfold accumulate_lane. intros Hkeys Hrun Hidx Hold Hinfo Hnokey.
  rewrite Hkeys in Hrun. inv_ok.
  rewrite Hidx in Ha0. injection Ha0 as <-.
  rewrite Ha in Hold. simpl in Hold. rewrite Ha1 in Hold. injection Hold as <-.
  rewrite Ha3 in Hinfo. simpl in Hinfo. rewrite Ha4 in Hinfo. injection Hinfo as <-.
  simpl in Ha5. destruct a5 as [info' w']. injection Ha5 as <- <-.
  injection Hrun as <- <-.
  pose proof (for_items_append _ _ _ _ Ha2 "rewards") as Hrew.
  rewrite lookup_insert_ne, lookup_insert_ne, lookup_singleton_eq in Hrew by done.
  destruct Hrew as (x & Hx & Hacc). exists x. split.
  - unfold index2 in Hx. simpl in Hx. inv_ok. rewrite Ha0. simpl. by rewrite Hx.
  - revert Hnokey.
    apply (map_fold_weak_ind (λ res m, m !! "rewards" = None →
      res !! "rewards" = Some (default [] (a1 !! "rewards") ++ [x]))).
    + done.
    + intros i v m res Hi IH Hm. rewrite lookup_dd_append.
      case_decide as Hik; [subst i; by rewrite lookup_insert_eq in Hm|].
      apply IH. by rewrite lookup_insert_ne in Hm.
Qed.

(** *** Recording succeeds on well-shaped data *)

Lemma record_lane_total r po acts rewards dones infos d e :
  shape_ok r → data_ok r po acts rewards dones infos →
  d < length (traj_dicts r) → e < num_envs r →
  ∃ r', record_lane r {[ "observations" := po; "actions" := acts;
                         "rewards" := Some rewards ]} dones infos d e = Ok r' ∧
        shape_ok r' ∧ length (traj_dicts r') = length (traj_dicts r).
Proof.
  intros (Hek & Hik & Hlen & Hflen & Hinner) Hdata Hd He.
  destruct (lookup_lt_is_Some_2 (traj_dicts r) d Hd) as [ad Had].
  destruct (lookup_lt_is_Some_2 (agent_indices r) d) as [ai Hai]; [lia|].
  destruct (lookup_lt_is_Some_2 (full_traj_dicts r) d) as [store Hstore]; [lia|].
  assert (num_envs r ≤ length ad) as Hadlen.
  { rewrite Forall_forall in Hinner. apply Hinner. by eapply list_elem_of_lookup_2. }
  destruct (lookup_lt_is_Some_2 ad e) as [acc0 Hacc0]; [lia|].
  destruct (Hdata ai e) as (Hpo & Hacts & Hrew & [info Hinfo] & [dn Hdn]);
    [by eapply list_elem_of_lookup_2|done|].
  destruct (infos !! e) as [info_env|] eqn:Hie; [simpl in Hinfo|done].
  destruct (for_items_total (λ val, index2 val ai e)
              {[ "observations" := po; "actions" := acts; "rewards" := Some rewards ]}
              acc0) as [acc1 Hacc1].
  { intros k val Hk.
    apply lookup_insert_Some in Hk as [[_ <-]|[_ Hk]]; [done|].
    apply lookup_insert_Some in Hk as [[_ <-]|[_ Hk]]; [done|].
    apply lookup_singleton_Some in Hk as [_ <-]. done. }
  unfold record_lane, accumulate_lane, getitem, getkey.
  rewrite Had, Hai. simpl. rewrite Hacc0. simpl. rewrite Hacc1. simpl.
  rewrite Hie. simpl. rewrite Hinfo, Hik. simpl.
  rewrite Hdn. simpl.
  assert (e < length ad) as He' by lia.
  assert (d < length (full_traj_dicts r)) as Hd' by lia.
  destruct dn; rewrite ?Hstore; simpl.
  - rewrite setitem_lt by done. simpl.
    rewrite setitem_lt by done. simpl.
    rewrite setitem_lt by done. simpl.
    eexists. split; [reflexivity|]. simpl. split; [|by rewrite length_insert].
    unfold shape_ok. simpl. rewrite !length_insert.
    repeat (split; [assumption|]).
    apply Forall_insert; [assumption|]. rewrite length_insert. lia.
  - rewrite setitem_lt by done. simpl.
    rewrite setitem_lt by done. simpl.
    eexists. split; [reflexivity|]. simpl. split; [|by rewrite length_insert].
    unfold shape_ok. simpl. rewrite !length_insert.
    repeat (split; [assumption|]).
    apply Forall_insert; [assumption|]. rewrite length_insert. lia.
Qed.

Lemma elem_of_iter_space r d e :
  (d, e) ∈ iter_space r → d < length (traj_dicts r) ∧ e < num_envs r.
Proof.
  unfold iter_space. intros Hin.
  apply list_elem_of_bind in Hin as (d' & Hin & Hd'%elem_of_seq).
  apply list_elem_of_bind in Hin as (e' & Hin & He'%elem_of_seq).
  apply list_elem_of_singleton in Hin. injection Hin as -> ->. lia.
Qed.

Lemma record_timestep_data_total r po acts rewards dones infos :
  shape_ok r → data_ok r po acts rewards dones infos →
  ∃ r', record_timestep_data r po acts rewards dones infos = Ok r' ∧ shape_ok r'.
Proof.
  intros Hshape Hdata. unfold record_timestep_data.
  destruct Hshape as (Hek & Hshape). rewrite Hek. simpl.
  set (r0 := with_traj r (traj_dicts r) (full_traj_dicts r) []).
  destruct (for_each_total
    (λ s, shape_ok s ∧ same_config r0 s ∧
          length (traj_dicts s) = length (traj_dicts r0))
    (λ s '(d, e), record_lane s {[ "observations" := po; "actions" := acts;
                                   "rewards" := Some rewards ]} dones infos d e)
    (iter_space r0) r0) as (r' & Hrun & Hr' & _).
  - intros s [d e] [Hd He]%elem_of_iter_space (Hs & Hcfg & Hlen).
    destruct (record_lane_total s po acts rewards dones infos d e)
      as (s' & Hs' & Hshape' & Hlen'); try done.
    + intros ai e' Hai He'. destruct Hcfg as (_ & _ & Hn & Hidx & _).
      rewrite Hidx in Hai. rewrite Hn in He'. by apply Hdata.
    + lia.
    + destruct Hcfg as (_ & _ & Hn & _). by rewrite Hn.
    + exists s'. split; [done|]. split_and!; [done| |lia].
      eapply same_config_trans; [done|]. by eapply record_lane_same_config.
  - split_and!; [by split|apply same_config_refl|done].
  - by exists r'.
Qed.

(** A [step_wait] of the recorder returns whenever the recorder was built
    without key filters and the wrapped environment's data has an entry
    for every recorded agent and lane. *)
Lemma step_wait_total r po acts :
  shape_ok r → prev_obs r = po → actions r = acts →
  (∀ e o rw dn inf, venv_step_wait (venv r) = (e, (o, rw, dn, inf)) →
                    data_ok r po acts rw dn inf) →
  ∃ r', step_wait r = Ok (r', (venv_step_wait (venv r)).2).
Proof.
  intros Hshape <- <- Hdata. unfold step_wait.
  destruct (venv_step_wait (venv r)) as [e [[[o rw] dn] inf]] eqn:Hstep.
  destruct (record_timestep_data_total (with_venv r e) (prev_obs r) (actions r)
              rw dn inf) as (r' & Hrun & _); [done|by eapply Hdata|].
  simpl in *. rewrite Hrun. simpl. by eexists.
Qed.

(** C7. When the done flag of a lane is observed, every field accumulated
    for the lane is consolidated into one array and appended to the
    agent's store, the episode return appended to the store is the sum of
    the rewards accumulated for the lane, and the lane's accumulator is
    empty again. *)
Theorem episode_end_consolidates r env_data dones infos d e r' :
  record_lane r env_data dones infos d e = Ok r' →
  dones !! e = Some true →
  ∃ acc w store store',
    accumulate_lane r env_data infos d e = Ok (acc, w) ∧
    full_traj_dicts r !! d = Some store ∧
    full_traj_dicts r' !! d = Some store' ∧
    (∀ key vs, key ≠ "episode_returns" → acc !! key = Some vs →
       store' !! key = Some (default [] (store !! key) ++ [np_array vs])) ∧
    store' !! "episode_returns" =
      Some ((default [] (store !! "episode_returns")
             ++ [np_array [py_sum (default [] (acc !! "rewards"))]])
            ++ match acc !! "episode_returns" with
               | Some vs => [np_array vs]
               | None => []
               end) ∧
    traj_dicts r' !! d ≫= (.!! e) = Some ∅.
Proof.
  unfold record_lane. intros Hrun Hdone.
  apply bind_Ok in Hrun as ([acc w] & Hacc & Hrun).
  apply bind_Ok in Hrun as (ad & Had%getitem_Ok & Hrun).
  apply bind_Ok in Hrun as (dn & Hdn%getitem_Ok & Hrun).
  rewrite Hdone in Hdn. injection Hdn as <-.
  apply bind_Ok in Hrun as (store & Hstore%getitem_Ok & Hrun).
  apply bind_Ok in Hrun as (ad' & [He ->]%setitem_Ok & Hrun).
  apply bind_Ok in Hrun as (td & [Hd ->]%setitem_Ok & Hrun).
  apply bind_Ok in Hrun as (ft & [Hd' ->]%setitem_Ok & Hrun).
  injection Hrun as <-. simpl.
  exists acc, w, store, (consolidate_episode acc store). split_and!; try done.
  - by rewrite list_lookup_insert_eq.
  - intros key vs Hkey Hk. by apply consolidate_episode_field.
  - apply consolidate_episode_return.
  - rewrite list_lookup_insert_eq by done. simpl.
    by rewrite list_lookup_insert_eq.
Qed.
End recorder.

(** C7, on the demonstration run: the third step ends the episode whose
    rewards were 1, 2 and 3; the return recorded is 6. *)
Lemma episode_end_consolidates_witness :
  ∃ r' store',
    record_lane Demo.recorder_at_end Demo.env_data_at_end [true] [{[ 0 := ∅ ]}] 0 0
      = Ok r' ∧
    [true] !! 0 = Some true ∧
    full_traj_dicts r' !! 0 = Some store' ∧
    store' !! "rewards" = Some [Demo.ZA [Demo.ZS 1; Demo.ZS 2; Demo.ZS 3]] ∧
    store' !! "episode_returns" = Some [Demo.ZA [Demo.ZS 6]] ∧
    traj_dicts r' !! 0 ≫= (.!! 0) = Some ∅.
Proof.
  assert (∃ r', record_lane Demo.recorder_at_end Demo.env_data_at_end
                  [true] [{[ 0 := ∅ ]}] 0 0 = Ok r') as [r' Hrun].
  { eexists. vm_compute. reflexivity. }
  destruct (episode_end_consolidates _ _ _ _ _ _ _ Hrun eq_refl)
    as (acc & w & store & store' & Hacc & Hstore & Hstore' & Hfields & Hret & Hempty).
  exists r', store'.
  vm_compute in Hacc. injection Hacc as <- <-.
  vm_compute in Hstore. injection Hstore as <-.
  split; [exact Hrun|]. split; [reflexivity|]. split; [exact Hstore'|].
  split; [|split; [|exact Hempty]].
  - apply (Hfields "rewards" [Demo.ZS 1; Demo.ZS 2; Demo.ZS 3]).
    + discriminate.
    + vm_compute. reflexivity.
  - rewrite Hret. vm_compute. reflexivity.
Defined.

(** The same episode through the public calls: after reset and three
    [step_async]/[step_wait] cycles the store holds one episode. *)
Example three_step_episode_recorded :
  ∃ r' replies,
    run Demo.three_steps Demo.recorder0 = Ok (r', replies) ∧
    full_traj_dicts r' =
      [ {[ "observations" := [Demo.ZA [Demo.ZS 0; Demo.ZS 1; Demo.ZS 2]];
           "actions" := [Demo.ZA [Demo.ZS 7; Demo.ZS 8; Demo.ZS 9]];
           "rewards" := [Demo.ZA [Demo.ZS 1; Demo.ZS 2; Demo.ZS 3]];
           "episode_returns" := [Demo.ZA [Demo.ZS 6]] ]} ] ∧
    traj_dicts r' = [[∅]].
Proof.
  eexists _, _. split; [vm_compute; reflexivity|].
  split; vm_compute; reflexivity.
Qed.

(** C6 seen from the recorder: a recorder built with requested info keys
    cannot record a single timestep. *)
Example recorder_with_info_keys_raises :
  step_wait (TrajectoryRecorder.mk 1 1 1 [0] None (Some ["ff"]) [[∅]] [∅]
               (Some [[Demo.ZS 0]]) (Some [[Demo.ZS 7]]) [])
  = Raise (AttributeError "set" "intersect").
Proof. vm_compute. reflexivity. Qed.

(** C8, on the demonstration run. *)
Lemma recorder_is_passthrough_witness :
  ∃ r' replies,
    run Demo.three_steps Demo.recorder0 = Ok (r', replies) ∧
    run_venv Demo.three_steps (venv Demo.recorder0) = (venv r', replies).
Proof.
  eexists _, _. split; [vm_compute; reflexivity|].
  apply (recorder_is_passthrough Demo.three_steps Demo.recorder0).
  vm_compute. reflexivity.
Defined.
End TrajectoryRecorderSpec.

(** ** train.py: [EmbedVictimWrapper] *)

Module EmbedVictimWrapperSpec.
Import EmbedVictimWrapper.
Section embed.
Context {Sess W : Type} `{!Closeable Sess W}.

(** C9. Closing the wrapper closes the victim's session and then the
    wrapped environment pipeline. *)
Theorem close_closes_victim_and_pipeline (w : t Sess W) (s : Sess) :
  victim_sess w = Some s →
  close w = Ok (mk (Some (sess_close s)) (super_close (venv w))).
Proof. intros Hs. unfold close. by rewrite Hs. Qed.

(** A victim without a session ([sess = None]) makes [close] raise before
    the pipeline is reached. *)
Lemma close_without_session (w : t Sess W) :
  victim_sess w = None → close w = Raise (AttributeError "NoneType" "close").
Proof. intros Hs. unfold close. by rewrite Hs. Qed.
End embed.

(** C9, on flags: both the session and the pipeline end up closed. *)
Lemma close_closes_victim_and_pipeline_witness :
  victim_sess (mk (Some true) true) = Some true ∧
  close (mk (Some true) true) = Ok (mk (Some false) false).
Proof.
  split; [reflexivity|].
  exact (close_closes_victim_and_pipeline (mk (Some true) true) true eq_refl).
Defined.
End EmbedVictimWrapperSpec.

(** ** lookback.py: [LookbackRewardVecWrapper] *)

Lemma Forall2_map_eq {X Y Z} (f : X → Z) (g : Y → Z) xs ys :
  Forall2 (λ x y, g y = f x) xs ys → map g ys = map f xs.
Proof. induction 1; simpl; congruence. Qed.

Lemma cycle_Permutation {A} (l l' : list A) : cycle l = Ok l' → l' ≡ₚ l.
Proof.
  unfold cycle, get_last. destruct (last l) as [x|] eqn:Hlast; simpl; [|discriminate].
  intros [= <-]. apply last_Some in Hlast as [l0 ->].
  rewrite length_app. simpl. replace (length l0 + 1 - 1) with (length l0) by lia.
  rewrite take_app_length. apply Permutation_cons_append.
Qed.

Lemma cycle_total {A} (l : list A) : l ≠ [] → is_Ok (cycle l).
Proof.
  intros Hl. unfold cycle, get_last.
  destruct (last l) as [x|] eqn:Hlast; simpl; [by eexists|].
  by apply last_None in Hlast.
Qed.

Module LookbackSpec.
Import LookbackRewardVecWrapper.
Section lookback.
Context `{D : Domain} {P L V : Type}.
Context `{!Numeric D, !Policy P, !LiveEnv L, !ShadowEnv V}.
Implicit Types (s : t P L V) (lb : LookbackTuple V).

(** *** Construction *)

(** C5. Without transparent parameters the constructor raises the
    [ValueError] that guards the class, before a policy is loaded or a
    slot is built; the only thing evaluated earlier is the lookup of
    ['num_lb'] in the lookback parameters. *)
Theorem init_without_transparent_params_raises (venv0 : L) params env_name
    use_dummy victim_idx victim_path victim_type lb_space :
  __init__ (V := V) (P := P) venv0 params env_name use_dummy victim_idx
           victim_path victim_type None lb_space =
    match lp_num_lb params with
    | Some _ => Raise (ValueError
        "LookbackRewardVecWrapper assumes transparent policies and venvs.")
    | None => Raise KeyError
    end.
Proof. unfold __init__. by destruct (lp_num_lb params). Qed.

Lemma create_lb_dicts_ids n k args lbs :
  _create_lb_dicts (V := V) n k args = Ok lbs → map slot_id lbs = seq 0 k.
Proof.
  unfold _create_lb_dicts.
  assert (∀ i (acc : list (LookbackTuple V)),
            for_each
              (λ lb_dicts slot,
                 _ ← make_vec_env (V := V) (sa_use_dummy args)
                        (replicate n (λ _, env_fn (n - 1)));
                 _ ← check_keywords EmbedVictimWrapper_params
                        ["multi_env"; "victim"; "victim_index"; "transparent_params"];
                 Ok (lb_dicts ++ [mk_tuple slot (shadow_make args)
                                    (mk_data None None (replicate n zero) ∅)]))
              (seq i k) acc = Ok lbs →
            map slot_id lbs = map slot_id acc ++ seq i k) as Hgen.
  { induction k as [|k IH]; simpl; intros i acc Hrun.
    - injection Hrun as <-. by rewrite app_nil_r.
    - apply bind_Ok in Hrun as (acc1 & Hbody & Hrun).
      apply bind_Ok in Hbody as (? & _ & Hbody).
      simpl in Hbody. discriminate Hbody. }
  intros Hrun. by apply Hgen in Hrun.
Qed.

Lemma init_pool (venv0 : L) params env_name use_dummy victim_idx victim_path
    victim_type transparent lb_space s :
  __init__ venv0 params env_name use_dummy victim_idx victim_path victim_type
           transparent lb_space = Ok s →
  lp_num_lb params = Some (lookback_num s) ∧
  slot_ids s = seq 0 (lookback_num s) ∧
  length (debug_files s) = lookback_num s + 1.
Proof.
  unfold __init__. intros Hinit.
  apply bind_Ok in Hinit as (k & Hk%getfield_Ok & Hinit).
  apply bind_Ok in Hinit as (tp & _ & Hinit).
  apply bind_Ok in Hinit as (ty & _ & Hinit).
  apply bind_Ok in Hinit as (path & _ & Hinit).
  apply bind_Ok in Hinit as (lbs & Hlbs & Hinit).
  apply bind_Ok in Hinit as (f0 & _ & Hinit).
  injection Hinit as <-. unfold slot_ids. simpl.
  split; [done|]. split; [by eapply create_lb_dicts_ids|apply length_seq].
Qed.

(** *** The ring keeps its slots *)

Lemma reset_slot_id s env_idx action state cobs states fulls radii lb lb' :
  reset_slot s env_idx action state cobs states fulls radii lb = Ok lb' →
  slot_id lb' = slot_id lb.
Proof.
  unfold reset_slot. intros Hrun.
  apply bind_Ok in Hrun as ([v d] & _ & Hrun).
  apply bind_Ok in Hrun as (v' & _ & Hrun). by injection Hrun as <-.
Qed.

Lemma reset_state_data_slot_ids s o env_idx s' :
  _reset_state_data s o env_idx = Ok s' → slot_ids s' = slot_ids s.
Proof.
  unfold _reset_state_data. intros Hrun.
  destruct (predict _ _ _ _) as [pol [action state]].
  apply bind_Ok in Hrun as (lbs & Hlbs & Hrun). injection Hrun as <-.
  unfold slot_ids. simpl. apply Forall2_map_eq.
  eapply map_enumerate_Forall2; [|exact Hlbs].
  intros i lb lb' _ Hlb. eapply reset_slot_id. exact Hlb.
Qed.

Lemma process_own_obs_lb_dicts s o : lb_dicts (_process_own_obs s o) = lb_dicts s.
Proof. unfold _process_own_obs. by destruct (predict _ _ _ _) as [pol [a r]]. Qed.

Lemma process_lb_data_slot_ids s lb_data s' :
  _process_lb_data s lb_data = Ok s' → slot_ids s' = slot_ids s.
Proof.
  unfold _process_lb_data.
  apply (for_each_invariant (λ s', slot_ids s' = slot_ids s)); [|done].
  intros s1 [idx [[[lb_obs lb_reward] lb_dones] lb_info]] s2 _ Hs1 Hbody.
  apply bind_Ok in Hbody as (lb & Hlb%getitem_Ok & Hbody).
  destruct (predict _ _ _ _) as [pol [a r]].
  apply bind_Ok in Hbody as (info & _ & Hbody).
  apply bind_Ok in Hbody as (lbs & [Hidx ->]%setitem_Ok & Hbody).
  injection Hbody as <-. rewrite <- Hs1. unfold slot_ids. simpl.
  rewrite list_fmap_insert. simpl. apply list_insert_id.
  by rewrite list_lookup_fmap, Hlb.
Qed.

Lemma step_async_slot_ids s actions s' :
  step_async s actions = Ok s' →
  ∃ l, cycle (lb_dicts s) = Ok l ∧ slot_ids s' = map slot_id l.
Proof.
  unfold step_async. intros Hrun.
  apply bind_Ok in Hrun as (lbs & Hcycle & Hrun). exists lbs. split; [done|].
  apply bind_Ok in Hrun as (nb & Hnb%getitem_Ok & Hrun).
  apply bind_Ok in Hrun as (v & _ & Hrun).
  apply bind_Ok in Hrun as (rest & Hrest & Hrun).
  destruct (predict _ _ _ _) as [pol [lb_action new_lb_state]].
  apply bind_Ok in Hrun as (f1 & _ & Hrun). injection Hrun as <-.
  unfold slot_ids. simpl.
  destruct lbs as [|nb0 tl]; [done|]. injection Hnb as ->. simpl in *.
  rewrite drop_0 in Hrest. f_equal. apply Forall2_map_eq.
  eapply map_enumerate_Forall2; [|exact Hrest].
  intros i lb lb' _ Hlb.
  apply bind_Ok in Hlb as (f & _ & Hlb). by injection Hlb as <-.
Qed.

(** *** What the lane loop leaves alone *)

Lemma frame_refl s : frame s s.
Proof. by repeat split. Qed.

Lemma frame_trans s1 s2 s3 : frame s1 s2 → frame s2 s3 → frame s1 s3.
Proof. unfold frame. intros ? ?. intuition congruence. Qed.

Lemma bonus_terms_frame s s' e vi ep_len dists :
  frame s s' → bonus_terms s e vi ep_len dists ↔ bonus_terms s' e vi ep_len dists.
Proof.
  intros (_ & Htp & Hvi & _ & _ & _ & _ & _ & Hinfos).
  unfold bonus_terms. by rewrite Htp, Hvi, Hinfos.
Qed.

Lemma reset_slot_lane_info s e action state cobs states fulls radii lb lb' :
  reset_slot s (Some e) action state cobs states fulls radii lb = Ok lb' →
  d_info (data lb') = d_info (data lb).
Proof.
  unfold reset_slot. intros Hrun.
  apply bind_Ok in Hrun as ([v d] & Hd & Hrun).
  apply bind_Ok in Hrun as (v' & _ & Hrun). injection Hrun as <-. simpl.
  apply bind_Ok in Hd as (a & _ & Hd).
  apply bind_Ok in Hd as (old_action & _ & Hd).
  apply bind_Ok in Hd as (new_action & _ & Hd).
  apply bind_Ok in Hd as (new_state & _ & Hd).
  apply bind_Ok in Hd as (r & _ & Hd).
  apply bind_Ok in Hd as (new_reward & _ & Hd).
  by injection Hd as _ <-.
Qed.

Lemma reset_state_data_lane_frame s o e s' :
  _reset_state_data s o (Some e) = Ok s' → frame s s' ∧ stdout s' = stdout s.
Proof.
  intros Hrun. pose proof (reset_state_data_slot_ids _ _ _ _ Hrun) as Hids.
  unfold _reset_state_data in Hrun.
  destruct (predict _ _ _ _) as [pol [action state]].
  apply bind_Ok in Hrun as (lbs & Hlbs & Hrun). injection Hrun as <-.
  split; [|done]. unfold frame. simpl. split_and!; try done.
  unfold cached_infos. simpl.
  apply (Forall2_map_eq (λ lb, d_info (data lb)) (λ lb, d_info (data lb))).
  eapply map_enumerate_Forall2; [|exact Hlbs].
  intros i lb lb' _ Hlb. eapply reset_slot_lane_info. exact Hlb.
Qed.

(** *** The bonus of one lane *)

Lemma diff_loop_terms s e vi ep_len valid : ∀ i x0 pr0 x pr,
  for_each (diff_step s e vi ep_len) (zip (seq i (length valid)) valid) (x0, pr0)
    = Ok (x, pr) →
  ∃ dists,
    x = foldl add x0 dists ∧
    pr = pr0 ++ zip_with (λ j d, (d, j, ep_len)) (seq i (length dists)) dists ∧
    if decide ("ff" ∈ transparent_params s) then
      Forall2 (λ lb d, slot_distance (victim_index s) e vi (d_info (data lb)) = Ok d)
              valid dists
    else dists = [].
Proof.
  induction valid as [|lb valid IH]; simpl; intros i x0 pr0 x pr Hrun.
  - injection Hrun as <- <-. exists []. simpl. rewrite app_nil_r.
    split_and!; [done..|]. by case_decide.
  - apply bind_Ok in Hrun as ([x1 pr1] & Hstep & Hrun).
    apply IH in Hrun as (dists & -> & -> & Hterms).
    unfold diff_step in Hstep.
    apply bind_Ok in Hstep as (lbvi & Hlbvi & Hstep).
    apply bind_Ok in Hstep as (acc & Hacc & Hstep).
    apply bind_Ok in Hstep as (diff_obs & _ & Hstep). injection Hstep as ->.
    destruct (decide ("ff" ∈ transparent_params s)) as [Hff|Hff].
    + apply bind_Ok in Hacc as (a & Ha & Hacc).
      apply bind_Ok in Hacc as (b & Hb & Hacc). injection Hacc as <- <-.
      exists (norm (vsub a b) :: dists). simpl. split_and!; [done| |].
      * by rewrite <- app_assoc.
      * constructor; [|done]. unfold slot_distance.
        rewrite Hlbvi. simpl. rewrite Ha. simpl. by rewrite Hb.
    + injection Hacc as <- <-. subst dists. exists []. simpl.
      by rewrite app_nil_r.
Qed.

Lemma bonus_terms_length s e vi ep_len dists :
  bonus_terms s e vi ep_len dists → length dists ≤ ep_len.
Proof.
  unfold bonus_terms. case_decide.
  - intros Hterms%Forall2_length. rewrite <- Hterms, length_take. lia.
  - intros ->. simpl. lia.
Qed.

Lemma printed_lines_bound ep_len dists :
  length dists ≤ ep_len →
  Forall (λ line, line.1.2 < line.2) (printed_lines ep_len dists).
Proof.
  intros Hlen. unfold printed_lines. apply Forall_forall. intros line Hin.
  apply elem_of_lookup_zip_with in Hin as (k & j & d & -> & Hj & Hd). simpl.
  apply lookup_seq in Hj as [-> Hk]. lia.
Qed.

Lemma lane_diff_reward_terms s e vi ep_len x pr :
  ep_lens s !! e = Some ep_len →
  lane_diff_reward s e vi (take ep_len (lb_dicts s)) = Ok (x, pr) →
  ∃ dists, bonus_terms s e vi ep_len dists ∧
           x = foldl add zero dists ∧ pr = printed_lines ep_len dists.
Proof.
  intros Hlen. unfold lane_diff_reward, getitem. rewrite Hlen. simpl.
  intros (dists & -> & -> & Hterms)%diff_loop_terms.
  exists dists. split_and!; [|done..].
  unfold bonus_terms, cached_infos. case_decide; [|done].
  rewrite <- fmap_take. by apply Forall2_fmap_l.
Qed.

(** One iteration of the loop over the lanes. *)
Lemma step_wait_lane_spec o (infos : list (gmap nat agent_info)) s rw e s' rw' :
  step_wait_lane o infos (s, rw) e = Ok (s', rw') →
  frame s s' ∧
  ∃ r0 ep_len vi dists,
    rw !! e = Some r0 ∧ e < length rw ∧
    is_Some (_dones s !! e) ∧
    ep_lens s !! e = Some ep_len ∧
    infos !! e ≫= (.!! victim_index s) = Some vi ∧
    bonus_terms s e vi ep_len dists ∧
    rw' = <[e := add r0 (mul coef (foldl add zero dists))]> rw ∧
    stdout s' = stdout s ++ printed_lines ep_len dists.
Proof.
  unfold step_wait_lane. intros Hrun.
  apply bind_Ok in Hrun as (dn & Hdn%getitem_Ok & Hrun).
  apply bind_Ok in Hrun as (s1 & Hs1 & Hrun).
  assert (frame s s1 ∧ stdout s1 = stdout s) as [Hframe Hout].
  { destruct dn.
    - by apply reset_state_data_lane_frame in Hs1.
    - injection Hs1 as <-. split; [apply frame_refl|done]. }
  apply bind_Ok in Hrun as (ep_len & Hlen%getitem_Ok & Hrun).
  apply bind_Ok in Hrun as (info_e & Hinfo%getitem_Ok & Hrun).
  apply bind_Ok in Hrun as (vi & Hvi%getkey_Ok & Hrun).
  apply bind_Ok in Hrun as ([x pr] & Hdiff & Hrun).
  apply bind_Ok in Hrun as (r0 & Hr0%getitem_Ok & Hrun).
  apply bind_Ok in Hrun as (rw1 & [Hlt ->]%setitem_Ok & Hrun).
  injection Hrun as <- <-.
  apply lane_diff_reward_terms in Hdiff as (dists & Hterms & -> & ->); [|done].
  pose proof Hframe as (Hn & Htp & Hvidx & Hep & Hdones & Hst & Hv & Hids & Hinfos).
  split; [by repeat split|].
  exists r0, ep_len, vi, dists.
  split; [done|]. split; [done|]. split; [by eexists|].
  split; [by rewrite <- Hep|].
  split; [rewrite Hinfo; simpl; by rewrite <- Hvidx|].
  split; [by apply (bonus_terms_frame s s1)|].
  split; [done|]. by rewrite Hout.
Qed.

(** The whole loop over the lanes. *)
Lemma lanes_loop_spec o (infos : list (gmap nat agent_info)) es : ∀ s rw s' rw',
  NoDup es →
  for_each (step_wait_lane o infos) es (s, rw) = Ok (s', rw') →
  frame s s' ∧
  (∀ e, e ∉ es → rw' !! e = rw !! e) ∧
  (∀ e, e ∈ es →
     ∃ r0 ep_len vi dists,
       rw !! e = Some r0 ∧ is_Some (_dones s !! e) ∧
       ep_lens s !! e = Some ep_len ∧
       infos !! e ≫= (.!! victim_index s) = Some vi ∧
       bonus_terms s e vi ep_len dists ∧
       rw' !! e = Some (add r0 (mul coef (foldl add zero dists)))) ∧
  ∃ printed, stdout s' = stdout s ++ printed ∧
             Forall (λ line, line.1.2 < line.2) printed.
Proof.
  induction es as [|e es IH]; simpl; intros s rw s' rw' Hnodup Hrun.
  - injection Hrun as <- <-. split_and!.
    + apply frame_refl.
    + done.
    + intros e He. by apply elem_of_nil in He.
    + exists []. by rewrite app_nil_r.
  - apply NoDup_cons in Hnodup as [He Hnodup].
    apply bind_Ok in Hrun as ([s1 rw1] & Hstep & Hrun).
    apply step_wait_lane_spec in Hstep
      as (Hframe & r0 & ep_len & vi & dists & Hr0 & Hlt & Hdn & Hlen & Hvi & Hterms & -> & Hout).
    apply IH in Hrun as (Hframe' & Hother & Hlanes & printed & Hout' & Hbound);
      [|done].
    pose proof Hframe as (Hn & Htp & Hvidx & Hep & Hdones & Hst & Hv & Hids & Hinfos).
    split_and!.
    + by eapply frame_trans.
    + intros e' He'. apply not_elem_of_cons in He' as [Hne He'].
      rewrite Hother by done. by apply list_lookup_insert_ne.
    + intros e' [->|He']%elem_of_cons.
      * exists r0, ep_len, vi, dists.
        repeat (split; [done|]).
        rewrite Hother by done. by apply list_lookup_insert_eq.
      * destruct (Hlanes e' He')
          as (r0' & ep_len' & vi' & dists' & H1 & H1' & H2 & H3 & H4 & H5).
        exists r0', ep_len', vi', dists'.
        split; [rewrite list_lookup_insert_ne in H1; [done|]; by intros ->|].
        split; [by rewrite <- Hdones|].
        split; [by rewrite <- Hep|].
        split; [by rewrite <- Hvidx|].
        split; [by apply (bonus_terms_frame s s1)|done].
    + exists (printed_lines ep_len dists ++ printed). split.
      * by rewrite Hout', Hout, app_assoc.
      * apply Forall_app. split; [|done].
        apply printed_lines_bound. by eapply bonus_terms_length.
Qed.

(** *** The first half of [step_wait] *)

Lemma process_own_obs_fields s o :
  same_setup s (_process_own_obs s o) ∧
  ep_lens (_process_own_obs s o) = ep_lens s ∧
  _dones (_process_own_obs s o) = _dones s ∧
  venv (_process_own_obs s o) = venv s.
Proof. unfold _process_own_obs. by destruct (predict _ _ _ _) as [pol [a r]]. Qed.

Lemma process_lb_data_fields s lb_data s' :
  _process_lb_data s lb_data = Ok s' →
  same_setup s s' ∧ ep_lens s' = ep_lens s ∧ _dones s' = _dones s ∧
  venv s' = venv s ∧ _state s' = _state s.
Proof.
  unfold _process_lb_data.
  apply (for_each_invariant (λ s',
    same_setup s s' ∧ ep_lens s' = ep_lens s ∧ _dones s' = _dones s ∧
    venv s' = venv s ∧ _state s' = _state s)); [|by repeat split].
  intros s1 [idx [[[lb_obs lb_reward] lb_dones] lb_info]] s2 _ Hs1 Hbody.
  apply bind_Ok in Hbody as (lb & _ & Hbody).
  destruct (predict _ _ _ _) as [pol [a r]].
  apply bind_Ok in Hbody as (info & _ & Hbody).
  apply bind_Ok in Hbody as (lbs & _ & Hbody).
  by injection Hbody as <-.
Qed.

Lemma stepped_slot_ids (lbs : list (LookbackTuple V)) :
  map slot_id
    (map fst (map (λ lb_dict, let '(v, out) := shadow_step_wait (lt_venv lb_dict) in
                              (set_venv lb_dict v, out)) lbs))
  = map slot_id lbs.
Proof.
  rewrite !map_map. apply map_ext. intros lb.
  by destruct (shadow_step_wait (lt_venv lb)).
Qed.

Lemma mul_not_dones_lookup ep dn ep' e (d : bool) :
  mul_not_dones ep dn = Ok ep' → dn !! e = Some d →
  ep' !! e = (λ n, if d then 0 else n) <$> ep !! e.
Proof.
  unfold mul_not_dones. intros Hmul Hd. case_decide as Hlen.
  - injection Hmul as <-. rewrite lookup_zip_with, Hd.
    destruct (ep !! e) as [n|]; simpl; [|done]. f_equal. destruct d; lia.
  - destruct dn as [|d0 [|??]]; try discriminate. injection Hmul as <-.
    destruct e; [|done]. injection Hd as ->.
    rewrite list_lookup_fmap. destruct (ep !! 0) as [n|]; simpl; [|done].
    f_equal. destruct d; lia.
Qed.

(** [step_wait], taken apart: the live step, the reset of the episode
    lengths, and the loop over the lanes. *)
Lemma step_wait_inv s s' o rw dn (inf : list (gmap nat agent_info)) :
  step_wait s = Ok (s', (o, rw, dn, inf)) →
  ∃ live rw0 dn0 sA,
    live_step_wait (venv s) = (live, (o, rw0, dn0, inf)) ∧
    same_setup s sA ∧ slot_ids sA = slot_ids s ∧ _dones sA = dn0 ∧
    mul_not_dones (ep_lens s) dn0 = Ok (ep_lens sA) ∧
    for_each (step_wait_lane o inf) (seq 0 (num_envs s)) (sA, rw0) = Ok (s', rw) ∧
    dn = _dones s'.
Proof.
  unfold step_wait. intros Hrun.
  destruct (live_step_wait (venv s)) as [live [[[o0 rw0] dn0] inf0]].
  apply bind_Ok in Hrun as (s2 & Hlb & Hrun).
  apply bind_Ok in Hrun as (ep & Hep & Hrun).
  apply bind_Ok in Hrun as ([s3 rw3] & Hloop & Hrun).
  injection Hrun as <- <- <- <- <-.
  pose proof (process_lb_data_slot_ids _ _ _ Hlb) as Hids.
  apply process_lb_data_fields in Hlb as (Hsetup & Hep2 & Hdn2 & Hv2 & _).
  destruct (process_own_obs_fields (with_dones (with_venv s live) dn0) o0)
    as (Hsetup1 & Hep1 & Hdn1 & Hv1).
  simpl in *. rewrite Hep1 in Hep2. rewrite Hdn1 in Hdn2. simpl in *.
  rewrite Hep2, Hdn2 in Hep.
  destruct Hsetup as (Hn & Hk & Htp & Hvi & Hdf & Hout).
  destruct Hsetup1 as (Hn1 & Hk1 & Htp1 & Hvi1 & Hdf1 & Hout1). simpl in *.
  exists live, rw0, dn0, (with_ep_lens s2 ep). simpl.
  split; [done|]. split.
  { unfold same_setup. simpl. split_and!; congruence. }
  split.
  { unfold slot_ids in *. simpl in *. rewrite Hids.
    rewrite process_own_obs_lb_dicts. simpl. apply stepped_slot_ids. }
  split; [done|]. split; [done|]. split; [|done].
  rewrite Hn, Hn1 in Hloop. exact Hloop.
Qed.

Lemma step_wait_slot_ids s s' out :
  step_wait s = Ok (s', out) → slot_ids s' = slot_ids s.
Proof.
  destruct out as [[[o rw] dn] inf].
  intros (live & rw0 & dn0 & sA & _ & _ & Hids & _ & _ & Hloop & _)%step_wait_inv.
  apply lanes_loop_spec in Hloop as (Hframe & _); [|apply NoDup_seq].
  destruct Hframe as (_ & _ & _ & _ & _ & _ & _ & Hids' & _). congruence.
Qed.

Lemma reset_slot_ids s s' o : reset s = Ok (s', o) → slot_ids s' = slot_ids s.
Proof.
  unfold reset. destruct (live_reset (venv s)) as [live o0]. intros Hrun.
  apply bind_Ok in Hrun as (s1 & Hs1 & Hrun). injection Hrun as <- <-.
  apply reset_state_data_slot_ids in Hs1. rewrite Hs1.
  unfold slot_ids. by rewrite process_own_obs_lb_dicts.
Qed.

Lemma run_slot_ids cs : ∀ s s', run cs s = Ok s' → slot_ids s' ≡ₚ slot_ids s.
Proof.
  induction cs as [|c cs IH]; simpl; intros s s' Hrun.
  - by injection Hrun as <-.
  - destruct c as [|actions].
    + apply bind_Ok in Hrun as ([s1 o] & Hreset & Hrun).
      apply IH in Hrun. apply reset_slot_ids in Hreset. by rewrite Hrun, Hreset.
    + apply bind_Ok in Hrun as (s1 & Hasync & Hrun).
      apply bind_Ok in Hrun as ([s2 out] & Hwait & Hrun).
      apply IH in Hrun. apply step_wait_slot_ids in Hwait.
      apply step_async_slot_ids in Hasync as (l & Hcycle%cycle_Permutation & Hids).
      rewrite Hrun, Hwait, Hids. unfold slot_ids. by rewrite Hcycle.
Qed.

(** With an empty pool ([num_lb = 0]) the rotation at the start of
    [step_async] indexes an empty list. *)
Lemma step_async_empty_pool s actions :
  lb_dicts s = [] → step_async s actions = Raise IndexError.
Proof. intros Hnil. unfold step_async. by rewrite Hnil. Qed.

(** C1 (amended). Whatever state the wrapper is in, a sequence of resets
    and [step_async]/[step_wait] cycles that completes leaves the pool with
    exactly the slots it had, permuted: the rotation neither adds, drops
    nor duplicates a slot.  And whenever the constructor returns, the pool
    it has built has exactly [K = num_lb] slots, numbered [0..K-1]. *)
Theorem pool_is_preserved (venv0 : L) params env_name use_dummy victim_idx
    victim_path victim_type transparent lb_space (cs : list call) s s' :
  run cs s = Ok s' →
  (length (lb_dicts s') = length (lb_dicts s) ∧ slot_ids s' ≡ₚ slot_ids s) ∧
  ∀ s0,
    __init__ venv0 params env_name use_dummy victim_idx victim_path victim_type
             transparent lb_space = Ok s0 →
    ∃ k, lp_num_lb params = Some k ∧
         length (lb_dicts s0) = k ∧ slot_ids s0 = seq 0 k.
Proof.
  intros Hrun%run_slot_ids.
  assert (∀ s1, length (lb_dicts s1) = length (slot_ids s1)) as Hlen.
  { intros s1. unfold slot_ids. by rewrite length_map. }
  split.
  - split; [|done]. by rewrite !Hlen, Hrun.
  - intros s0 (Hk & Hids & _)%init_pool.
    exists (lookback_num s0). split_and!; [done| |done].
    by rewrite Hlen, Hids, length_seq.
Qed.

Lemma step_async_fields s actions s1 :
  step_async s actions = Ok s1 →
  same_setup s s1 ∧ ep_lens s1 = map S (ep_lens s) ∧
  venv s1 = live_step_async actions (venv s) ∧ _dones s1 = _dones s.
Proof.
  unfold step_async. intros Hrun.
  apply bind_Ok in Hrun as (lbs & _ & Hrun).
  apply bind_Ok in Hrun as (nb & _ & Hrun).
  apply bind_Ok in Hrun as (v & _ & Hrun).
  apply bind_Ok in Hrun as (rest & _ & Hrun).
  destruct (predict _ _ _ _) as [pol [lb_action new_lb_state]].
  apply bind_Ok in Hrun as (f1 & _ & Hrun). by injection Hrun as <-.
Qed.

(** *** The reward that [step_wait] returns *)

(** C2. With the feature signal ['ff'] among the transparent parameters,
    the reward returned for a lane is the live reward plus [0.05] times the
    sum, over the valid slots of the lane (the first [ep_len] of the ring),
    of the norm of the difference between the live victim's feature signal
    and the slot's victim's; nothing is clipped. *)
Theorem step_wait_reward s s' live o rw0 dn0 (inf0 : list (gmap nat agent_info))
    o' rw dn (inf : list (gmap nat agent_info)) :
  "ff" ∈ transparent_params s →
  live_step_wait (venv s) = (live, (o, rw0, dn0, inf0)) →
  step_wait s = Ok (s', (o', rw, dn, inf)) →
  ∀ e, e < num_envs s →
    ∃ r0 ep_len vi dists,
      rw0 !! e = Some r0 ∧
      ep_lens s' !! e = Some ep_len ∧
      inf !! e ≫= (.!! victim_index s') = Some vi ∧
      Forall2 (λ slot_info d,
                 slot_distance (victim_index s') e vi slot_info = Ok d)
              (take ep_len (cached_infos s')) dists ∧
      rw !! e = Some (add r0 (mul coef (foldl add zero dists))).
Proof.
  intros Hff Hlive Hwait e He.
  apply step_wait_inv in Hwait
    as (live' & rw0' & dn0' & sA & Hlive' & Hsetup & _ & _ & _ & Hloop & _).
  rewrite Hlive in Hlive'. injection Hlive' as <- <- <- <- <-.
  apply lanes_loop_spec in Hloop as (Hframe & _ & Hlanes & _); [|apply NoDup_seq].
  destruct (Hlanes e) as (r0 & ep_len & vi & dists & Hr0 & _ & Hlen & Hvi & Hterms & Hrw).
  { apply elem_of_seq. lia. }
  pose proof Hframe as (_ & Htp & Hvidx & Hep & _).
  destruct Hsetup as (_ & _ & Htp' & _).
  exists r0, ep_len, vi, dists.
  split; [done|]. split; [by rewrite Hep|]. split; [by rewrite Hvidx|].
  split; [|done].
  apply (bonus_terms_frame _ _ _ _ _ _ Hframe) in Hterms.
  unfold bonus_terms in Hterms. rewrite decide_True in Hterms; [done|].
  by rewrite Htp, Htp'.
Qed.

(** C3. [step_async] adds one to every lane's episode length and
    [step_wait] sets it to 0 where the lane reports done.  The bonus of a
    lane of episode length [ep_len] is made of terms of the first [ep_len]
    slots only (and each line printed for it names a slot offset below
    [ep_len]); a lane that just reported done has [ep_len = 0] and no
    terms, so its bonus is [0.05 * 0]. *)
Theorem episode_length_gating s actions s1 live o rw0 dn0
    (inf0 : list (gmap nat agent_info)) s2 o' rw dn (inf : list (gmap nat agent_info)) :
  step_async s actions = Ok s1 →
  live_step_wait (venv s1) = (live, (o, rw0, dn0, inf0)) →
  step_wait s1 = Ok (s2, (o', rw, dn, inf)) →
  ep_lens s1 = map S (ep_lens s) ∧
  (∃ printed, stdout s2 = stdout s1 ++ printed ∧
              Forall (λ line, line.1.2 < line.2) printed) ∧
  ∀ e, e < num_envs s →
    ∃ (done : bool) ep_len0 r0 vi dists,
      dn !! e = Some done ∧ ep_lens s !! e = Some ep_len0 ∧ rw0 !! e = Some r0 ∧
      let ep_len := if done then 0 else S ep_len0 in
      ep_lens s2 !! e = Some ep_len ∧
      bonus_terms s2 e vi ep_len dists ∧
      (∀ i, is_Some (dists !! i) → i < ep_len) ∧
      rw !! e = Some (add r0 (mul coef (foldl add zero dists))) ∧
      (done = true → rw !! e = Some (add r0 (mul coef zero))).
Proof.
  intros (Hsetup0 & Hinc & _)%step_async_fields Hlive Hwait.
  apply step_wait_inv in Hwait
    as (live' & rw0' & dn0' & sA & Hlive' & Hsetup & _ & HdnA & Hmul & Hloop & Hdn).
  rewrite Hlive in Hlive'. injection Hlive' as <- <- <- <- <-.
  apply lanes_loop_spec in Hloop as (Hframe & _ & Hlanes & Hprinted);
    [|apply NoDup_seq].
  pose proof Hframe as (_ & _ & _ & Hep & Hdones & _).
  destruct Hsetup as (Hn & _ & _ & _ & _ & Hout).
  destruct Hsetup0 as (Hn0 & _).
  split; [done|]. split.
  { destruct Hprinted as (printed & Hp & Hbound). exists printed.
    split; [by rewrite Hp, Hout|done]. }
  intros e He.
  destruct (Hlanes e)
    as (r0 & ep_len & vi & dists & Hr0 & [done Hdone] & Hlen & Hvi & Hterms & Hrw).
  { apply elem_of_seq. lia. }
  rewrite HdnA in Hdone.
  pose proof (mul_not_dones_lookup _ _ _ _ _ Hmul Hdone) as Hlook.
  rewrite Hlen, Hinc, list_lookup_fmap in Hlook.
  destruct (ep_lens s !! e) as [ep_len0|] eqn:Hlen0; [|done].
  simpl in Hlook. injection Hlook as ->.
  exists done, ep_len0, r0, vi, dists.
  split; [by rewrite Hdn, Hdones, HdnA|]. split; [done|]. split; [done|].
  simpl.
  split; [by rewrite Hep|].
  split; [by apply (bonus_terms_frame _ _ _ _ _ _ Hframe)|].
  pose proof (bonus_terms_length _ _ _ _ _ Hterms) as Hbound.
  split; [|split; [done|]].
  - intros i Hi%lookup_lt_is_Some. lia.
  - intros ->. simpl in Hbound. destruct dists; [done|simpl in Hbound; lia].
Qed.

(** In the configuration of C10 one pass of the inner loop reads both
    observation signals, forms their difference and returns the
    accumulator it was given. *)
Lemma diff_step_obs_only s e vi ep_len acc i lb acc' :
  "ff" ∉ transparent_params s → "obs" ∈ transparent_params s →
  diff_step s e vi ep_len acc (i, lb) = Ok acc' ↔
  acc' = acc ∧
  ∃ lbvi a b,
    getkey (default ∅ (d_info (data lb) !! e)) (victim_index s) = Ok lbvi ∧
    obs_signal vi e = Ok a ∧ obs_signal lbvi e = Ok b.
Proof.
  intros Hff Hobs. unfold diff_step. destruct acc as [x pr].
  destruct (decide ("ff" ∈ transparent_params s)) as [|_]; [done|].
  destruct (decide ("obs" ∈ transparent_params s)) as [_|]; [|done].
  split.
  - intros Hrun.
    apply bind_Ok in Hrun as (lbvi & Hlbvi & Hrun).
    apply bind_Ok in Hrun as (acc1 & [= <-] & Hrun).
    apply bind_Ok in Hrun as (diff_obs & Hdiff & Hrun). injection Hrun as <-.
    apply bind_Ok in Hdiff as (a & Ha & Hdiff).
    apply bind_Ok in Hdiff as (b & Hb & _).
    split; [done|]. by exists lbvi, a, b.
  - intros (-> & lbvi & a & b & Hlbvi & Ha & Hb).
    rewrite Hlbvi. simpl. rewrite Ha. simpl. by rewrite Hb.
Qed.

(** C10. With ['obs'] but not ['ff'] among the transparent parameters,
    every pass of the inner loop computes the observation difference and
    drops it, and [step_wait] returns the live rewards unchanged (given
    that adding [0.05 * 0] to a reward leaves it as it is). *)
Theorem obs_only_reward_unchanged s s' live o rw0 dn0
    (inf0 : list (gmap nat agent_info)) o' rw dn (inf : list (gmap nat agent_info)) :
  (∀ r : num, add r (mul coef zero) = r) →
  "ff" ∉ transparent_params s → "obs" ∈ transparent_params s →
  live_step_wait (venv s) = (live, (o, rw0, dn0, inf0)) →
  step_wait s = Ok (s', (o', rw, dn, inf)) →
  rw = rw0 ∧
  ∀ e vi ep_len acc i lb acc',
    diff_step s' e vi ep_len acc (i, lb) = Ok acc' ↔
    acc' = acc ∧
    ∃ lbvi a b,
      getkey (default ∅ (d_info (data lb) !! e)) (victim_index s') = Ok lbvi ∧
      obs_signal vi e = Ok a ∧ obs_signal lbvi e = Ok b.
Proof.
  intros Hlaw Hff Hobs Hlive Hwait.
  apply step_wait_inv in Hwait
    as (live' & rw0' & dn0' & sA & Hlive' & Hsetup & _ & _ & _ & Hloop & _).
  rewrite Hlive in Hlive'. injection Hlive' as <- <- <- <- <-.
  apply lanes_loop_spec in Hloop as (Hframe & Hother & Hlanes & _);
    [|apply NoDup_seq].
  pose proof Hframe as (_ & Htp & _).
  destruct Hsetup as (_ & _ & Htp' & _).
  split.
  - apply list_eq. intros e.
    destruct (decide (e ∈ seq 0 (num_envs s))) as [He|He]; [|by apply Hother].
    destruct (Hlanes e He)
      as (r0 & ep_len & vi & dists & Hr0 & _ & _ & _ & Hterms & Hrw).
    unfold bonus_terms in Hterms.
    rewrite decide_False in Hterms by (by rewrite Htp').
    subst dists. simpl in Hrw. by rewrite Hrw, Hr0, Hlaw.
  - intros e vi ep_len acc i lb acc'.
    apply diff_step_obs_only; by rewrite Htp, Htp'.
Qed.

(** *** The reset of one lane *)

Lemma reset_slot_lane_spec s e action state cobs states fulls radii lb lb' :
  reset_slot s (Some e) action state cobs states fulls radii lb = Ok lb' →
  slot_id lb' = slot_id lb ∧
  d_info (data lb') = d_info (data lb) ∧
  d_action (data lb') ≫= (.!! e) = action !! e ∧
  d_state (data lb') ≫= (.!! e) = state ≫= (.!! e) ∧
  (∃ r, d_reward (data lb) !! e = Some r ∧
        d_reward (data lb') = <[e := mul r zero]> (d_reward (data lb))) ∧
  ∃ rad st full,
    radii !! 0 = Some rad ∧ states !! 0 = Some st ∧ fulls !! 0 = Some full ∧
    lt_venv lb' =
      shadow_set_state e st (Some full)
        (shadow_set_radius e rad (shadow_set_obs cobs (Some e) (lt_venv lb))).
Proof.
  unfold reset_slot. intros Hrun.
  apply bind_Ok in Hrun as ([v d] & Hd & Hrun).
  apply bind_Ok in Hrun as (v' & Hv & Hrun). injection Hrun as <-. simpl.
  apply bind_Ok in Hd as (a & Ha%getitem_Ok & Hd).
  apply bind_Ok in Hd as (old_action & Hold%not_none_Ok & Hd).
  apply bind_Ok in Hd as (new_action & [Hlt ->]%setitem_Ok & Hd).
  apply bind_Ok in Hd as (new_state & Hstate & Hd).
  apply bind_Ok in Hd as (r & Hr%getitem_Ok & Hd).
  apply bind_Ok in Hd as (new_reward & [Hlt' ->]%setitem_Ok & Hd).
  injection Hd as <- <-. simpl in *.
  apply bind_Ok in Hv as (v1 & Hv1 & Hv). injection Hv as <-.
  apply bind_Ok in Hv1 as (rad & Hrad%getitem_Ok & Hv1).
  apply bind_Ok in Hv1 as (st & Hst%getitem_Ok & Hv1).
  apply bind_Ok in Hv1 as (full & Hfull%getitem_Ok & Hv1). injection Hv1 as <-.
  split; [done|]. split; [done|].
  split; [by rewrite list_lookup_insert_eq|]. split.
  { destruct state as [st0|]; simpl.
    - apply bind_Ok in Hstate as (x & Hx%getitem_Ok & Hstate).
      apply bind_Ok in Hstate as (old_state & _ & Hstate).
      apply fmap_Ok in Hstate as (new & [Hlt'' ->]%setitem_Ok & ->). simpl.
      by rewrite list_lookup_insert_eq.
    - by injection Hstate as <-. }
  split; [by exists r|]. by exists rad, st, full.
Qed.

(** The tracked state of our own policy after a step is the one that
    [predict] returns under the done flags of this very step as mask:
    resetting the lanes that are done is left to the policy. *)
Lemma own_state_uses_done_mask s s' o rw dn (inf : list (gmap nat agent_info)) :
  step_wait s = Ok (s', (o, rw, dn, inf)) →
  _state s' = (predict (_policy s) (Some (_get_truncated_obs s o)) (_state s)
                       (Some dn)).2.2.
Proof.
  unfold step_wait. intros Hrun.
  destruct (live_step_wait (venv s)) as [live [[[o0 rw0] dn0] inf0]].
  apply bind_Ok in Hrun as (s2 & Hdata & Hrun).
  apply bind_Ok in Hrun as (ep & Hep & Hrun).
  apply bind_Ok in Hrun as ([s3 rw3] & Hloop & Hrun).
  injection Hrun as <- <- <- <- <-.
  apply lanes_loop_spec in Hloop as (Hframe & _); [|apply NoDup_seq].
  destruct Hframe as (_ & _ & _ & _ & Hdn & Hst & _).
  apply process_lb_data_fields in Hdata as (_ & _ & Hdn2 & _ & Hst2).
  rewrite Hdn, Hst. simpl. rewrite Hdn2, Hst2. simpl.
  destruct (process_own_obs_fields (with_dones (with_venv s live) dn0) o0)
    as (_ & _ & -> & _). simpl.
  unfold _process_own_obs, _get_truncated_obs. simpl.
  by destruct (predict _ _ _ _) as [pol [a r]].
Qed.

(** C4. What the reset of lane [e] does: in every shadow slot it sets the
    lane's simulator state and radius and the curried observation context
    from the live environment, and the lane's cached action and recurrent
    state to what the policy predicts from scratch ([state=None],
    [mask=None]) on the live observation, whatever they were before; the
    lane's cached reward is multiplied by zero.  The slots' cached info
    dicts are the one thing that the claim lists and this reset does not
    write, while the branch for a full reset replaces them by empty
    ones.  The tracked state of our own policy is not written here
    either: it is written earlier in the step
    ([own_state_uses_done_mask]). *)
Theorem lane_reset_from_live_state s o e s' pol action state :
  predict (_policy s) (Some (_get_truncated_obs s o)) None None
    = (pol, (action, state)) →
  _reset_state_data s o (Some e) = Ok s' →
  (∀ lb', lb' ∈ lb_dicts s' →
     d_state (data lb') ≫= (.!! e) = state ≫= (.!! e) ∧
     d_action (data lb') ≫= (.!! e) = action !! e) ∧
  Forall2
    (λ lb lb',
       slot_id lb' = slot_id lb ∧
       d_info (data lb') = d_info (data lb) ∧
       (∃ r, d_reward (data lb) !! e = Some r ∧
             d_reward (data lb') = <[e := mul r zero]> (d_reward (data lb))) ∧
       ∃ rad st full,
         live_get_radius (Some e) (venv s) !! 0 = Some rad ∧
         live_get_state (Some e) (venv s) !! 0 = Some st ∧
         live_get_full_state (Some e) (venv s) !! 0 = Some full ∧
         lt_venv lb' =
           shadow_set_state e st (Some full)
             (shadow_set_radius e rad
                (shadow_set_obs (live_get_obs (venv s)) (Some e) (lt_venv lb))))
    (lb_dicts s) (lb_dicts s') ∧
  _state s' = _state s ∧ _new_lb_state s' = _new_lb_state s ∧
  ep_lens s' = ep_lens s.
Proof.
  intros Hpredict Hrun. unfold _reset_state_data in Hrun.
  rewrite Hpredict in Hrun.
  apply bind_Ok in Hrun as (lbs & Hlbs & Hrun). injection Hrun as <-. simpl.
  assert (Forall2 (λ lb lb',
            reset_slot s (Some e) action state (live_get_obs (venv s))
              (live_get_state (Some e) (venv s))
              (live_get_full_state (Some e) (venv s))
              (live_get_radius (Some e) (venv s)) lb = Ok lb')
            (lb_dicts s) lbs) as Hall.
  { eapply map_enumerate_Forall2; [|exact Hlbs]. by intros i lb lb' _ Hlb. }
  split; [|split; [|done]].
  - intros lb' Hin.
    apply list_elem_of_lookup in Hin as [i Hi].
    destruct (Forall2_lookup_r _ _ _ _ _ Hall Hi) as (lb & _ & Hlb).
    apply reset_slot_lane_spec in Hlb as (_ & _ & Ha & Hs & _). done.
  - eapply Forall2_impl; [exact Hall|]. intros lb lb' Hlb.
    apply reset_slot_lane_spec in Hlb as (Hid & Hinfo & _ & _ & Hr & Hv). done.
Qed.
End lookback.

(** *** The properties on the demonstration world *)

(** Evaluate a computation that succeeds and continue with its value. *)
Ltac run_to r k :=
  let v := eval vm_compute in r in
  match v with
  | Ok ?a => k a
  end.

Ltac by_computation := vm_compute; reflexivity.

(** C1 as stated, refuted: built with [num_lb = 0], the pool holds no
    slot, not one. *)
Lemma pool_size_is_not_num_lb_plus_one :
  ∃ s, Demo.make 0 (Some {[ "ff" ]}) = Ok s ∧
       lookback_num s = 0 ∧ length (lb_dicts s) ≠ lookback_num s + 1.
Proof.
  run_to (Demo.make 0 (Some {[ "ff" ]})) ltac:(fun s => exists s).
  split; [by_computation|]. split; [reflexivity|]. vm_compute. discriminate.
Qed.

(** C1 (amended), on a pool of two slots after a reset and three cycles,
    and on the constructor with [num_lb = 0]. *)
Lemma pool_is_preserved_witness :
  ∃ s s0,
    run (Demo.calls 3) (Demo.with_slots 2 {[ "ff" ]}) = Ok s ∧
    length (lb_dicts s) = 2 ∧ slot_ids s ≡ₚ [0; 1] ∧
    Demo.make 0 (Some {[ "ff" ]}) = Ok s0 ∧ lb_dicts s0 = [].
Proof.
  run_to (run (Demo.calls 3) (Demo.with_slots 2 {[ "ff" ]})) ltac:(fun s =>
    run_to (Demo.make 0 (Some {[ "ff" ]})) ltac:(fun s0 =>
      exists s, s0;
      assert (run (Demo.calls 3) (Demo.with_slots 2 {[ "ff" ]}) = Ok s) as Hrun
        by by_computation;
      assert (Demo.make 0 (Some {[ "ff" ]}) = Ok s0) as Hinit by by_computation;
      pose proof (pool_is_preserved Demo.live0 (Demo.params 0)
                    "multicomp/SumoAnts-v0" true 0 "1" "zoo" (Some {[ "ff" ]}) 1
                    (Demo.calls 3) (Demo.with_slots 2 {[ "ff" ]}) s Hrun)
        as [[Hlen Hperm] Hbuilt];
      destruct (Hbuilt s0 Hinit) as (k & Hk & Hpool & _))).
  split; [exact Hrun|]. split; [exact Hlen|]. split; [exact Hperm|].
  split; [exact Hinit|]. reflexivity.
Defined.

Ltac live_step_to s k :=
  let v := eval vm_compute in (live_step_wait (venv s)) in
  match v with
  | (?live, (?o, ?rw0, ?dn0, ?inf0)) => k live o rw0 dn0 inf0
  end.

Ltac step_wait_to s k :=
  let v := eval vm_compute in (step_wait s) in
  match v with
  | Ok (?s', (?o, ?rw, ?dn, ?inf)) => k s' o rw dn inf
  end.

Lemma demo_has_ff (s : t (D := Demo.demoD) unit Demo.sim Demo.sim) :
  transparent_params s = {[ "ff" ]} → "ff" ∈ transparent_params s.
Proof. intros ->. set_solver. Qed.

(** C2, in the second cycle of the demonstration: both slots are valid,
    their distances are 1.00 and 2.00, and the live reward 2.00 becomes
    2.00 + 0.05 * 3.00 = 2.15. *)
Lemma step_wait_reward_witness :
  ∃ s live o rw0 dn0 inf0 s' o' rw dn inf,
    "ff" ∈ transparent_params s ∧
    live_step_wait (venv s) = (live, (o, rw0, dn0, inf0)) ∧
    step_wait s = Ok (s', (o', rw, dn, inf)) ∧
    0 < num_envs s ∧
    rw0 = [200; 200]%Z ∧ rw = [215; 215]%Z ∧
    ∃ r0 ep_len vi dists,
      rw0 !! 0 = Some r0 ∧
      ep_lens s' !! 0 = Some ep_len ∧
      inf !! 0 ≫= (.!! victim_index s') = Some vi ∧
      Forall2 (λ slot_info d,
                 slot_distance (victim_index s') 0 vi slot_info = Ok d)
              (take ep_len (cached_infos s')) dists ∧
      rw !! 0 = Some (add r0 (mul coef (foldl add zero dists))).
Proof.
  run_to (Demo.after 2 {[ "ff" ]} 1 ≫= λ s, step_async s [1; 1]%Z) ltac:(fun s =>
    live_step_to s ltac:(fun live o rw0 dn0 inf0 =>
      step_wait_to s ltac:(fun s' o' rw dn inf =>
        exists s, live, o, rw0, dn0, inf0, s', o', rw, dn, inf;
        assert ("ff" ∈ transparent_params s) as Hff
          by (apply demo_has_ff; by_computation);
        assert (live_step_wait (venv s) = (live, (o, rw0, dn0, inf0))) as Hlive
          by by_computation;
        assert (step_wait s = Ok (s', (o', rw, dn, inf))) as Hwait
          by by_computation;
        assert (0 < num_envs s) as Hlane by (vm_compute; lia);
        pose proof (step_wait_reward s s' live o rw0 dn0 inf0 o' rw dn inf
                      Hff Hlive Hwait 0 Hlane) as Hreward))).
  split; [exact Hff|]. split; [exact Hlive|]. split; [exact Hwait|].
  split; [exact Hlane|]. split; [reflexivity|]. split; [reflexivity|].
  exact Hreward.
Defined.

(** C3, in the third cycle of the demonstration, which ends the episode
    of both lanes: the episode lengths go from 2 to 3 and back to 0, and
    the rewards returned are the live ones. *)
Lemma episode_length_gating_witness :
  ∃ s s1 live o rw0 dn0 inf0 s2 o' rw dn inf,
    step_async s [1; 1]%Z = Ok s1 ∧
    live_step_wait (venv s1) = (live, (o, rw0, dn0, inf0)) ∧
    step_wait s1 = Ok (s2, (o', rw, dn, inf)) ∧
    0 < num_envs s ∧
    ep_lens s = [2; 2] ∧ ep_lens s1 = [3; 3] ∧ ep_lens s2 = [0; 0] ∧
    dn = [true; true] ∧ rw = rw0 ∧
    ∃ (done : bool) ep_len0 r0 vi dists,
      dn !! 0 = Some done ∧ ep_lens s !! 0 = Some ep_len0 ∧ rw0 !! 0 = Some r0 ∧
      let ep_len := if done then 0 else S ep_len0 in
      ep_lens s2 !! 0 = Some ep_len ∧
      bonus_terms s2 0 vi ep_len dists ∧
      (∀ i, is_Some (dists !! i) → i < ep_len) ∧
      rw !! 0 = Some (add r0 (mul coef (foldl add zero dists))) ∧
      (done = true → rw !! 0 = Some (add r0 (mul coef zero))).
Proof.
  run_to (Demo.after 2 {[ "ff" ]} 2) ltac:(fun s =>
    run_to (step_async s [1; 1]%Z) ltac:(fun s1 =>
      live_step_to s1 ltac:(fun live o rw0 dn0 inf0 =>
        step_wait_to s1 ltac:(fun s2 o' rw dn inf =>
          exists s, s1, live, o, rw0, dn0, inf0, s2, o', rw, dn, inf;
          assert (step_async s [1; 1]%Z = Ok s1) as Hasync by by_computation;
          assert (live_step_wait (venv s1) = (live, (o, rw0, dn0, inf0))) as Hlive
            by by_computation;
          assert (step_wait s1 = Ok (s2, (o', rw, dn, inf))) as Hwait
            by by_computation;
          assert (0 < num_envs s) as Hlane by (vm_compute; lia);
          pose proof (episode_length_gating s [1; 1]%Z s1 live o rw0 dn0 inf0
                        s2 o' rw dn inf Hasync Hlive Hwait) as (_ & _ & Hgate);
          specialize (Hgate 0 Hlane))))).
  split; [exact Hasync|]. split; [exact Hlive|]. split; [exact Hwait|].
  split; [exact Hlane|]. do 5 (split; [reflexivity|]).
  exact Hgate.
Defined.

Lemma demo_add_zero (r : Z) : add (D := Demo.demoD) r (mul coef zero) = r.
Proof. change (r + 0 = r)%Z. lia. Qed.

(** C10, in the second cycle of a demonstration built with ['obs'] only:
    both slots are valid and the rewards returned are the live ones. *)
Lemma obs_only_reward_unchanged_witness :
  ∃ s live o rw0 dn0 inf0 s' o' rw dn inf,
    ("ff" ∉ transparent_params s) ∧ "obs" ∈ transparent_params s ∧
    live_step_wait (venv s) = (live, (o, rw0, dn0, inf0)) ∧
    step_wait s = Ok (s', (o', rw, dn, inf)) ∧
    ep_lens s' = [2; 2] ∧ rw0 = [200; 200]%Z ∧
    rw = rw0.
Proof.
  run_to (Demo.after 2 {[ "obs" ]} 1 ≫= λ s, step_async s [1; 1]%Z) ltac:(fun s =>
    live_step_to s ltac:(fun live o rw0 dn0 inf0 =>
      step_wait_to s ltac:(fun s' o' rw dn inf =>
        exists s, live, o, rw0, dn0, inf0, s', o', rw, dn, inf;
        assert (transparent_params s = {[ "obs" ]}) as Htp by by_computation;
        assert ("ff" ∉ transparent_params s) as Hff by (rewrite Htp; set_solver);
        assert ("obs" ∈ transparent_params s) as Hobs by (rewrite Htp; set_solver);
        assert (live_step_wait (venv s) = (live, (o, rw0, dn0, inf0))) as Hlive
          by by_computation;
        assert (step_wait s = Ok (s', (o', rw, dn, inf))) as Hwait
          by by_computation;
        pose proof (obs_only_reward_unchanged s s' live o rw0 dn0 inf0 o' rw dn inf
                      demo_add_zero Hff Hobs Hlive Hwait) as [Hsame _]))).
  split; [exact Hff|]. split; [exact Hobs|]. split; [exact Hlive|].
  split; [exact Hwait|]. split; [reflexivity|]. split; [reflexivity|].
  exact Hsame.
Defined.

(** C4, on lane 0 of a wrapper with two slots after one cycle: the
    cached states of the lane are replaced by the fresh one, and both
    slots still hold the info cached for lanes 0 and 1. *)
Lemma lane_reset_from_live_state_witness :
  ∃ s s' pol action state,
    predict (_policy s) (Some (_get_truncated_obs s [[0; 0]; [0; 0]]%Z)) None None
      = (pol, (action, state)) ∧
    _reset_state_data s [[0; 0]; [0; 0]]%Z (Some 0) = Ok s' ∧
    state = Some [1; 1]%Z ∧
    map (λ lb, d_state (data lb)) (lb_dicts s) = [Some [2; 2]; Some [2; 2]]%Z ∧
    map (λ lb, d_state (data lb)) (lb_dicts s') = [Some [1; 2]; Some [1; 2]]%Z ∧
    (∀ lb', lb' ∈ lb_dicts s' →
       d_state (data lb') ≫= (.!! 0) = state ≫= (.!! 0) ∧
       d_action (data lb') ≫= (.!! 0) = action !! 0) ∧
    _state s' = _state s ∧
    map (λ lb, dom (d_info (data lb))) (lb_dicts s') = [{[ 0; 1 ]}; {[ 0; 1 ]}] ∧
    Forall2 (λ lb lb', d_info (data lb') = d_info (data lb))
            (lb_dicts s) (lb_dicts s').
Proof.
  run_to (Demo.after 2 {[ "ff" ]} 1) ltac:(fun s =>
    run_to (_reset_state_data s [[0; 0]; [0; 0]]%Z (Some 0)) ltac:(fun s' =>
      let v := eval vm_compute in
        (predict (_policy s) (Some (_get_truncated_obs s [[0; 0]; [0; 0]]%Z))
           None None) in
      match v with
      | (?pol, (?action, ?state)) =>
          exists s, s', pol, action, state;
          assert (predict (_policy s)
                    (Some (_get_truncated_obs s [[0; 0]; [0; 0]]%Z)) None None
                  = (pol, (action, state))) as Hpredict by by_computation;
          assert (_reset_state_data s [[0; 0]; [0; 0]]%Z (Some 0) = Ok s') as Hreset
            by by_computation;
          pose proof (lane_reset_from_live_state s [[0; 0]; [0; 0]]%Z 0 s'
                        pol action state Hpredict Hreset)
            as (Hslots & Hall & Hown & _)
      end)).
  split; [exact Hpredict|]. split; [exact Hreset|].
  do 3 (split; [reflexivity|]). split; [exact Hslots|].
  split; [exact Hown|]. split; [vm_compute; reflexivity|].
  eapply Forall2_impl; [exact Hall|].
  intros lb lb' (_ & Hinfo & _). exact Hinfo.
Defined.

(** C4 at the failing input: in the third cycle of a wrapper with two
    slots both lanes report done, and afterwards the slots still hold the
    info dicts cached for lane 0, which a lane reset as the specification
    words it would have emptied. *)
Lemma lane_reset_keeps_cached_info :
  ∃ s', Demo.after 2 {[ "ff" ]} 3 = Ok s' ∧
        _dones s' !! 0 = Some true ∧
        ∀ fresh, ¬ lane_reset_as_specified fresh s' 0.
Proof.
  run_to (Demo.after 2 {[ "ff" ]} 3) ltac:(fun s' => exists s').
  split; [by_computation|]. split; [reflexivity|].
  intros fresh [Hslots _].
  match type of Hslots with
  | ∀ lb, lb ∈ lb_dicts ?s → _ =>
      let l := eval vm_compute in (lb_dicts s) in
      match l with
      | ?lb0 :: ?rest =>
          destruct (Hslots lb0) as [Hinfo _];
            [change (lb0 ∈ lb0 :: rest); left|]
      end
  end.
  vm_compute in Hinfo. discriminate Hinfo.
Qed.
End LookbackSpec.

(* ===================================================================== *)
(** * Further properties of the recorder *)
(* ===================================================================== *)

(** A loop over distinct items establishes at [x] what its body
    establishes at [x] and keeps at every other item. *)
Lemma for_each_establishes {S X} (Q : S → Prop) (body : S → X → result S)
    (x : X) xs s s' :
  NoDup xs → x ∈ xs →
  (∀ s s', body s x = Ok s' → Q s') →
  (∀ y s s', y ≠ x → y ∈ xs → Q s → body s y = Ok s' → Q s') →
  for_each body xs s = Ok s' → Q s'.
Proof.
  revert s. induction xs as [|y xs IH]; simpl; intros s Hnodup Hin Hx Hkeep Hrun.
  - by apply elem_of_nil in Hin.
  - apply NoDup_cons in Hnodup as [Hy Hnodup].
    apply bind_Ok in Hrun as (s1 & Hbody & Hrun).
    apply elem_of_cons in Hin as [->|Hin].
    + apply Hx in Hbody. revert Hrun.
      apply (for_each_invariant Q); [|done].
      intros s2 z s3 Hz Hs2 Hz'. eapply (Hkeep z); [|by right|done..].
      intros ->. done.
    + eapply IH; [done..| |exact Hrun].
      intros z s2 s3 Hne Hz. apply Hkeep; [done|by right].
Qed.

Module TrajectoryRecorderFacts.
Import TrajectoryRecorder.
Import TrajectoryRecorderSpec.
Section recorder.
Context {value E : Type} `{!PyValue value, !VecMultiEnv value E}.
Implicit Types (r : t value E) (acc store : gmap string (list value)).

Lemma NoDup_iter_space r : NoDup (iter_space r).
Proof.
  unfold iter_space. apply NoDup_bind.
  - intros d1 d2 [d e] _ _ Hin1 Hin2.
    apply list_elem_of_bind in Hin1 as (e1 & [= -> ->]%list_elem_of_singleton & _).
    by apply list_elem_of_bind in Hin2 as (e2 & [= -> ->]%list_elem_of_singleton & _).
  - intros d _. apply NoDup_bind.
    + intros e1 e2 [d' e] _ _ [= -> ->]%list_elem_of_singleton
        [= ->]%list_elem_of_singleton. done.
    + intros e _. apply NoDup_singleton.
    + apply NoDup_seq.
  - apply NoDup_seq.
Qed.

Lemma elem_of_iter_space_2 r d e :
  d < length (traj_dicts r) → e < num_envs r → (d, e) ∈ iter_space r.
Proof.
  intros Hd He. unfold iter_space.
  apply list_elem_of_bind. exists d. split; [|apply elem_of_seq; lia].
  apply list_elem_of_bind. exists e. split; [|apply elem_of_seq; lia].
  by apply list_elem_of_singleton.
Qed.

(** What [record_lane] does to the two tables, whatever the done flag. *)
Lemma record_lane_tables r env_data dones infos d e r' :
  record_lane r env_data dones infos d e = Ok r' →
  ∃ acc w (done : bool) ad store,
    accumulate_lane r env_data infos d e = Ok (acc, w) ∧
    dones !! e = Some done ∧
    traj_dicts r !! d = Some ad ∧ e < length ad ∧
    traj_dicts r' = <[d := <[e := if done then ∅ else acc]> ad]> (traj_dicts r) ∧
    (if done
     then full_traj_dicts r !! d = Some store ∧
          full_traj_dicts r' = <[d := consolidate_episode acc store]> (full_traj_dicts r)
     else full_traj_dicts r' = full_traj_dicts r).
Proof.
  unfold record_lane. intros Hrun.
  apply bind_Ok in Hrun as ([acc w] & Hacc & Hrun).
  apply bind_Ok in Hrun as (ad & Had%getitem_Ok & Hrun).
  apply bind_Ok in Hrun as (dn & Hdn%getitem_Ok & Hrun).
  destruct dn.
  - apply bind_Ok in Hrun as (store & Hstore%getitem_Ok & Hrun).
    apply bind_Ok in Hrun as (ad' & [He ->]%setitem_Ok & Hrun).
    apply bind_Ok in Hrun as (td & [Hd ->]%setitem_Ok & Hrun).
    apply bind_Ok in Hrun as (ft & [Hd' ->]%setitem_Ok & Hrun).
    injection Hrun as <-. by exists acc, w, true, ad, store.
  - apply bind_Ok in Hrun as (ad' & [He ->]%setitem_Ok & Hrun).
    apply bind_Ok in Hrun as (td & [Hd ->]%setitem_Ok & Hrun).
    injection Hrun as <-. by exists acc, w, false, ad, ∅.
Qed.

(** *** The constructor *)

Lemma init_shape_ok (e0 : E) na ne idx r :
  __init__ e0 na ne idx None None = Ok r →
  shape_ok r ∧ num_envs r = ne ∧ venv r = e0.
Proof.
  unfold __init__. intros Hinit.
  apply bind_Ok in Hinit as (indices & _ & Hinit). injection Hinit as <-.
  unfold shape_ok. simpl. rewrite !length_map.
  split_and!; try done.
  apply Forall_forall. intros ad (i & -> & _)%list_elem_of_fmap.
  by rewrite length_replicate.
Qed.

(** X1. A recorder built without key filters, then reset and given a batch
    of actions, completes [step_wait] and hands back the wrapped
    environment's tuple whenever that tuple and the batch have an entry
    for every recorded agent and lane. *)
Theorem fresh_recorder_step_returns (e0 : E) na ne idx r acts :
  __init__ e0 na ne idx None None = Ok r →
  (∀ e o rw dn inf,
     venv_step_wait (venv (step_async (reset r).1 acts)) = (e, (o, rw, dn, inf)) →
     data_ok r (Some (reset r).2) (Some acts) rw dn inf) →
  ∃ r', step_wait (step_async (reset r).1 acts)
        = Ok (r', (venv_step_wait (venv (step_async (reset r).1 acts))).2).
Proof.
  intros (Hshape & _)%init_shape_ok Hdata.
  apply (step_wait_total _ (Some (reset r).2) (Some acts)).
  - unfold reset. by destruct (venv_reset (venv r)).
  - unfold reset. by destruct (venv_reset (venv r)).
  - done.
  - intros e o rw dn inf Hstep. specialize (Hdata e o rw dn inf Hstep).
    unfold reset in *. by destruct (venv_reset (venv r)).
Qed.

(** [agent_indices] is only assigned for [None] (all agents) and for a
    single [int]; any other argument, a list included, makes the
    constructor raise [AttributeError] when it first reads the attribute. *)
Theorem init_agent_indices (e0 : E) na ne ek ik :
  (∃ r, __init__ e0 na ne IndicesNone ek ik = Ok r ∧ agent_indices r = seq 0 na) ∧
  (∀ i, ∃ r, __init__ e0 na ne (IndicesInt i) ek ik = Ok r ∧ agent_indices r = [i]) ∧
  (∀ l, __init__ (value := value) e0 na ne (IndicesOther l) ek ik
        = Raise (AttributeError "TrajectoryRecorder" "agent_indices")).
Proof. split_and!; [by eexists|by eexists|done]. Qed.

(** *** One lane, one timestep *)

Lemma lookup_append_info acc (info_dict : gmap string value) key :
  map_fold (λ key val acc, dd_append key val acc) acc info_dict !! key
  = app1 (acc !! key) (info_dict !! key).
Proof.
  revert key. apply (map_fold_weak_ind (λ res m, ∀ key,
    res !! key = app1 (acc !! key) (m !! key))).
  - intros key. by rewrite lookup_empty.
  - intros i x m res Hi IH key. rewrite lookup_dd_append, lookup_insert.
    case_decide as Hik; [subst key|by apply IH].
    simpl. by rewrite IH, Hi.
Qed.

(** X2. What one timestep adds to a lane's accumulator: under every key
    of the environment data the value of this agent and lane, then under
    every key of the agent's info dict its value; every other key keeps
    its list. *)
Theorem accumulate_lane_contents r
    (env_data : gmap string (option (list (list value))))
    (infos : list (gmap nat (gmap string value))) d e acc w :
  info_keys r = None →
  accumulate_lane r env_data infos d e = Ok (acc, w) →
  ∃ ai old info_dict,
    agent_indices r !! d = Some ai ∧
    traj_dicts r !! d ≫= (.!! e) = Some old ∧
    infos !! e ≫= (.!! ai) = Some info_dict ∧
    ∀ key, ∃ x,
      match env_data !! key with
      | Some val => ∃ y, index2 val ai e = Ok y ∧ x = Some y
      | None => x = None
      end ∧
      acc !! key = app1 (app1 (old !! key) x) (info_dict !! key).
Proof.
  unfold accumulate_lane. intros Hkeys Hrun. rewrite Hkeys in Hrun.
  apply bind_Ok in Hrun as (ad & Had%getitem_Ok & Hrun).
  apply bind_Ok in Hrun as (ai & Hai%getitem_Ok & Hrun).
  apply bind_Ok in Hrun as (old & Hold%getitem_Ok & Hrun).
  apply bind_Ok in Hrun as (acc1 & Hacc1 & Hrun).
  apply bind_Ok in Hrun as (info_env & Hie%getitem_Ok & Hrun).
  apply bind_Ok in Hrun as (info_dict & Hinfo%getkey_Ok & Hrun).
  simpl in Hrun. injection Hrun as <- <-.
  exists ai, old, info_dict.
  split; [done|]. split; [by rewrite Had|]. split; [by rewrite Hie|].
  intros key. pose proof (for_items_append _ _ _ _ Hacc1 key) as Henv.
  rewrite lookup_append_info.
  destruct (env_data !! key) as [val|].
  - destruct Henv as (y & Hy & ->). exists (Some y). split; [by exists y|done].
  - exists None. split; [done|]. by rewrite Henv.
Qed.

Lemma record_lane_other_lanes r env_data dones infos d e r' d' e' :
  record_lane r env_data dones infos d e = Ok r' → (d', e') ≠ (d, e) →
  traj_dicts r' !! d' ≫= (.!! e') = traj_dicts r !! d' ≫= (.!! e').
Proof.
  intros (acc & w & done & ad & store & Hacc & Hdone & Had & He & Htd & Hft)
    %record_lane_tables Hne.
  assert (d < length (traj_dicts r)) as Hd by (by eapply lookup_lt_Some).
  rewrite Htd. destruct (decide (d' = d)) as [->|Hd'].
  - rewrite list_lookup_insert_eq by done. simpl.
    rewrite list_lookup_insert_ne by congruence. by rewrite Had.
  - by rewrite list_lookup_insert_ne.
Qed.

(** X3. Recording one lane touches that lane's accumulator and that
    agent's store only; and while the lane's episode is running (done
    flag false) the store is not touched at all: the accumulator is
    replaced by the one with this timestep appended. *)
Theorem record_lane_frame r env_data dones infos d e r' :
  record_lane r env_data dones infos d e = Ok r' →
  (∀ d' e', (d', e') ≠ (d, e) →
     traj_dicts r' !! d' ≫= (.!! e') = traj_dicts r !! d' ≫= (.!! e')) ∧
  (∀ d', d' ≠ d → full_traj_dicts r' !! d' = full_traj_dicts r !! d') ∧
  (dones !! e = Some false →
     full_traj_dicts r' = full_traj_dicts r ∧
     ∃ acc w, accumulate_lane r env_data infos d e = Ok (acc, w) ∧
              traj_dicts r' !! d ≫= (.!! e) = Some acc).
Proof.
  intros Hrun. split.
  { intros d' e' Hne. by eapply record_lane_other_lanes. }
  apply record_lane_tables in Hrun
    as (acc & w & done & ad & store & Hacc & Hdone & Had & He & Htd & Hft).
  assert (d < length (traj_dicts r)) as Hd by (by eapply lookup_lt_Some).
  split.
  - intros d' Hd'. destruct done.
    + destruct Hft as [_ ->]. by rewrite list_lookup_insert_ne.
    + by rewrite Hft.
  - intros Hfalse. rewrite Hdone in Hfalse. injection Hfalse as ->.
    split; [done|]. exists acc, w. split; [done|].
    rewrite Htd, list_lookup_insert_eq by done. simpl.
    by rewrite list_lookup_insert_eq.
Qed.

(** *** A whole timestep *)

(** X4. [step_wait] on a recorder that was never reset raises: the
    previous observations are still [None] when the first lane is
    recorded. *)
Theorem step_wait_before_reset_raises r :
  prev_obs r = None → traj_dicts r ≠ [] → 0 < num_envs r →
  ¬ is_Ok (step_wait r).
Proof.
  intros Hprev Htd Hn [[r' out] Hrun]. unfold step_wait in Hrun.
  destruct (venv_step_wait (venv r)) as [e [[[o rw] dn] inf]].
  apply bind_Ok in Hrun as (r1 & Hrec & _). simpl in Hrec. rewrite Hprev in Hrec.
  unfold record_timestep_data in Hrec.
  apply bind_Ok in Hrec as ([env_data w] & Hfilter & Hrec).
  destruct (env_keys (with_venv r e)) as [ks|]; [discriminate|].
  injection Hfilter as <- <-.
  assert ((0, 0) ∈ iter_space
            (with_traj (with_venv r e) (traj_dicts r) (full_traj_dicts r) [])) as Hin.
  { apply elem_of_iter_space_2; simpl; [|done].
    destruct (traj_dicts r); [done|simpl; lia]. }
  revert Hrec. simpl.
  destruct (iter_space _) as [|[d0 e0] rest] eqn:Hspace.
  { by apply elem_of_nil in Hin. }
  simpl. intros Hrec.
  apply bind_Ok in Hrec as (r2 & Hlane & _).
  unfold record_lane in Hlane.
  apply bind_Ok in Hlane as ([acc w] & Hacc & _).
  unfold accumulate_lane in Hacc.
  apply bind_Ok in Hacc as (ad & _ & Hacc).
  apply bind_Ok in Hacc as (ai & _ & Hacc).
  apply bind_Ok in Hacc as (old & _ & Hacc).
  apply bind_Ok in Hacc as (acc1 & Hacc1 & _).
  pose proof (for_items_append _ _ _ _ Hacc1 "observations") as Hobs.
  rewrite lookup_insert_eq in Hobs. by destruct Hobs as (x & [=] & _).
Qed.

(** X5. A timestep in which no lane reports done leaves every agent's
    store exactly as it was. *)
Theorem timestep_without_done_keeps_stores r po acts rewards dones infos r' :
  record_timestep_data r po acts rewards dones infos = Ok r' →
  (∀ e, e < num_envs r → dones !! e = Some false) →
  full_traj_dicts r' = full_traj_dicts r.
Proof.
  unfold record_timestep_data. intros Hrun Hdones.
  apply bind_Ok in Hrun as ([env_data w] & _ & Hrun).
  revert Hrun.
  set (r0 := with_traj r (traj_dicts r) (full_traj_dicts r) w).
  intros Hrun.
  assert (num_envs r' = num_envs r0 ∧ full_traj_dicts r' = full_traj_dicts r0)
    as [_ Hft]; [|done].
  revert Hrun.
  apply (for_each_invariant
    (λ s, num_envs s = num_envs r0 ∧ full_traj_dicts s = full_traj_dicts r0));
    [|done].
  intros s [d e] s' [_ He]%elem_of_iter_space [Hn Hft] Hlane.
  pose proof (record_lane_same_config _ _ _ _ _ _ _ Hlane) as (_ & _ & Hn' & _).
  apply record_lane_tables in Hlane
    as (acc & w' & done & ad & store & _ & Hdone & _ & _ & _ & Hft').
  rewrite Hdones in Hdone by done. injection Hdone as <-.
  split; congruence.
Qed.

(** X6. After a timestep the accumulator of every recorded lane that
    reported done is empty. *)
Theorem done_lanes_are_emptied r po acts rewards dones infos r' d e :
  record_timestep_data r po acts rewards dones infos = Ok r' →
  dones !! e = Some true → d < length (traj_dicts r) → e < num_envs r →
  traj_dicts r' !! d ≫= (.!! e) = Some ∅.
Proof.
  unfold record_timestep_data. intros Hrun Hdone Hd He.
  apply bind_Ok in Hrun as ([env_data w] & _ & Hrun).
  revert Hrun.
  apply (for_each_establishes (λ s, traj_dicts s !! d ≫= (.!! e) = Some ∅) _ (d, e)).
  - apply NoDup_iter_space.
  - by apply elem_of_iter_space_2.
  - intros s s'
      (acc & w' & done & ad & store & _ & Hdone' & Had & He' & Htd & _)
      %record_lane_tables.
    rewrite Hdone in Hdone'. injection Hdone' as <-.
    assert (d < length (traj_dicts s)) by (by eapply lookup_lt_Some).
    rewrite Htd, list_lookup_insert_eq by done. simpl.
    by rewrite list_lookup_insert_eq.
  - intros [d' e'] s s' Hne _ Hs Hlane.
    rewrite (record_lane_other_lanes _ _ _ _ _ _ _ _ _ Hlane); [done|].
    congruence.
Qed.
End recorder.

Lemma fresh_recorder_step_returns_witness :
  ∃ r r',
    __init__ (value := Demo.zval) 0 1 1 IndicesNone None None = Ok r ∧
    step_wait (step_async (reset r).1 [[Demo.ZS 7]])
    = Ok (r', ([[Demo.ZS 1]], [[Demo.ZS 1]], [false], [{[ 0 := ∅ ]}])).
Proof.
  eexists (TrajectoryRecorder.mk 0 1 1 [0] None None [[∅]] [∅] None None []).
  destruct (fresh_recorder_step_returns (value := Demo.zval) 0 1 1 IndicesNone
              (TrajectoryRecorder.mk 0 1 1 [0] None None [[∅]] [∅] None None [])
              [[Demo.ZS 7]] eq_refl) as [r' Hrun].
  - intros e o rw dn inf [= <- <- <- <- <-] ai lane
      ->%list_elem_of_singleton Hlane.
    simpl in Hlane. assert (lane = 0) as -> by lia.
    repeat split; by eexists.
  - exists r'. split; [reflexivity|exact Hrun].
Defined.

Lemma accumulate_lane_contents_witness :
  ∃ acc w,
    info_keys Demo.recorder_at_end = None ∧
    accumulate_lane Demo.recorder_at_end Demo.env_data_at_end [{[ 0 := ∅ ]}] 0 0
      = Ok (acc, w) ∧
    acc !! "rewards" = Some [Demo.ZS 1; Demo.ZS 2; Demo.ZS 3].
Proof.
  let v := eval vm_compute in
    (accumulate_lane Demo.recorder_at_end Demo.env_data_at_end [{[ 0 := ∅ ]}] 0 0) in
  match v with
  | Ok (?acc, ?w) =>
      exists acc, w;
      assert (accumulate_lane Demo.recorder_at_end Demo.env_data_at_end
                [{[ 0 := ∅ ]}] 0 0 = Ok (acc, w)) as Hrun
        by (vm_compute; reflexivity);
      pose proof (accumulate_lane_contents Demo.recorder_at_end
                    Demo.env_data_at_end [{[ 0 := ∅ ]}] 0 0 acc w
                    (eq_refl : info_keys Demo.recorder_at_end = None) Hrun)
        as Hcontents
  end.
  split; [reflexivity|]. split; [exact Hrun|]. vm_compute. reflexivity.
Defined.

Lemma record_lane_frame_witness :
  ∃ r',
    record_lane Demo.recorder_at_end Demo.env_data_at_end [false] [{[ 0 := ∅ ]}] 0 0
      = Ok r' ∧
    full_traj_dicts r' = full_traj_dicts Demo.recorder_at_end.
Proof.
  assert (∃ r', record_lane Demo.recorder_at_end Demo.env_data_at_end
                  [false] [{[ 0 := ∅ ]}] 0 0 = Ok r') as [r' Hrun].
  { eexists. vm_compute. reflexivity. }
  destruct (record_lane_frame _ _ _ _ _ _ _ Hrun) as (_ & _ & Hrunning).
  destruct (Hrunning eq_refl) as [Hstore _].
  exists r'. split; [exact Hrun|exact Hstore].
Defined.

Lemma step_wait_before_reset_raises_witness :
  prev_obs Demo.recorder0 = None ∧ ¬ is_Ok (step_wait Demo.recorder0).
Proof.
  split; [reflexivity|].
  apply step_wait_before_reset_raises; [reflexivity|discriminate|].
  simpl. lia.
Defined.

Lemma timestep_without_done_keeps_stores_witness :
  ∃ r',
    record_timestep_data Demo.recorder_at_end (Some [[Demo.ZS 2]])
      (Some [[Demo.ZS 9]]) [[Demo.ZS 3]] [false] [{[ 0 := ∅ ]}] = Ok r' ∧
    full_traj_dicts r' = [∅].
Proof.
  assert (∃ r', record_timestep_data Demo.recorder_at_end (Some [[Demo.ZS 2]])
                  (Some [[Demo.ZS 9]]) [[Demo.ZS 3]] [false] [{[ 0 := ∅ ]}] = Ok r')
    as [r' Hrun].
  { eexists. vm_compute. reflexivity. }
  exists r'. split; [exact Hrun|].
  rewrite (timestep_without_done_keeps_stores _ _ _ _ _ _ _ Hrun).
  - reflexivity.
  - intros e He. change (num_envs Demo.recorder_at_end) with 1 in He.
    by assert (e = 0) as -> by lia.
Defined.

Lemma done_lanes_are_emptied_witness :
  ∃ r',
    record_timestep_data Demo.recorder_at_end (Some [[Demo.ZS 2]])
      (Some [[Demo.ZS 9]]) [[Demo.ZS 3]] [true] [{[ 0 := ∅ ]}] = Ok r' ∧
    traj_dicts r' !! 0 ≫= (.!! 0) = Some ∅.
Proof.
  assert (∃ r', record_timestep_data Demo.recorder_at_end (Some [[Demo.ZS 2]])
                  (Some [[Demo.ZS 9]]) [[Demo.ZS 3]] [true] [{[ 0 := ∅ ]}] = Ok r')
    as [r' Hrun].
  { eexists. vm_compute. reflexivity. }
  exists r'. split; [exact Hrun|].
  apply (done_lanes_are_emptied _ _ _ _ _ _ _ _ _ Hrun); [reflexivity| |].
  - change (length (traj_dicts Demo.recorder_at_end)) with 1. lia.
  - change (num_envs Demo.recorder_at_end) with 1. lia.
Defined.
End TrajectoryRecorderFacts.

(* ===================================================================== *)
(** * The recorder's stores and the files it saves *)
(* ===================================================================== *)

Module RecorderStoreFacts.
Import TrajectoryRecorder.
Import TrajectoryRecorderSpec.
Import TrajectoryRecorderFacts.
Section recorder.
Context {value E : Type} `{!PyValue value, !VecMultiEnv value E}.
Context {FS : Type} `{!FileSystem value FS}.
Implicit Types (r : t value E) (acc store : gmap string (list value)).

(** The keys of a lane's accumulator after a timestep with all three
    kinds of environment data. *)
Lemma accumulate_lane_keys r po acts rewards
    (infos : list (gmap nat (gmap string value))) d e acc w :
  info_keys r = None →
  accumulate_lane r {[ "observations" := po; "actions" := acts;
                       "rewards" := Some rewards ]} infos d e = Ok (acc, w) →
  ∃ ai old info_dict,
    traj_dicts r !! d ≫= (.!! e) = Some old ∧
    infos !! e ≫= (.!! ai) = Some info_dict ∧
    is_Some (acc !! "observations") ∧ is_Some (acc !! "actions") ∧
    is_Some (acc !! "rewards") ∧
    (old !! "episode_returns" = None → info_dict !! "episode_returns" = None →
     acc !! "episode_returns" = None).
Proof.
  unfold accumulate_lane. intros Hkeys Hrun. rewrite Hkeys in Hrun.
  apply bind_Ok in Hrun as (ad & Had%getitem_Ok & Hrun).
  apply bind_Ok in Hrun as (ai & Hai%getitem_Ok & Hrun).
  apply bind_Ok in Hrun as (old & Hold%getitem_Ok & Hrun).
  apply bind_Ok in Hrun as (acc1 & Hacc1 & Hrun).
  apply bind_Ok in Hrun as (info_env & Hie%getitem_Ok & Hrun).
  apply bind_Ok in Hrun as (info_dict & Hinfo%getkey_Ok & Hrun).
  simpl in Hrun. injection Hrun as <- <-.
  exists ai, old, info_dict.
  split; [by rewrite Had|]. split; [by rewrite Hie|].
  assert (∀ key, is_Some (acc1 !! key) →
            is_Some (map_fold (λ key val acc, dd_append key val acc) acc1 info_dict
                     !! key)) as Hkeep.
  { intros key [l Hl]. rewrite lookup_append_info, Hl.
    destruct (info_dict !! key); by eexists. }
  split_and!.
  - apply Hkeep. pose proof (for_items_append _ _ _ _ Hacc1 "observations") as H.
    rewrite lookup_insert_eq in H. destruct H as (x & _ & ->). by eexists.
  - apply Hkeep. pose proof (for_items_append _ _ _ _ Hacc1 "actions") as H.
    rewrite lookup_insert_ne, lookup_insert_eq in H by done.
    destruct H as (x & _ & ->). by eexists.
  - apply Hkeep. pose proof (for_items_append _ _ _ _ Hacc1 "rewards") as H.
    rewrite lookup_insert_ne, lookup_insert_ne, lookup_singleton_eq in H by done.
    destruct H as (x & _ & ->). by eexists.
  - intros Hold' Hinfo'. rewrite lookup_append_info, Hinfo'. simpl.
    pose proof (for_items_append _ _ _ _ Hacc1 "episode_returns") as H.
    rewrite !lookup_insert_ne, lookup_singleton_ne in H by done.
    by rewrite H.
Qed.

(** Consolidating an episode adds one entry under each of the four keys. *)
Lemma consolidate_episode_counts acc store key :
  is_Some (acc !! "observations") → is_Some (acc !! "actions") →
  is_Some (acc !! "rewards") → acc !! "episode_returns" = None →
  key ∈ ["observations"; "actions"; "rewards"; "episode_returns"] →
  episodes_stored (consolidate_episode acc store) key
    = S (episodes_stored store key).
Proof.
  intros [o Ho] [a Ha] [rw Hrw] Hret Hkey. unfold episodes_stored.
  assert (∀ k vs, k ≠ "episode_returns" → acc !! k = Some vs →
            length (default [] (consolidate_episode acc store !! k))
            = S (length (default [] (store !! k)))) as Hfield.
  { intros k vs Hk Hacc. rewrite (consolidate_episode_field _ _ _ vs) by done.
    simpl. rewrite length_app. simpl. lia. }
  repeat (apply elem_of_cons in Hkey as [->|Hkey]).
  - by eapply Hfield.
  - by eapply Hfield.
  - by eapply Hfield.
  - rewrite consolidate_episode_return, Hret. simpl.
    rewrite !length_app. simpl. lia.
  - by apply elem_of_nil in Hkey.
Qed.

Lemma record_lane_aligned r po acts rewards dones
    (infos : list (gmap nat (gmap string value))) d e r' :
  info_keys r = None →
  (∀ e ai info, infos !! e ≫= (.!! ai) = Some info →
                info !! "episode_returns" = None) →
  record_lane r {[ "observations" := po; "actions" := acts;
                   "rewards" := Some rewards ]} dones infos d e = Ok r' →
  stores_aligned r ∧ lanes_lack "episode_returns" r →
  stores_aligned r' ∧ lanes_lack "episode_returns" r'.
Proof.
  intros Hkeys Hinfos Hrun [Hal Hlack].
  apply record_lane_tables in Hrun
    as (acc & w & done & ad & store & Hacc & Hdone & Had & He & Htd & Hft).
  apply accumulate_lane_keys in Hacc
    as (ai & old & info_dict & Hold & Hinfo & Ho & Ha & Hrw & Hret); [|done].
  assert (acc !! "episode_returns" = None) as Hret'.
  { apply Hret; [by eapply Hlack|by eapply Hinfos]. }
  assert (d < length (traj_dicts r)) as Hd by (by eapply lookup_lt_Some).
  split.
  - intros d' store' Hstore'. destruct done.
    + destruct Hft as [Hstore Hft]. rewrite Hft in Hstore'.
      destruct (decide (d' = d)) as [->|Hne].
      * rewrite list_lookup_insert_eq in Hstore' by (by eapply lookup_lt_Some).
        injection Hstore' as <-.
        rewrite !(consolidate_episode_counts acc store) by (done || set_solver).
        destruct (Hal _ _ Hstore) as (-> & -> & ->). done.
      * rewrite list_lookup_insert_ne in Hstore' by done. by eapply Hal.
    + rewrite Hft in Hstore'. by eapply Hal.
  - intros d' e' acc' Hacc'. rewrite Htd in Hacc'.
    destruct (decide (d' = d)) as [->|Hne].
    + rewrite list_lookup_insert_eq in Hacc' by done. simpl in Hacc'.
      destruct (decide (e' = e)) as [->|Hne'].
      * rewrite list_lookup_insert_eq in Hacc' by done. injection Hacc' as <-.
        by destruct done.
      * rewrite list_lookup_insert_ne in Hacc' by done.
        apply (Hlack d e'). by rewrite Had.
    + rewrite list_lookup_insert_ne in Hacc' by done. by eapply Hlack.
Qed.

Lemma step_wait_aligned r r' o rw dn (infos : list (gmap nat (gmap string value))) :
  env_keys r = None → info_keys r = None →
  (∀ e ai info, infos !! e ≫= (.!! ai) = Some info →
                info !! "episode_returns" = None) →
  step_wait r = Ok (r', (o, rw, dn, infos)) →
  stores_aligned r ∧ lanes_lack "episode_returns" r →
  stores_aligned r' ∧ lanes_lack "episode_returns" r'.
Proof.
  unfold step_wait. intros Hek Hik Hinfos Hrun Hinv.
  destruct (venv_step_wait (venv r)) as [e1 [[[o1 rw1] dn1] inf1]].
  apply bind_Ok in Hrun as (r1 & Hrec & Hrun). injection Hrun as <- <- <- <- <-.
  unfold record_timestep_data in Hrec. simpl in Hrec. rewrite Hek in Hrec.
  simpl in Hrec.
  assert (info_keys r1 = None ∧
          (stores_aligned r1 ∧ lanes_lack "episode_returns" r1)) as [_ H1];
    [|exact H1].
  revert Hrec.
  apply (for_each_invariant
           (λ s, info_keys s = None ∧
                 (stores_aligned s ∧ lanes_lack "episode_returns" s))).
  - intros s [d e] s' _ [Hs Hinv'] Hbody. split.
    + apply record_lane_same_config in Hbody. unfold same_config in Hbody.
      destruct Hbody as (_ & _ & _ & _ & _ & -> & _). done.
    + by eapply record_lane_aligned.
  - done.
Qed.

Lemma run_aligned (cs : list call) r r' (replies : list reply) :
  env_keys r = None → info_keys r = None →
  infos_lack "episode_returns" replies →
  run cs r = Ok (r', replies) →
  stores_aligned r ∧ lanes_lack "episode_returns" r →
  stores_aligned r' ∧ lanes_lack "episode_returns" r'.
Proof.
  revert r r' replies.
  induction cs as [|c cs IH]; simpl; intros r r' replies Hek Hik Hinfos Hrun Hinv.
  - by injection Hrun as <- <-.
  - destruct c as [|acts|].
    + unfold reset in Hrun. destruct (venv_reset (venv r)) as [e1 o1].
      apply bind_Ok in Hrun as ([r2 rs] & Hrest & Hrun). injection Hrun as <- <-.
      apply Forall_cons_1 in Hinfos as [_ Hinfos].
      by eapply (IH _ _ rs); [..|exact Hrest|exact Hinv].
    + apply bind_Ok in Hrun as ([r2 rs] & Hrest & Hrun). injection Hrun as <- <-.
      apply Forall_cons_1 in Hinfos as [_ Hinfos].
      by eapply (IH _ _ rs); [..|exact Hrest|exact Hinv].
    + apply bind_Ok in Hrun as ([r1 [[[o1 rw1] dn1] inf1]] & Hstep & Hrun).
      apply bind_Ok in Hrun as ([r2 rs] & Hrest & Hrun). injection Hrun as <- <-.
      apply Forall_cons_1 in Hinfos as [Hhead Hinfos]. simpl in Hhead.
      pose proof Hstep as Hcfg. unfold step_wait in Hcfg.
      destruct (venv_step_wait (venv r)) as [e1 [[[o2 rw2] dn2] inf2]].
      apply bind_Ok in Hcfg as (r1' & Hrec & Hcfg). injection Hcfg as <- <- <- <- <-.
      apply record_timestep_data_same_config in Hrec.
      unfold same_config in Hrec. simpl in Hrec.
      destruct Hrec as (_ & _ & _ & _ & Hek' & Hik' & _).
      eapply (IH _ _ rs); [..|exact Hrest|].
      * simpl. by rewrite Hek'.
      * simpl. by rewrite Hik'.
      * done.
      * eapply step_wait_aligned; [done|done| |exact Hstep|exact Hinv].
        intros e ai info Hinfo.
        destruct (inf2 !! e) as [lane|] eqn:Hlane; [|done]. simpl in Hinfo.
        eapply Forall_lookup_1 in Hhead; [|exact Hlane].
        by apply (Hhead ai info).
Qed.

(** X7. A recorder built without key filters keeps its stores aligned:
    as long as no info dict has a key named [episode_returns], after any
    sequence of calls every agent's store holds equally many episodes
    under [observations], [actions], [rewards] and [episode_returns]. *)
Theorem stores_stay_aligned (e0 : E) na ne idx (cs : list call) r0 r
    (replies : list reply) d store :
  __init__ e0 na ne idx None None = Ok r0 →
  run cs r0 = Ok (r, replies) →
  infos_lack "episode_returns" replies →
  full_traj_dicts r !! d = Some store →
  episodes_stored store "observations" = episodes_stored store "episode_returns" ∧
  episodes_stored store "actions" = episodes_stored store "episode_returns" ∧
  episodes_stored store "rewards" = episodes_stored store "episode_returns".
Proof.
  intros Hinit Hrun Hinfos Hstore.
  assert (stores_aligned r ∧ lanes_lack "episode_returns" r) as [Hal _];
    [|by eapply Hal].
  unfold __init__ in Hinit.
  apply bind_Ok in Hinit as (indices & _ & Hinit). injection Hinit as <-.
  eapply run_aligned; [| |exact Hinfos|exact Hrun|]; [done|done|].
  split.
  - intros d' store' Hd'. simpl in Hd'.
    apply list_lookup_fmap_Some in Hd' as (? & -> & _). done.
  - intros d' e' acc Hacc. simpl in Hacc.
    rewrite list_lookup_fmap in Hacc.
    destruct (indices !! d'); simpl in Hacc; [|done].
    apply lookup_replicate in Hacc as [-> _]. done.
Qed.

(** *** Saving *)

Lemma record_lane_store_count r env_data dones infos d e r' :
  record_lane r env_data dones infos d e = Ok r' →
  agent_indices r' = agent_indices r ∧
  length (full_traj_dicts r') = length (full_traj_dicts r).
Proof.
  intros Hrun. split.
  - apply record_lane_same_config in Hrun. unfold same_config in Hrun.
    by destruct Hrun as (_ & _ & _ & -> & _).
  - apply record_lane_tables in Hrun
      as (acc & w & done & ad & store & _ & _ & _ & _ & _ & Hft).
    destruct done; [destruct Hft as [_ ->]; by rewrite length_insert|by rewrite Hft].
Qed.

Lemma run_store_count (cs : list call) r r' (replies : list reply) :
  run cs r = Ok (r', replies) →
  agent_indices r' = agent_indices r ∧
  length (full_traj_dicts r') = length (full_traj_dicts r).
Proof.
  revert r r' replies.
  induction cs as [|c cs IH]; simpl; intros r r' replies Hrun.
  - by injection Hrun as <- <-.
  - destruct c as [|acts|].
    + unfold reset in Hrun. destruct (venv_reset (venv r)) as [e1 o1].
      apply bind_Ok in Hrun as ([r2 rs] & Hrest & Hrun). injection Hrun as <- <-.
      by apply IH in Hrest.
    + apply bind_Ok in Hrun as ([r2 rs] & Hrest & Hrun). injection Hrun as <- <-.
      by apply IH in Hrest.
    + apply bind_Ok in Hrun as ([r1 out] & Hstep & Hrun).
      apply bind_Ok in Hrun as ([r2 rs] & Hrest & Hrun). injection Hrun as <- <-.
      apply IH in Hrest as [-> ->].
      unfold step_wait in Hstep.
      destruct (venv_step_wait (venv r)) as [e1 [[[o2 rw2] dn2] inf2]].
      apply bind_Ok in Hstep as (r1' & Hrec & Hstep). injection Hstep as <- <-.
      simpl. unfold record_timestep_data in Hrec.
      apply bind_Ok in Hrec as ([env_data w] & _ & Hrec).
      revert Hrec.
      apply (for_each_invariant
               (λ s, agent_indices s = agent_indices r ∧
                     length (full_traj_dicts s) = length (full_traj_dicts r))).
      * intros s [d e] s' _ [Hs1 Hs2] Hbody.
        apply record_lane_store_count in Hbody as [-> ->]. done.
      * done.
Qed.

(** X8. Saving after any sequence of calls on a constructed recorder
    first makes [save_dir] with [os.makedirs], and raises what that
    raises; then it writes one file per recorded agent, in the order of
    [agent_indices] and named after the agent's index (not its position),
    holding the agent's store with one array per key, and raises what the
    first failing write raises.  No agent's store may have a key named
    [file], which [np.savez] rejects. *)
Theorem save_after_run (e0 : E) na ne idx ek ik (cs : list call) r0 r
    (replies : list reply) save_dir (fs : FS) :
  __init__ e0 na ne idx ek ik = Ok r0 →
  run cs r0 = Ok (r, replies) →
  Forall (λ store, store !! "file" = None) (full_traj_dicts r) →
  save r save_dir fs =
    fs1 ← os_makedirs save_dir fs;
    write_all (zip (map (agent_file save_dir) (agent_indices r0))
                   (map (fmap np_array) (full_traj_dicts r))) fs1.
Proof.
  intros Hinit Hrun Hfile.
  apply run_store_count in Hrun as [Hidx Hlen].
  assert (length (full_traj_dicts r) = length (agent_indices r)) as Hlen'.
  { rewrite Hlen, Hidx. unfold __init__ in Hinit.
    apply bind_Ok in Hinit as (indices & _ & Hinit). injection Hinit as <-.
    simpl. by rewrite length_map. }
  rewrite <- Hidx. clear Hinit Hidx Hlen. unfold save, write_all.
  destruct (os_makedirs save_dir fs) as [fs1|err]; simpl; [|done].
  generalize (full_traj_dicts r) (agent_indices r) Hlen' Hfile.
  intros stores indices. clear.
  assert (∀ i (pre : list (gmap string (list value))) fs1, length pre = i →
            Forall (λ store, store !! "file" = None) stores →
            length stores = length indices →
            for_each
              (λ fs '(dict_idx, agent_idx),
                 agent_dicts ← getitem (pre ++ stores) dict_idx;
                 np_savez (agent_file save_dir agent_idx)
                          (np_array <$> agent_dicts) fs)
              (imap (λ dict_idx agent_idx, (i + dict_idx, agent_idx)) indices) fs1
            = for_each (λ fs '(path, arrays), write_npz path arrays fs)
                (zip (map (agent_file save_dir) indices)
                     (map (fmap np_array) stores)) fs1) as Hgen.
  { revert stores.
    induction indices as [|ai indices IH]; intros stores i pre fs Hpre Hfile Hlen.
    - by destruct stores.
    - destruct stores as [|store stores]; [done|].
      apply Forall_cons_1 in Hfile as [Hstore Hfile].
      assert (getitem (pre ++ store :: stores) (i + 0) = Ok store) as Hget.
      { apply getitem_Ok. rewrite Nat.add_0_r, lookup_app_r, Hpre, Nat.sub_diag by lia.
        done. }
      assert (np_savez (agent_file save_dir ai) (np_array <$> store) fs
              = write_npz (agent_file save_dir ai) (np_array <$> store) fs)
        as Hsavez.
      { unfold np_savez. by rewrite lookup_fmap, Hstore. }
      simpl. rewrite Hget. simpl. rewrite Hsavez.
      destruct (write_npz _ _ fs) as [fs'|err]; simpl; [|done].
      rewrite <- (IH stores (S i) (pre ++ [store]) fs').
      + rewrite <- (assoc_L (++)). simpl.
        f_equal. apply imap_ext. intros j x _. simpl. f_equal. lia.
      + rewrite length_app. simpl. lia.
      + done.
      + simpl in Hlen. lia. }
  intros Hlen Hfile. exact (Hgen 0 [] fs1 eq_refl Hfile Hlen).
Qed.
End recorder.

(** *** On the three-step episode *)

Lemma stores_stay_aligned_witness :
  ∃ r0 r replies store,
    __init__ (value := Demo.zval) 0 1 1 IndicesNone None None = Ok r0 ∧
    run Demo.three_steps r0 = Ok (r, replies) ∧
    full_traj_dicts r !! 0 = Some store ∧
    episodes_stored store "episode_returns" = 1 ∧
    episodes_stored store "observations" = episodes_stored store "episode_returns" ∧
    episodes_stored store "actions" = episodes_stored store "episode_returns" ∧
    episodes_stored store "rewards" = episodes_stored store "episode_returns".
Proof.
  let v0 := eval vm_compute in
    (__init__ (value := Demo.zval) (E := nat) 0 1 1 IndicesNone None None) in
  match v0 with
  | Ok ?r0 =>
      let v := eval vm_compute in (run Demo.three_steps r0) in
      match v with
      | Ok (?r, ?replies) =>
          let st := eval vm_compute in (full_traj_dicts r !! 0) in
          match st with
          | Some ?store =>
              exists r0, r, replies, store;
              assert (__init__ (value := Demo.zval) (E := nat) 0 1 1 IndicesNone
                        None None = Ok r0) as Hinit by (vm_compute; reflexivity);
              assert (run Demo.three_steps r0 = Ok (r, replies)) as Hrun
                by (vm_compute; reflexivity);
              assert (full_traj_dicts r !! 0 = Some store) as Hstore
                by (vm_compute; reflexivity);
              assert (infos_lack "episode_returns" replies) as Hlack
          end
      end
  end.
  { apply (bool_decide_unpack _). vm_compute. exact I. }
  pose proof (stores_stay_aligned 0 1 1 IndicesNone Demo.three_steps _ _ _ 0 _
                Hinit Hrun Hlack Hstore) as Haligned.
  split; [exact Hinit|]. split; [exact Hrun|]. split; [exact Hstore|].
  split; [vm_compute; reflexivity|]. exact Haligned.
Defined.

(** X8 on a recorder of agent 1 of two after a reset, with a disk that
    starts empty: the directory is made and one file is written; with the
    empty path as directory, nothing is written. *)
Lemma save_after_run_witness :
  ∃ r0 r replies d,
    __init__ (value := Demo.zval) 0 2 1 (IndicesInt 1) None None = Ok r0 ∧
    run [CallReset] r0 = Ok (r, replies) ∧
    save r "out" (Demo.mk_disk [] []) = Ok d ∧
    Demo.disk_dirs d = ["out"] ∧ (Demo.disk_files d).*1 = ["out/agent_1.npz"] ∧
    save r "" (Demo.mk_disk [] []) = Raise FileNotFoundError.
Proof.
  let v0 := eval vm_compute in
    (__init__ (value := Demo.zval) (E := nat) 0 2 1 (IndicesInt 1) None None) in
  match v0 with
  | Ok ?r0 =>
      let v := eval vm_compute in (run [CallReset] r0) in
      match v with
      | Ok (?r, ?replies) =>
          let vd := eval vm_compute in (save r "out" (Demo.mk_disk [] [])) in
          match vd with
          | Ok ?d =>
              exists r0, r, replies, d;
              assert (__init__ (value := Demo.zval) (E := nat) 0 2 1 (IndicesInt 1)
                        None None = Ok r0) as Hinit by (vm_compute; reflexivity);
              assert (run [CallReset] r0 = Ok (r, replies)) as Hrun
                by (vm_compute; reflexivity);
              assert (Forall (λ store : gmap string (list Demo.zval),
                                store !! "file" = None) (full_traj_dicts r))
                as Hfile by (apply (bool_decide_unpack _); vm_compute; exact I);
              pose proof (save_after_run 0 2 1 (IndicesInt 1) None None [CallReset]
                            r0 r replies "out" (Demo.mk_disk [] [])
                            Hinit Hrun Hfile) as Hout;
              pose proof (save_after_run 0 2 1 (IndicesInt 1) None None [CallReset]
                            r0 r replies "" (Demo.mk_disk [] [])
                            Hinit Hrun Hfile) as Hempty
          end
      end
  end.
  split; [exact Hinit|]. split; [exact Hrun|].
  split; [etrans; [exact Hout|vm_compute; reflexivity]|].
  split; [vm_compute; reflexivity|]. split; [vm_compute; reflexivity|].
  etrans; [exact Hempty|vm_compute; reflexivity].
Defined.
End RecorderStoreFacts.

(* ===================================================================== *)
(** * Further properties of the lookback wrapper *)
(* ===================================================================== *)

Lemma map_enumerate_lookup {X Y} (f : nat → X → result Y) xs : ∀ i ys,
  map_enumerate f i xs = Ok ys →
  length ys = length xs ∧
  ∀ j x, xs !! j = Some x → ∃ y, ys !! j = Some y ∧ f (i + j) x = Ok y.
Proof.
  induction xs as [|x xs IH]; simpl; intros i ys Hrun.
  - injection Hrun as <-. split; [done|]. by intros j x Hj.
  - apply bind_Ok in Hrun as (y & Hy & Hrun).
    apply bind_Ok in Hrun as (ys' & Hys & Hrun). injection Hrun as <-.
    apply IH in Hys as [Hlen Hys]. split; [simpl; by rewrite Hlen|].
    intros [|j] x' Hj; simpl in *.
    + injection Hj as <-. exists y. by rewrite Nat.add_0_r.
    + destruct (Hys j x' Hj) as (y' & Hy' & Hf). exists y'.
      split; [done|]. by replace (i + S j) with (S i + j) by lia.
Qed.

Lemma map_enumerate_total {X Y} (f : nat → X → result Y) xs : ∀ i,
  (∀ j x, xs !! j = Some x → is_Ok (f (i + j) x)) →
  is_Ok (map_enumerate f i xs).
Proof.
  induction xs as [|x xs IH]; simpl; intros i Hf.
  - by eexists.
  - destruct (Hf 0 x eq_refl) as [y Hy]. rewrite Nat.add_0_r in Hy.
    rewrite Hy. simpl.
    destruct (IH (S i)) as [ys Hys].
    { intros j x' Hj. replace (S i + j) with (i + S j) by lia. by apply Hf. }
    rewrite Hys. by eexists.
Qed.

Module LookbackFacts.
Import LookbackRewardVecWrapper.
Import LookbackSpec.
Section lookback.
Context `{D : Domain} {P L V : Type}.
Context `{!Numeric D, !Policy P, !LiveEnv L, !ShadowEnv V}.
Implicit Types (s : t P L V) (lb : LookbackTuple V).

Lemma slot_ids_length s : length (slot_ids s) = length (lb_dicts s).
Proof. unfold slot_ids. by rewrite length_map. Qed.

(** *** The configuration and the shape of the state never change *)

Lemma same_setup_refl s : same_setup s s.
Proof. by repeat split. Qed.

Lemma same_setup_trans s1 s2 s3 :
  same_setup s1 s2 → same_setup s2 s3 → same_setup s1 s3.
Proof. unfold same_setup. intros ? ?. intuition congruence. Qed.

Lemma wrapper_config_refl s : same_config s s.
Proof. by repeat split. Qed.

Lemma wrapper_config_trans s1 s2 s3 :
  same_config s1 s2 → same_config s2 s3 → same_config s1 s3.
Proof. unfold same_config. intros ? ?. intuition congruence. Qed.

Lemma reset_state_data_config s o env_idx s' :
  _reset_state_data s o env_idx = Ok s' →
  same_config s s' ∧ ep_lens s' = ep_lens s ∧ venv s' = venv s ∧
  _dones s' = _dones s ∧ _obs s' = _obs s ∧ _state s' = _state s ∧
  _new_lb_state s' = _new_lb_state s ∧ stdout s' = stdout s.
Proof.
  unfold _reset_state_data. intros Hrun.
  destruct (predict _ _ _ _) as [pol [action state]].
  apply bind_Ok in Hrun as (lbs & _ & Hrun). by injection Hrun as <-.
Qed.

Lemma process_own_obs_config s o :
  same_config s (_process_own_obs s o) ∧
  ep_lens (_process_own_obs s o) = ep_lens s.
Proof. unfold _process_own_obs. by destruct (predict _ _ _ _) as [pol [a r]]. Qed.

Lemma process_lb_data_config s lb_data s' :
  _process_lb_data s lb_data = Ok s' → same_config s s'.
Proof.
  unfold _process_lb_data.
  apply (for_each_invariant (same_config s)); [|apply wrapper_config_refl].
  intros s1 [idx [[[lb_obs lb_reward] lb_dones] lb_info]] s2 _ Hs1 Hbody.
  apply bind_Ok in Hbody as (lb & _ & Hbody).
  destruct (predict _ _ _ _) as [pol [a r]].
  apply bind_Ok in Hbody as (info & _ & Hbody).
  apply bind_Ok in Hbody as (lbs & _ & Hbody).
  by injection Hbody as <-.
Qed.

Lemma step_wait_lane_config o (infos : list (gmap nat agent_info)) s rw e s' rw' :
  step_wait_lane o infos (s, rw) e = Ok (s', rw') →
  same_config s s' ∧ length rw' = length rw.
Proof.
  unfold step_wait_lane. intros Hrun.
  apply bind_Ok in Hrun as (dn & _ & Hrun).
  apply bind_Ok in Hrun as (s1 & Hs1 & Hrun).
  assert (same_config s s1) as Hcfg.
  { destruct dn.
    - by apply reset_state_data_config in Hs1 as (? & _).
    - injection Hs1 as <-. apply wrapper_config_refl. }
  apply bind_Ok in Hrun as (ep_len & _ & Hrun).
  apply bind_Ok in Hrun as (info_e & _ & Hrun).
  apply bind_Ok in Hrun as (vi & _ & Hrun).
  apply bind_Ok in Hrun as ([x pr] & _ & Hrun).
  apply bind_Ok in Hrun as (r0 & _ & Hrun).
  apply bind_Ok in Hrun as (rw1 & [_ ->]%setitem_Ok & Hrun).
  injection Hrun as <- <-. split; [exact Hcfg|apply length_insert].
Qed.

Lemma lanes_loop_config o (infos : list (gmap nat agent_info)) es s rw s' rw' :
  for_each (step_wait_lane o infos) es (s, rw) = Ok (s', rw') →
  same_config s s' ∧ length rw' = length rw.
Proof.
  apply (for_each_invariant
    (λ sr : t P L V * list num, same_config s sr.1 ∧ length sr.2 = length rw)).
  - intros [s1 rw1] e [s2 rw2] _ [Hcfg Hlen] Hlane. simpl in *.
    apply step_wait_lane_config in Hlane as [Hcfg' Hlen'].
    split; [by eapply wrapper_config_trans|congruence].
  - split; [apply wrapper_config_refl|done].
Qed.

Lemma mul_not_dones_length ep dn ep' :
  mul_not_dones ep dn = Ok ep' → length ep' = length ep.
Proof.
  unfold mul_not_dones. case_decide as Hlen.
  - intros [= <-]. rewrite length_zip_with. lia.
  - destruct dn as [|d [|??]]; try discriminate. intros [= <-].
    apply length_map.
Qed.

Lemma step_wait_config s s' out :
  step_wait s = Ok (s', out) →
  same_config s s' ∧ length (ep_lens s') = length (ep_lens s) ∧
  length (lb_dicts s') = length (lb_dicts s).
Proof.
  destruct out as [[[o rw] dn] inf]. intros Hwait.
  pose proof (step_wait_slot_ids _ _ _ Hwait) as Hids.
  apply step_wait_inv in Hwait
    as (live & rw0 & dn0 & sA & _ & Hsetup & _ & _ & Hmul & Hloop & _).
  pose proof Hloop as [Hcfg _]%lanes_loop_config.
  apply lanes_loop_spec in Hloop as (Hframe & _); [|apply NoDup_seq].
  destruct Hframe as (_ & _ & _ & Hep & _).
  destruct Hsetup as (Hn & Hk & Htp & Hvi & Hdf & _).
  destruct Hcfg as (Hn' & Hk' & Htp' & Hvi' & Hdf').
  split_and!.
  - unfold same_config. split_and!; congruence.
  - rewrite Hep. by eapply mul_not_dones_length.
  - by rewrite <- (slot_ids_length s'), Hids, slot_ids_length.
Qed.

Lemma step_async_config s actions s1 :
  step_async s actions = Ok s1 →
  same_config s s1 ∧ length (ep_lens s1) = length (ep_lens s) ∧
  length (lb_dicts s1) = length (lb_dicts s).
Proof.
  intros Hrun.
  pose proof (step_async_slot_ids _ _ _ Hrun) as (l & Hcycle & Hids).
  apply step_async_fields in Hrun as ((Hn & Hk & Htp & Hvi & Hdf & _) & Hep & _).
  split_and!.
  - by repeat split.
  - by rewrite Hep, length_map.
  - rewrite <- (slot_ids_length s1), Hids, length_map.
    by apply Permutation_length, cycle_Permutation.
Qed.

Lemma reset_config s s' o :
  reset s = Ok (s', o) →
  same_config s s' ∧ ep_lens s' = ep_lens s ∧
  length (lb_dicts s') = length (lb_dicts s).
Proof.
  intros Hrun. pose proof (reset_slot_ids _ _ _ Hrun) as Hids.
  assert (length (lb_dicts s') = length (lb_dicts s)) as Hlb
    by (by rewrite <- (slot_ids_length s'), Hids, slot_ids_length).
  revert Hlb.
  unfold reset in Hrun. destruct (live_reset (venv s)) as [live o0].
  apply bind_Ok in Hrun as (s1 & Hs1 & Hrun). injection Hrun as <- <-.
  apply reset_state_data_config in Hs1 as (Hcfg & Hep & _).
  destruct (process_own_obs_config (with_venv s live) o0) as [Hcfg' Hep'].
  intros Hlb. split_and!.
  - eapply wrapper_config_trans; [|exact Hcfg].
    eapply wrapper_config_trans; [|exact Hcfg']. by repeat split.
  - by rewrite Hep, Hep'.
  - exact Hlb.
Qed.

Lemma well_formed_step s s' :
  same_config s s' → length (ep_lens s') = length (ep_lens s) →
  length (lb_dicts s') = length (lb_dicts s) →
  well_formed s → well_formed s'.
Proof.
  intros (Hn & _ & _ & _ & Hdf) Hep Hlb [Hwf1 Hwf2].
  unfold well_formed. rewrite Hn, Hep, Hdf, Hlb. done.
Qed.

Lemma run_well_formed cs : ∀ s s',
  run cs s = Ok s' → same_config s s' ∧ (well_formed s → well_formed s').
Proof.
  induction cs as [|c cs IH]; simpl; intros s s' Hrun.
  - injection Hrun as <-. split; [apply wrapper_config_refl|done].
  - destruct c as [|actions].
    + apply bind_Ok in Hrun as ([s1 o] & Hreset & Hrun).
      apply IH in Hrun as [Hcfg Hwf].
      apply reset_config in Hreset as (Hcfg1 & Hep1 & Hlb1).
      split; [by eapply wrapper_config_trans|].
      intros Hs. apply Hwf. eapply well_formed_step; [done| |done..].
      by rewrite Hep1.
    + apply bind_Ok in Hrun as (s1 & Hasync & Hrun).
      apply bind_Ok in Hrun as ([s2 out] & Hwait & Hrun).
      apply IH in Hrun as [Hcfg Hwf].
      apply step_async_config in Hasync as (Hcfg1 & Hep1 & Hlb1).
      apply step_wait_config in Hwait as (Hcfg2 & Hep2 & Hlb2).
      split; [eapply wrapper_config_trans; [|done]; by eapply wrapper_config_trans|].
      intros Hs. apply Hwf.
      eapply well_formed_step; [exact Hcfg2|done..|].
      by eapply well_formed_step.
Qed.

Lemma init_well_formed (venv0 : L) params env_name use_dummy victim_idx
    victim_path victim_type transparent lb_space s :
  __init__ venv0 params env_name use_dummy victim_idx victim_path victim_type
           transparent lb_space = Ok s →
  well_formed s ∧ length (lb_dicts s) = lookback_num s ∧
  num_envs s = live_num_envs venv0 ∧ victim_index s = victim_idx ∧
  transparent = Some (transparent_params s).
Proof.
  unfold __init__. intros Hinit.
  apply bind_Ok in Hinit as (k & Hk%getfield_Ok & Hinit).
  apply bind_Ok in Hinit as (tp & Htp & Hinit).
  apply bind_Ok in Hinit as (ty & _ & Hinit).
  apply bind_Ok in Hinit as (path & _ & Hinit).
  apply bind_Ok in Hinit as (lbs & Hlbs%create_lb_dicts_ids & Hinit).
  apply bind_Ok in Hinit as (f0 & _ & Hinit).
  injection Hinit as <-. unfold well_formed. simpl.
  assert (length lbs = k) as Hlen.
  { by rewrite <- (length_map slot_id), Hlbs, length_seq. }
  rewrite length_replicate, length_seq, Hlen.
  split_and!; try done.
  destruct transparent; [|discriminate]. by injection Htp as ->.
Qed.

(** X9. A wrapper state with one episode length per lane and one debug
    file more than slots stays so under every sequence of resets and
    [step_async]/[step_wait] cycles that completes, and keeps its
    configuration: lane count, [lookback_num], transparent parameters,
    victim index and debug files are never assigned again, and the number
    of slots never changes. *)
Theorem reachable_states_well_formed (cs : list call) s s' :
  length (ep_lens s) = num_envs s →
  length (debug_files s) = length (lb_dicts s) + 1 →
  run cs s = Ok s' →
  num_envs s' = num_envs s ∧ lookback_num s' = lookback_num s ∧
  transparent_params s' = transparent_params s ∧
  victim_index s' = victim_index s ∧ debug_files s' = debug_files s ∧
  length (lb_dicts s') = length (lb_dicts s) ∧
  length (ep_lens s') = num_envs s' ∧
  length (debug_files s') = length (lb_dicts s') + 1.
Proof.
  intros Hep Hfiles Hrun.
  apply run_well_formed in Hrun as [(Hn & Hk & Htp & Hvi & Hdf) Hwf].
  destruct (Hwf (conj Hep Hfiles)) as [Hep' Hfiles'].
  split_and!; try done.
  rewrite Hdf, Hfiles in Hfiles'. lia.
Qed.

(** X30. The constructor cannot build a slot: the first iteration of
    [_create_lb_dicts] hands thunks that call [make_env] with the keyword
    [resettable] to the maker of the vectorised environment, and calls
    [EmbedVictimWrapper] with the keyword [transparent_params]; neither
    function has such a parameter.  With transparent parameters and the
    lookback parameters in place, the constructor returns only when
    [num_lb] is zero, with an empty pool and one debug file; otherwise it
    raises what the maker of the vectorised environment raises, and
    [TypeError] if that one returns. *)
Theorem init_builds_no_slot (venv0 : L) params env_name use_dummy victim_idx
    victim_path victim_type tp lb_space k ty path :
  lp_num_lb params = Some k → lp_type params = Some ty →
  lp_path params = Some path →
  match k with
  | 0 => ∃ s, __init__ (P := P) (V := V) venv0 params env_name use_dummy
                victim_idx victim_path victim_type (Some tp) lb_space = Ok s ∧
              lb_dicts s = [] ∧ debug_files s = [0]
  | S _ =>
      Forall (λ fn, fn tt = Raise TypeError)
             (replicate (live_num_envs venv0)
                        (λ _ : unit, env_fn (live_num_envs venv0 - 1))) ∧
      __init__ (P := P) (V := V) venv0 params env_name use_dummy
        victim_idx victim_path victim_type (Some tp) lb_space
      = match make_vec_env (V := V) use_dummy
                (replicate (live_num_envs venv0)
                           (λ _, env_fn (live_num_envs venv0 - 1))) with
        | Ok _ => Raise TypeError
        | Raise e => Raise e
        end
  end.
Proof.
  intros Hk Hty Hpath. unfold __init__. rewrite Hk, Hty, Hpath. simpl.
  destruct k as [|k]; simpl.
  - by eexists.
  - split; [by apply Forall_replicate|].
    unfold _create_lb_dicts. simpl.
    by destruct (make_vec_env _ _) as [[]|e].
Qed.

(** X10. [step_async] returns on every state with a non-empty pool, a debug
    file for the live environment and one per slot, and a live simulator
    state for every lane: no index it computes leaves its list. *)
Theorem step_async_returns s actions :
  lb_dicts s ≠ [] →
  length (lb_dicts s) + 1 ≤ length (debug_files s) →
  num_envs s ≤ length (live_get_state None (venv s)) →
  is_Ok (step_async s actions).
Proof.
  intros Hne Hdf Hstates. unfold step_async.
  destruct (cycle_total (lb_dicts s) Hne) as [lbs Hcycle].
  pose proof (cycle_Permutation _ _ Hcycle) as Hlen%Permutation_length.
  rewrite Hcycle. simpl.
  destruct lbs as [|nb tl].
  { destruct (lb_dicts s); [done|discriminate]. }
  simpl in Hlen. unfold getitem at 1. simpl.
  match goal with
  | |- context [for_each ?b ?xs ?v0] =>
      destruct (for_each_total (λ _, True) b xs v0) as (v & -> & _)
  end.
  { intros v e He%elem_of_seq _.
    destruct (lookup_lt_is_Some_2 (live_get_state None (venv s)) e) as [st Hst];
      [lia|].
    unfold getitem. rewrite Hst. simpl. by eexists. }
  { done. }
  simpl. rewrite drop_0.
  match goal with
  | |- context [map_enumerate ?f 0 ?xs] =>
      destruct (map_enumerate_total f xs 0) as [rest ->]
  end.
  { intros j lb Hj%lookup_lt_Some.
    destruct (lookup_lt_is_Some_2 (debug_files s) (0 + j + 2)) as [f Hf]; [lia|].
    unfold getitem. rewrite Hf. simpl. by eexists. }
  simpl. destruct (predict _ _ _ _) as [pol [lb_action new_lb_state]].
  destruct (lookup_lt_is_Some_2 (debug_files s) 1) as [f1 Hf1]; [lia|].
  unfold getitem. rewrite Hf1. simpl. by eexists.
Qed.

(** *** What [step_wait] hands back *)

(** X11. [step_wait] returns the live environment's observations, done
    flags and infos untouched; the reward array keeps its length, and only
    the entries of the [num_envs] lanes can differ from the live ones. *)
Theorem step_wait_passes_through s s' live o rw0 dn0
    (inf0 : list (gmap nat agent_info)) o' rw dn (inf : list (gmap nat agent_info)) :
  live_step_wait (venv s) = (live, (o, rw0, dn0, inf0)) →
  step_wait s = Ok (s', (o', rw, dn, inf)) →
  o' = o ∧ dn = dn0 ∧ inf = inf0 ∧ venv s' = live ∧
  length rw = length rw0 ∧
  ∀ e, num_envs s ≤ e → rw !! e = rw0 !! e.
Proof.
  intros Hlive Hwait. unfold step_wait in Hwait. rewrite Hlive in Hwait.
  apply bind_Ok in Hwait as (s2 & Hlb & Hwait).
  apply bind_Ok in Hwait as (ep & Hep & Hwait).
  apply bind_Ok in Hwait as ([s3 rw3] & Hloop & Hwait).
  injection Hwait as <- <- <- <- <-.
  apply process_lb_data_fields in Hlb as ((Hn & _) & _ & Hdn & Hv & _).
  destruct (process_own_obs_fields (with_dones (with_venv s live) dn0) o)
    as ((Hn1 & _) & _ & Hdn1 & Hv1).
  simpl in *.
  pose proof Hloop as [_ Hlen]%lanes_loop_config.
  apply lanes_loop_spec in Hloop as (Hframe & Hother & _); [|apply NoDup_seq].
  destruct Hframe as (_ & _ & _ & _ & Hdones & _ & Hvenv & _). simpl in *.
  split_and!; try done.
  - by rewrite Hdones, Hdn, Hdn1.
  - by rewrite Hvenv, Hv, Hv1.
  - intros e He. apply Hother. rewrite elem_of_seq, Hn, Hn1. simpl. lia.
Qed.

(** X12. With ['ff'] among the transparent parameters the bonus of a lane
    has exactly [min ep_len K] terms, [K] the number of slots: a lane whose
    episode is at least [K] steps old is compared with every slot, a
    younger one with as many slots as it has steps. *)
Theorem bonus_term_count s s' live o rw0 dn0 (inf0 : list (gmap nat agent_info))
    o' rw dn (inf : list (gmap nat agent_info)) :
  "ff" ∈ transparent_params s →
  live_step_wait (venv s) = (live, (o, rw0, dn0, inf0)) →
  step_wait s = Ok (s', (o', rw, dn, inf)) →
  ∀ e, e < num_envs s →
    ∃ r0 ep_len vi dists,
      rw0 !! e = Some r0 ∧ ep_lens s' !! e = Some ep_len ∧
      bonus_terms s' e vi ep_len dists ∧
      rw !! e = Some (add r0 (mul coef (foldl add zero dists))) ∧
      length dists = ep_len `min` length (lb_dicts s).
Proof.
  intros Hff Hlive Hwait e He.
  pose proof (step_wait_slot_ids _ _ _ Hwait) as Hids.
  apply step_wait_inv in Hwait
    as (live' & rw0' & dn0' & sA & Hlive' & Hsetup & _ & _ & _ & Hloop & _).
  rewrite Hlive in Hlive'. injection Hlive' as <- <- <- <- <-.
  apply lanes_loop_spec in Hloop as (Hframe & _ & Hlanes & _); [|apply NoDup_seq].
  destruct (Hlanes e) as (r0 & ep_len & vi & dists & Hr0 & _ & Hlen & Hvi & Hterms & Hrw).
  { apply elem_of_seq. lia. }
  pose proof Hframe as (_ & Htp & _ & Hep & _).
  destruct Hsetup as (_ & _ & Htp' & _).
  apply (bonus_terms_frame _ _ _ _ _ _ Hframe) in Hterms.
  exists r0, ep_len, vi, dists.
  split; [done|]. split; [by rewrite Hep|]. split; [done|]. split; [done|].
  unfold bonus_terms in Hterms.
  rewrite decide_True in Hterms by (by rewrite Htp, Htp').
  apply Forall2_length in Hterms. rewrite <- Hterms, length_take.
  unfold cached_infos. rewrite length_map.
  by rewrite <- (slot_ids_length s'), Hids, slot_ids_length.
Qed.

(** *** The ring *)

Lemma cycle_app_last {A} (front : list A) (x : A) :
  cycle (front ++ [x]) = Ok (x :: front).
Proof.
  unfold cycle, get_last. rewrite last_snoc. simpl. rewrite length_app. simpl.
  replace (length front + 1 - 1) with (length front) by lia.
  by rewrite take_app_length.
Qed.

Lemma cycle_Ok_inv {A} (l l' : list A) :
  cycle l = Ok l' → ∃ front x, l = front ++ [x] ∧ l' = x :: front.
Proof.
  intros Hcycle. destruct (decide (l = [])) as [->|Hne]; [discriminate|].
  destruct (exists_last Hne) as (front & x & ->).
  rewrite cycle_app_last in Hcycle. injection Hcycle as <-. by exists front, x.
Qed.

Lemma cycle_map {A B} (f : A → B) (l l' : list A) :
  cycle l = Ok l' → cycle (map f l) = Ok (map f l').
Proof.
  intros (front & x & -> & ->)%cycle_Ok_inv.
  rewrite map_app. simpl. apply cycle_app_last.
Qed.

Lemma cycles_app {A} (b : list A) : ∀ a,
  cycles (length b) (a ++ b) = Ok (b ++ a).
Proof.
  induction b as [|x b IH] using rev_ind; intros a.
  - simpl. by rewrite app_nil_r.
  - rewrite length_app. simpl. replace (length b + 1) with (S (length b)) by lia.
    simpl. rewrite app_assoc, cycle_app_last. simpl.
    change (x :: a ++ b) with ((x :: a) ++ b).
    rewrite (IH (x :: a)). by rewrite <- app_assoc.
Qed.

Lemma run_cycles cs : ∀ s s',
  run cs s = Ok s' → cycles (steps_in cs) (slot_ids s) = Ok (slot_ids s').
Proof.
  induction cs as [|c cs IH]; intros s s' Hrun.
  - simpl in *. by injection Hrun as <-.
  - destruct c as [|actions]; simpl in Hrun.
    + apply bind_Ok in Hrun as ([s1 o] & Hreset & Hrun).
      apply reset_slot_ids in Hreset.
      change (steps_in (CallReset :: cs)) with (steps_in cs).
      rewrite <- Hreset. by apply IH.
    + apply bind_Ok in Hrun as (s1 & Hasync & Hrun).
      apply bind_Ok in Hrun as ([s2 out] & Hwait & Hrun).
      apply step_wait_slot_ids in Hwait.
      apply step_async_slot_ids in Hasync as (l & Hcycle & Hids).
      change (cycles (steps_in (CallStep actions :: cs)) (slot_ids s))
        with (cycle (slot_ids s) ≫= cycles (steps_in cs)).
      unfold slot_ids at 1. rewrite (cycle_map _ _ _ Hcycle).
      change (cycles (steps_in cs) (map slot_id l) = Ok (slot_ids s')).
      rewrite <- Hids, <- Hwait. by apply IH.
Qed.

(** X13. The ring has period [K]: every cycle moves the slot at the last
    offset to offset 0 and every other slot one offset up, so after as many
    cycles as there are slots (resets in between do not count) each slot
    is back at the offset it had. *)
Theorem ring_period (cs : list call) s s' :
  run cs s = Ok s' → steps_in cs = length (lb_dicts s) →
  slot_ids s' = slot_ids s.
Proof.
  intros Hcycles%run_cycles Hlen.
  rewrite Hlen, <- slot_ids_length in Hcycles.
  pose proof (cycles_app (slot_ids s) []) as Hperiod. simpl in Hperiod.
  rewrite app_nil_r in Hperiod. congruence.
Qed.

Lemma seed_loop_spec (states : list sim_state) n : ∀ i (v v' : V),
  for_each (λ v env_idx, st ← getitem states env_idx;
                         Ok (shadow_set_state env_idx st None v))
           (seq i n) v = Ok v' →
  v' = foldl (λ v '(env_idx, st), shadow_set_state env_idx st None v) v
             (zip (seq i n) (drop i states)).
Proof.
  induction n as [|n IH]; simpl; intros i v v' Hrun.
  - by injection Hrun as <-.
  - apply bind_Ok in Hrun as (v1 & Hv1 & Hrun).
    apply bind_Ok in Hv1 as (st & Hst%getitem_Ok & Hv1). injection Hv1 as <-.
    apply IH in Hrun as ->.
    rewrite (drop_S _ _ _ Hst). done.
Qed.

(** X14. What [step_async] does to the slots.  The slot at the last offset
    moves to offset 0: its simulator is overwritten lane by lane with the
    live states and stepped with the action our policy predicts now, and
    its cached recurrent state becomes the policy's new state.  Every
    other slot moves one offset up and is stepped with its own cached
    action, writing to debug file [offset + 1].  No cached action, reward
    or info is changed. *)
Theorem step_async_moves_slots s actions s1 :
  step_async s actions = Ok s1 →
  ∃ front oldest pol lb_action f1 nb,
    lb_dicts s = front ++ [oldest] ∧
    predict (_policy s) (_obs s) (_new_lb_state s) (Some (_dones s))
      = (pol, (lb_action, _new_lb_state s1)) ∧
    debug_files s !! 1 = Some f1 ∧
    lb_dicts s1 !! 0 = Some nb ∧
    slot_id nb = slot_id oldest ∧
    data nb = mk_data (_new_lb_state s1) (d_action (data oldest))
                (d_reward (data oldest)) (d_info (data oldest)) ∧
    lt_venv nb =
      shadow_step_async (Some lb_action)
        (shadow_set_debug_file f1
           (seed_lanes (live_get_state None (venv s)) (num_envs s)
              (shadow_set_obs (live_get_obs (venv s)) None (lt_venv oldest)))) ∧
    ∀ i lb, front !! i = Some lb →
      ∃ f, debug_files s !! (i + 2) = Some f ∧
           lb_dicts s1 !! (S i) =
             Some (set_venv lb (shadow_step_async (d_action (data lb))
                                  (shadow_set_debug_file f (lt_venv lb)))).
Proof.
  unfold step_async. intros Hrun.
  apply bind_Ok in Hrun as (lbs & (front & oldest & Hlbs & ->)%cycle_Ok_inv & Hrun).
  apply bind_Ok in Hrun as (nb0 & [= <-] & Hrun).
  apply bind_Ok in Hrun as (v & Hv%seed_loop_spec & Hrun).
  apply bind_Ok in Hrun as (rest & [_ Hrest]%map_enumerate_lookup & Hrun).
  destruct (predict _ _ _ _) as [pol [lb_action new_lb_state]] eqn:Hpredict.
  apply bind_Ok in Hrun as (f1 & Hf1%getitem_Ok & Hrun). injection Hrun as <-.
  simpl. rewrite drop_0 in *.
  eexists front, oldest, pol, lb_action, f1, _.
  split; [done|]. split; [done|]. split; [done|]. split; [reflexivity|].
  simpl. split; [done|]. split; [done|]. split; [by rewrite Hv|].
  intros i lb Hi. destruct (Hrest i lb Hi) as (lb' & Hlb' & Hstep).
  simpl in Hstep. apply bind_Ok in Hstep as (f & Hf%getitem_Ok & Hstep).
  injection Hstep as <-. by exists f.
Qed.

(** *** A full reset *)

Lemma reset_slot_all_spec s action state cobs states fulls radii lb lb' :
  reset_slot s None action state cobs states fulls radii lb = Ok lb' →
  slot_id lb' = slot_id lb ∧
  data lb' = mk_data state (Some action)
               (map (λ r, mul r zero) (d_reward (data lb))) ∅.
Proof.
  unfold reset_slot. intros Hrun.
  apply bind_Ok in Hrun as ([v d] & Hd & Hrun).
  apply bind_Ok in Hrun as (v' & _ & Hrun). injection Hrun as <-. simpl.
  destruct (shadow_reset (lt_venv lb)) as [v0 o]. by injection Hd as _ <-.
Qed.

(** X15. [reset] returns the live environment's observations and gives
    every slot the same cache: the action and the recurrent state that the
    policy predicts from scratch (no state, no mask) on those observations
    after it has processed them for our own agent, an empty info dict, and
    its rewards multiplied by zero.  It keeps the ring order and it does
    not reset the episode lengths. *)
Theorem reset_fills_every_cache s s' o :
  reset s = Ok (s', o) →
  (live_reset (venv s)).2 = o ∧
  ep_lens s' = ep_lens s ∧ slot_ids s' = slot_ids s ∧
  _obs s' = Some (_get_truncated_obs s o) ∧
  let s1 := _process_own_obs (with_venv s (live_reset (venv s)).1) o in
  ∃ pol action state,
    predict (_policy s1) (Some (_get_truncated_obs s1 o)) None None
      = (pol, (action, state)) ∧
    Forall2 (λ lb lb',
               data lb' = mk_data state (Some action)
                            (map (λ r, mul r zero) (d_reward (data lb))) ∅)
            (lb_dicts s) (lb_dicts s').
Proof.
  intros Hrun. pose proof (reset_slot_ids _ _ _ Hrun) as Hids.
  revert Hids. unfold reset in Hrun.
  destruct (live_reset (venv s)) as [live o0].
  apply bind_Ok in Hrun as (s1 & Hs1 & Hrun). injection Hrun as <- <-.
  intros Hids. pose proof (reset_state_data_config _ _ _ _ Hs1)
    as (_ & Hep & _ & _ & Hobs & _).
  unfold _reset_state_data in Hs1.
  destruct (predict (_policy (_process_own_obs _ _)) _ _ _)
    as [pol [action state]] eqn:Hpredict.
  apply bind_Ok in Hs1 as (lbs & Hlbs & Hs1). injection Hs1 as <-.
  cbv zeta. simpl fst.
  split; [done|]. split.
  { clear. simpl. unfold _process_own_obs.
    by destruct (predict _ _ _ _) as [pol' [a r]]. }
  split; [done|]. split.
  { clear. simpl. unfold _process_own_obs, _get_truncated_obs. simpl.
    by destruct (predict _ _ _ _) as [pol' [a r]]. }
  exists pol, action, state. split; [exact Hpredict|].
  simpl in *.
  rewrite process_own_obs_lb_dicts in Hlbs. simpl in Hlbs.
  eapply map_enumerate_Forall2; [|exact Hlbs].
  intros i lb lb' _ Hlb. simpl in Hlb.
  by apply reset_slot_all_spec in Hlb as [_ ->].
Qed.
End lookback.

(** *** On the demonstration world *)

Lemma reachable_states_well_formed_witness :
  ∃ s,
    run (Demo.calls 3) (Demo.with_slots 2 {[ "ff" ]}) = Ok s ∧
    num_envs s = 2 ∧ length (ep_lens s) = num_envs s ∧
    debug_files s = [0; 1; 2] ∧ length (lb_dicts s) = 2.
Proof.
  run_to (run (Demo.calls 3) (Demo.with_slots 2 {[ "ff" ]})) ltac:(fun s =>
    exists s;
    assert (run (Demo.calls 3) (Demo.with_slots 2 {[ "ff" ]}) = Ok s) as Hrun
      by by_computation;
    pose proof (reachable_states_well_formed (Demo.calls 3)
                  (Demo.with_slots 2 {[ "ff" ]}) s eq_refl eq_refl Hrun)
      as (Hn & _ & _ & _ & Hdf & Hlen & Hep & _)).
  split; [exact Hrun|]. split; [exact Hn|]. split; [exact Hep|].
  split; [exact Hdf|exact Hlen].
Defined.

Lemma init_builds_no_slot_witness :
  Demo.make 2 (Some {[ "ff" ]}) = Raise TypeError ∧
  LookbackRewardVecWrapper.__init__ Demo.live0 (Demo.params 2)
    "multicomp/SumoAnts-v0" false 0 "1" "zoo" (Some {[ "ff" ]}) 1
    = Raise TypeError ∧
  ∃ s, Demo.make 0 (Some {[ "ff" ]}) = Ok s ∧
       lb_dicts s = [] ∧ debug_files s = [0].
Proof.
  split; [|split].
  - destruct (init_builds_no_slot (P := unit) (V := Demo.sim) Demo.live0
                (Demo.params 2) "multicomp/SumoAnts-v0" true 0 "1" "zoo"
                {[ "ff" ]} 1 2 "ppo2" "model.pkl" eq_refl eq_refl eq_refl)
      as [_ Hraise].
    etrans; [exact Hraise|vm_compute; reflexivity].
  - destruct (init_builds_no_slot (P := unit) (V := Demo.sim) Demo.live0
                (Demo.params 2) "multicomp/SumoAnts-v0" false 0 "1" "zoo"
                {[ "ff" ]} 1 2 "ppo2" "model.pkl" eq_refl eq_refl eq_refl)
      as [_ Hraise].
    etrans; [exact Hraise|vm_compute; reflexivity].
  - exact (init_builds_no_slot (P := unit) (V := Demo.sim) Demo.live0
             (Demo.params 0) "multicomp/SumoAnts-v0" true 0 "1" "zoo"
             {[ "ff" ]} 1 0 "ppo2" "model.pkl" eq_refl eq_refl eq_refl).
Defined.

Lemma step_async_returns_witness :
  ∃ s, Demo.after 2 {[ "ff" ]} 1 = Ok s ∧ is_Ok (step_async s [1; 1]%Z).
Proof.
  run_to (Demo.after 2 {[ "ff" ]} 1) ltac:(fun s =>
    exists s; split; [by_computation|];
    apply (step_async_returns s [1; 1]%Z)).
  - discriminate.
  - vm_compute. lia.
  - vm_compute. lia.
Defined.

Lemma step_wait_passes_through_witness :
  ∃ s live o rw0 dn0 inf0 s' o' rw dn inf,
    live_step_wait (venv s) = (live, (o, rw0, dn0, inf0)) ∧
    step_wait s = Ok (s', (o', rw, dn, inf)) ∧
    o' = o ∧ dn = dn0 ∧ inf = inf0 ∧ length rw = length rw0.
Proof.
  run_to (Demo.after 2 {[ "ff" ]} 1 ≫= λ s, step_async s [1; 1]%Z) ltac:(fun s =>
    live_step_to s ltac:(fun live o rw0 dn0 inf0 =>
      step_wait_to s ltac:(fun s' o' rw dn inf =>
        exists s, live, o, rw0, dn0, inf0, s', o', rw, dn, inf;
        assert (live_step_wait (venv s) = (live, (o, rw0, dn0, inf0))) as Hlive
          by by_computation;
        assert (step_wait s = Ok (s', (o', rw, dn, inf))) as Hwait
          by by_computation;
        pose proof (step_wait_passes_through s s' live o rw0 dn0 inf0 o' rw dn inf
                      Hlive Hwait) as (Ho & Hdn & Hinf & _ & Hlen & _)))).
  split; [exact Hlive|]. split; [exact Hwait|]. split; [exact Ho|].
  split; [exact Hdn|]. split; [exact Hinf|exact Hlen].
Defined.

Lemma bonus_term_count_witness :
  ∃ s live o rw0 dn0 inf0 s' o' rw dn inf,
    "ff" ∈ transparent_params s ∧
    live_step_wait (venv s) = (live, (o, rw0, dn0, inf0)) ∧
    step_wait s = Ok (s', (o', rw, dn, inf)) ∧
    ep_lens s' = [4; 4] ∧ length (lb_dicts s) = 2 ∧
    ∃ r0 ep_len vi dists,
      rw0 !! 0 = Some r0 ∧ ep_lens s' !! 0 = Some ep_len ∧
      bonus_terms s' 0 vi ep_len dists ∧
      rw !! 0 = Some (add r0 (mul coef (foldl add zero dists))) ∧
      length dists = ep_len `min` length (lb_dicts s).
Proof.
  run_to (run (Demo.calls 3)
                (Demo.with_slots_on (Demo.mk_sim [0; 0]%Z [] 1 100 None) 2
                                    {[ "ff" ]})
          ≫= λ s, step_async s [1; 1]%Z) ltac:(fun s =>
    live_step_to s ltac:(fun live o rw0 dn0 inf0 =>
      step_wait_to s ltac:(fun s' o' rw dn inf =>
        exists s, live, o, rw0, dn0, inf0, s', o', rw, dn, inf;
        assert ("ff" ∈ transparent_params s) as Hff
          by (apply demo_has_ff; by_computation);
        assert (live_step_wait (venv s) = (live, (o, rw0, dn0, inf0))) as Hlive
          by by_computation;
        assert (step_wait s = Ok (s', (o', rw, dn, inf))) as Hwait
          by by_computation;
        assert (0 < num_envs s) as Hlane by (vm_compute; lia);
        pose proof (bonus_term_count s s' live o rw0 dn0 inf0 o' rw dn inf
                      Hff Hlive Hwait 0 Hlane) as Hcount))).
  split; [exact Hff|]. split; [exact Hlive|]. split; [exact Hwait|].
  split; [reflexivity|]. split; [reflexivity|]. exact Hcount.
Defined.

Lemma ring_period_witness :
  ∃ s s',
    Demo.after 2 {[ "ff" ]} 1 = Ok s ∧
    run [CallStep [1; 1]%Z; CallReset; CallStep [1; 1]%Z] s = Ok s' ∧
    slot_ids s = [1; 0] ∧ slot_ids s' = slot_ids s.
Proof.
  run_to (Demo.after 2 {[ "ff" ]} 1) ltac:(fun s =>
    run_to (run [CallStep [1; 1]%Z; CallReset; CallStep [1; 1]%Z] s) ltac:(fun s' =>
      exists s, s';
      assert (run [CallStep [1; 1]%Z; CallReset; CallStep [1; 1]%Z] s = Ok s')
        as Hrun by by_computation;
      pose proof (ring_period [CallStep [1; 1]%Z; CallReset; CallStep [1; 1]%Z]
                    s s' Hrun eq_refl) as Hperiod)).
  split; [by_computation|]. split; [exact Hrun|]. split; [reflexivity|].
  exact Hperiod.
Defined.

Lemma step_async_moves_slots_witness :
  ∃ s s1,
    Demo.after 2 {[ "ff" ]} 1 = Ok s ∧ step_async s [1; 1]%Z = Ok s1 ∧
    slot_ids s = [1; 0] ∧ slot_ids s1 = [0; 1] ∧
    map (λ lb, d_action (data lb)) (lb_dicts s1)
      = rev (map (λ lb, d_action (data lb)) (lb_dicts s)).
Proof.
  run_to (Demo.after 2 {[ "ff" ]} 1) ltac:(fun s =>
    run_to (step_async s [1; 1]%Z) ltac:(fun s1 =>
      exists s, s1;
      assert (step_async s [1; 1]%Z = Ok s1) as Hasync by by_computation;
      pose proof (step_async_moves_slots s [1; 1]%Z s1 Hasync) as Hmoves)).
  split; [by_computation|]. split; [exact Hasync|].
  split; [reflexivity|]. split; reflexivity.
Defined.

Lemma reset_fills_every_cache_witness :
  ∃ s s' o,
    Demo.after 2 {[ "ff" ]} 2 = Ok s ∧ reset s = Ok (s', o) ∧
    ep_lens s = [2; 2] ∧ ep_lens s' = ep_lens s ∧
    map (λ lb, d_info (data lb)) (lb_dicts s') = [∅; ∅].
Proof.
  run_to (Demo.after 2 {[ "ff" ]} 2) ltac:(fun s =>
    let v := eval vm_compute in (reset s) in
    match v with
    | Ok (?s', ?o) =>
        exists s, s', o;
        assert (reset s = Ok (s', o)) as Hreset by by_computation;
        pose proof (reset_fills_every_cache s s' o Hreset) as (_ & Hep & _)
    end).
  split; [by_computation|]. split; [exact Hreset|]. split; [reflexivity|].
  split; [exact Hep|reflexivity].
Defined.
End LookbackFacts.

(* ===================================================================== *)
(** * What the lookback wrapper caches of the slots' infos *)
(* ===================================================================== *)

(** A loop over distinct items: what holds before the body runs on [x],
    what the body establishes there, and what the rest keeps. *)
Lemma for_each_before_after {S X} (P Q : S → Prop) (body : S → X → result S)
    (x : X) xs s s' :
  NoDup xs → x ∈ xs →
  (∀ y s s', y ≠ x → y ∈ xs → P s → body s y = Ok s' → P s') →
  (∀ s s', P s → body s x = Ok s' → Q s') →
  (∀ y s s', y ≠ x → y ∈ xs → Q s → body s y = Ok s' → Q s') →
  P s → for_each body xs s = Ok s' → Q s'.
Proof.
  revert s. induction xs as [|y xs IH]; simpl;
    intros s Hnodup Hin Hpre Hx Hpost Hs Hrun.
  - by apply elem_of_nil in Hin.
  - apply NoDup_cons in Hnodup as [Hy Hnodup].
    apply bind_Ok in Hrun as (s1 & Hbody & Hrun).
    apply elem_of_cons in Hin as [->|Hin].
    + apply (Hx _ _ Hs) in Hbody. revert Hrun.
      apply (for_each_invariant Q); [|done].
      intros s2 z s3 Hz Hs2 Hz'. eapply (Hpost z); [|by right|done..].
      intros ->. done.
    + eapply (IH s1); [done|done| | | | |exact Hrun].
      * intros z s2 s3 Hne Hz. apply Hpre; [done|by right].
      * done.
      * intros z s2 s3 Hne Hz. apply Hpost; [done|by right].
      * eapply (Hpre y); [|by left|done..]. intros ->. done.
Qed.

Lemma elem_of_zip_seq {A} (l : list A) j x :
  (j, x) ∈ zip (seq 0 (length l)) l ↔ l !! j = Some x.
Proof.
  rewrite list_elem_of_lookup. split.
  - intros (k & Hk). apply lookup_zip_with_Some in Hk as (a & b & [= -> ->] & Ha & Hb).
    apply lookup_seq in Ha as [-> _]. done.
  - intros Hj. exists j. apply lookup_zip_with_Some. exists j, x.
    split; [done|]. split; [|done].
    apply lookup_seq. split; [done|]. by eapply lookup_lt_Some.
Qed.

Lemma NoDup_zip_seq {A} (l : list A) : NoDup (zip (seq 0 (length l)) l).
Proof.
  apply NoDup_alt. intros i j [k x] Hi Hj.
  apply lookup_zip_with_Some in Hi as (a & b & [= -> ->] & Ha & _).
  apply lookup_zip_with_Some in Hj as (a' & b' & [= -> _] & Ha' & _).
  apply lookup_seq in Ha as [-> _]. apply lookup_seq in Ha' as [Heq _].
  simpl in *. lia.
Qed.

Lemma for_each_app {S X} (body : S → X → result S) xs ys s :
  for_each body (xs ++ ys) s = for_each body xs s ≫= for_each body ys.
Proof.
  revert s. induction xs as [|x xs IH]; intros s; simpl; [done|].
  destruct (body s x) as [s1|e]; simpl; [apply IH|done].
Qed.

Module LookbackCacheFacts.
Import LookbackRewardVecWrapper.
Import LookbackSpec.
Section lookback.
Context `{D : Domain} {P L V : Type}.
Context `{!Numeric D, !Policy P, !LiveEnv L, !ShadowEnv V}.
Implicit Types (s : t P L V) (lb : LookbackTuple V).

(** The loop over the lanes in [_process_lb_data]. *)
Lemma update_lanes_spec (lb_info : list (gmap nat agent_info)) n :
  ∀ (info0 info : gmap nat (gmap nat agent_info)),
  for_each (λ info env_idx,
              new ← getitem lb_info env_idx; Ok (update_info info env_idx new))
           (seq 0 n) info0 = Ok info →
  ∀ e, if decide (e < n)
       then ∃ new, lb_info !! e = Some new ∧
                   info !! e = Some (new ∪ default ∅ (info0 !! e))
       else info !! e = info0 !! e.
Proof.
  induction n as [|n IH]; intros info0 info Hrun e.
  - injection Hrun as <-. by rewrite decide_False by lia.
  - rewrite seq_S, for_each_app in Hrun. simpl in Hrun.
    apply bind_Ok in Hrun as (info1 & H1 & Hrun).
    apply bind_Ok in Hrun as (info2 & Hlast & Hrun). injection Hrun as <-.
    apply bind_Ok in Hlast as (new & Hnew%getitem_Ok & Hlast).
    injection Hlast as <-.
    pose proof (IH _ _ H1 e) as He. pose proof (IH _ _ H1 n) as Hn.
    rewrite decide_False in Hn by lia. unfold update_info.
    destruct (decide (e = n)) as [->|Hne].
    + rewrite decide_True by lia. exists new. split; [done|].
      by rewrite lookup_insert_eq, Hn.
    + rewrite lookup_insert_ne by done.
      destruct (decide (e < n)) as [Hlt|Hge].
      * by rewrite decide_True by lia.
      * by rewrite decide_False by lia.
Qed.

(** What [_process_lb_data] caches for the slot at one offset. *)
Lemma process_lb_data_info s lb_data s' i lb lb_obs lb_reward lb_dones
    (lb_info : list (gmap nat agent_info)) :
  _process_lb_data s lb_data = Ok s' →
  lb_dicts s !! i = Some lb →
  lb_data !! i = Some (lb_obs, lb_reward, lb_dones, lb_info) →
  ∃ lb', lb_dicts s' !! i = Some lb' ∧
         for_each (λ info env_idx,
                     new ← getitem lb_info env_idx;
                     Ok (update_info info env_idx new))
                  (seq 0 (num_envs s)) (d_info (data lb))
         = Ok (d_info (data lb')).
Proof.
  unfold _process_lb_data. intros Hrun Hlb Hdata.
  revert Hrun.
  apply (for_each_before_after
           (λ s1, num_envs s1 = num_envs s ∧
                  ∃ lb1, lb_dicts s1 !! i = Some lb1 ∧
                         d_info (data lb1) = d_info (data lb))
           (λ s1, ∃ lb', lb_dicts s1 !! i = Some lb' ∧
                    for_each (λ info env_idx,
                                new ← getitem lb_info env_idx;
                                Ok (update_info info env_idx new))
                             (seq 0 (num_envs s)) (d_info (data lb))
                    = Ok (d_info (data lb')))
           _ (i, (lb_obs, lb_reward, lb_dones, lb_info))).
  - apply NoDup_zip_seq.
  - by apply elem_of_zip_seq.
  - intros [j [[[o1 r1] d1] i1]] s1 s2 Hne Hin [Hn (lb1 & Hlb1 & Hinfo1)] Hbody.
    apply elem_of_zip_seq in Hin.
    assert (j ≠ i) as Hji.
    { intros ->. apply Hne.
      assert (Some (o1, r1, d1, i1) = Some (lb_obs, lb_reward, lb_dones, lb_info))
        as Heq by (etrans; [symmetry; exact Hin|exact Hdata]).
      by injection Heq as -> -> -> ->. }
    apply bind_Ok in Hbody as (lbj & _ & Hbody).
    destruct (predict _ _ _ _) as [pol [a r]].
    apply bind_Ok in Hbody as (info & _ & Hbody).
    apply bind_Ok in Hbody as (lbs & [Hidx ->]%setitem_Ok & Hbody).
    injection Hbody as <-. simpl. split; [done|].
    exists lb1. by rewrite list_lookup_insert_ne.
  - intros s1 s2 [Hn (lb1 & Hlb1 & Hinfo1)] Hbody.
    apply bind_Ok in Hbody as (lbi & Hlbi%getitem_Ok & Hbody).
    destruct (predict _ _ _ _) as [pol [a r]].
    apply bind_Ok in Hbody as (info & Hinfo & Hbody).
    apply bind_Ok in Hbody as (lbs & [Hidx ->]%setitem_Ok & Hbody).
    injection Hbody as <-. simpl.
    rewrite Hlb1 in Hlbi. injection Hlbi as <-.
    eexists. rewrite list_lookup_insert_eq by done. split; [done|]. simpl.
    by rewrite <- Hn, <- Hinfo1.
  - intros [j [[[o1 r1] d1] i1]] s1 s2 Hne Hin (lb' & Hlb' & Hinfo') Hbody.
    apply elem_of_zip_seq in Hin.
    assert (j ≠ i) as Hji.
    { intros ->. apply Hne.
      assert (Some (o1, r1, d1, i1) = Some (lb_obs, lb_reward, lb_dones, lb_info))
        as Heq by (etrans; [symmetry; exact Hin|exact Hdata]).
      by injection Heq as -> -> -> ->. }
    apply bind_Ok in Hbody as (lbj & _ & Hbody).
    destruct (predict _ _ _ _) as [pol [a r]].
    apply bind_Ok in Hbody as (info & _ & Hbody).
    apply bind_Ok in Hbody as (lbs & [Hidx ->]%setitem_Ok & Hbody).
    injection Hbody as <-. simpl.
    exists lb'. by rewrite list_lookup_insert_ne.
  - split; [done|]. by exists lb.
Qed.

(** X16. What [step_wait] caches of a slot's infos: for every lane, the
    dict that the slot's environment has just reported for the lane, laid
    over what was cached for that lane before.  Entries of agents that
    the report does not mention stay as they were, also in lanes whose
    episode has just ended; what is cached under numbers from [num_envs]
    on is not touched. *)
Theorem step_wait_merges_infos s s' out i lb v lb_obs lb_reward lb_dones
    (lb_info : list (gmap nat agent_info)) :
  step_wait s = Ok (s', out) →
  lb_dicts s !! i = Some lb →
  shadow_step_wait (lt_venv lb) = (v, (lb_obs, lb_reward, lb_dones, lb_info)) →
  ∃ cached,
    cached_infos s' !! i = Some cached ∧
    ∀ e, if decide (e < num_envs s)
         then ∃ new, lb_info !! e = Some new ∧
                     cached !! e = Some (new ∪ default ∅ (d_info (data lb) !! e))
         else cached !! e = d_info (data lb) !! e.
Proof.
  unfold step_wait. intros Hrun Hlb Hshadow.
  destruct (live_step_wait (venv s)) as [live [[[o0 rw0] dn0] inf0]].
  apply bind_Ok in Hrun as (s2 & Hdata & Hrun).
  apply bind_Ok in Hrun as (ep & Hep & Hrun).
  apply bind_Ok in Hrun as ([s3 rw3] & Hloop & Hrun).
  injection Hrun as <- <-.
  apply lanes_loop_spec in Hloop as (Hframe & _); [|apply NoDup_seq].
  destruct Hframe as (_ & _ & _ & _ & _ & _ & _ & _ & Hcached).
  rewrite Hcached. unfold cached_infos. simpl.
  rewrite process_own_obs_lb_dicts in Hdata. simpl in Hdata.
  destruct (process_own_obs_fields (with_dones (with_venv s live) dn0) o0)
    as ((Hn & _) & _). simpl in Hn.
  apply (process_lb_data_info _ _ _ i (set_venv lb v) lb_obs lb_reward lb_dones lb_info)
    in Hdata as (lb' & Hlb' & Hinfo).
  - exists (d_info (data lb')). split; [by rewrite list_lookup_fmap, Hlb'|].
    intros e. simpl in Hinfo. rewrite Hn in Hinfo.
    exact (update_lanes_spec _ _ _ _ Hinfo e).
  - simpl. rewrite !list_lookup_fmap, Hlb. simpl. by rewrite Hshadow.
  - rewrite !list_lookup_fmap, Hlb. simpl. by rewrite Hshadow.
Qed.
End lookback.

(** *** On the demonstration world *)

Lemma step_wait_merges_infos_witness :
  ∃ s s' out lb v lb_obs lb_reward lb_dones lb_info,
    step_wait s = Ok (s', out) ∧ lb_dicts s !! 0 = Some lb ∧
    shadow_step_wait (lt_venv lb) = (v, (lb_obs, lb_reward, lb_dones, lb_info)) ∧
    num_envs s = 2 ∧
    ∃ cached,
      cached_infos s' !! 0 = Some cached ∧
      ∀ e, if decide (e < num_envs s)
           then ∃ new, lb_info !! e = Some new ∧
                       cached !! e = Some (new ∪ default ∅ (d_info (data lb) !! e))
           else cached !! e = d_info (data lb) !! e.
Proof.
  run_to (Demo.after 2 {[ "ff" ]} 1 ≫= λ s, step_async s [1; 1]%Z) ltac:(fun s =>
    let sw := eval vm_compute in (step_wait s) in
    let l := eval vm_compute in (lb_dicts s !! 0) in
    match sw with
    | Ok (?s', ?out) =>
        match l with
        | Some ?lb =>
            let sh := eval vm_compute in (shadow_step_wait (lt_venv lb)) in
            match sh with
            | (?v, (?o, ?r, ?d, ?inf)) =>
                exists s, s', out, lb, v, o, r, d, inf;
                assert (step_wait s = Ok (s', out)) as Hwait by by_computation;
                assert (lb_dicts s !! 0 = Some lb) as Hlb by by_computation;
                assert (shadow_step_wait (lt_venv lb) = (v, (o, r, d, inf)))
                  as Hshadow by by_computation;
                pose proof (step_wait_merges_infos s s' out 0 lb v o r d inf
                              Hwait Hlb Hshadow) as Hmerge
            end
        end
    end).
  split; [exact Hwait|]. split; [exact Hlb|]. split; [exact Hshadow|].
  split; [reflexivity|]. exact Hmerge.
Defined.
End LookbackCacheFacts.

(* ===================================================================== *)
(** * Properties of the video wrapper *)
(* ===================================================================== *)

Module VideoWrapperFacts.
Import VideoWrapper.

Section video.
Context {E Act Obs Rew IV : Type} `{!GymEnv E Act Obs Rew IV}.
Implicit Types (w : t E) (rec : VideoRecorder E).

(** X17. Stepping a wrapper that has no recorder yet, as before the
    first [reset], raises [AttributeError] unless that very step ends the
    episode. *)
Theorem step_before_reset w action e obs rew done info :
  video_recorder w = None →
  env_step action (env w) = (e, (obs, rew, done, info)) →
  if done then is_Ok (_step w action)
  else _step w action = Raise (AttributeError "NoneType" "capture_frame").
Proof.
  intros Hnone Hstep. unfold _step. rewrite Hstep.
  destruct done; simpl.
  - by eexists.
  - by rewrite Hnone.
Qed.

(** X18. The step that ends an episode closes the recording of that
    episode before it captures its frame: the closed recording keeps its
    path and episode number, gains the list of agents whose info has a
    [winner] entry, and does not contain the last frame. *)
Theorem finished_episode_recording w action w' obs rew info rec :
  video_recorder w = Some rec →
  _step w action = Ok (w', (obs, rew, true, info)) →
  ∃ rec', closed w' = closed w ++ [rec'] ∧
          base_path rec' = base_path rec ∧ frames rec' = frames rec ∧
          metadata rec' !! "winners" = Some (MetaList (winners info)) ∧
          ∀ k, k ≠ "winners" → metadata rec' !! k = metadata rec !! k.
Proof.
  intros Hrec. unfold _step.
  destruct (env_step action (env w)) as [e [[[o r] dn] i]].
  destruct dn; simpl.
  - unfold _reset_video_recorder. simpl. rewrite Hrec. intros [= <- <- <- <-].
    eexists. split; [done|]. simpl. split; [done|]. split; [done|]. split.
    + rewrite lookup_union_l'; [by rewrite lookup_singleton_eq|].
      rewrite lookup_singleton_eq. by eexists.
    + intros k Hk. rewrite lookup_union_r; [done|].
      by rewrite lookup_singleton_ne.
  - rewrite Hrec. simpl. intros [= _ _ _ Hdn _]. 
Qed.

(** X19. The frame of the last step of an episode goes into a recording
    of its own, and the [reset] that follows closes this recording with
    that single frame in it and opens the next one at the very same path:
    both carry the number of the episode that has just ended. *)
Theorem reset_after_done_reuses_path w action w1 obs rew info w2 obs' :
  _step w action = Ok (w1, (obs, rew, true, info)) →
  _reset w1 = (w2, obs') →
  ∃ rec1 rec2,
    video_recorder w1 = Some rec1 ∧ frames rec1 = [env w1] ∧
    closed w2 = closed w1 ++ [rec1] ∧
    video_recorder w2 = Some rec2 ∧ frames rec2 = [] ∧
    base_path rec2 = base_path rec1 ∧
    metadata rec1 !! "episode_id" = Some (MetaInt (episode_id w)) ∧
    metadata rec2 !! "episode_id" = Some (MetaInt (episode_id w)) ∧
    episode_id w2 = episode_id w + 1.
Proof.
  unfold _step, _reset.
  destruct (env_step action (env w)) as [e [[[o r] dn] i]].
  destruct dn; simpl.
  - intros [= <- <- <- <-]. simpl.
    destruct (env_reset e) as [e2 o2]. intros [= <- <-]. simpl.
    eexists _, _. split; [done|]. simpl.
    rewrite lookup_singleton_eq. by repeat split.
  - destruct (video_recorder w); simpl; [|discriminate].
    intros [= _ _ _ Hdn _].
Qed.
End video.

(** *** A game on a line *)

Lemma step_before_reset_witness :
  _step VideoDemo.fresh 1%Z = Raise (AttributeError "NoneType" "capture_frame").
Proof.
  exact (step_before_reset VideoDemo.fresh 1%Z 1%Z 1%Z 1%Z false
           [(0, ∅); (1, ∅)] eq_refl eq_refl).
Defined.

Lemma finished_episode_recording_witness :
  ∃ w rec w' info,
    VideoDemo.midway = Ok w ∧ video_recorder w = Some rec ∧
    _step w 1%Z = Ok (w', (2, 1, true, info))%Z ∧
    base_path rec = "videos/video.000000" ∧ frames rec = [1%Z] ∧
    winners info = [0] ∧
    ∃ rec', closed w' = closed w ++ [rec'] ∧
            base_path rec' = base_path rec ∧ frames rec' = frames rec ∧
            metadata rec' !! "winners" = Some (MetaList (winners info)) ∧
            ∀ k, k ≠ "winners" → metadata rec' !! k = metadata rec !! k.
Proof.
  let v := eval vm_compute in VideoDemo.midway in
  match v with
  | Ok ?w =>
      let r := eval vm_compute in (video_recorder w) in
      let s := eval vm_compute in (_step w 1%Z) in
      match r with
      | Some ?rec =>
          match s with
          | Ok (?w', (_, _, _, ?info)) =>
              exists w, rec, w', info;
              assert (video_recorder w = Some rec) as Hrec
                by (vm_compute; reflexivity);
              assert (_step w 1%Z = Ok (w', (2, 1, true, info))%Z) as Hstep
                by (vm_compute; reflexivity);
              pose proof (finished_episode_recording w 1%Z w' 2%Z 1%Z info rec
                            Hrec Hstep) as Hclosed
          end
      end
  end.
  split; [vm_compute; reflexivity|]. split; [exact Hrec|].
  split; [exact Hstep|]. split; [vm_compute; reflexivity|].
  split; [reflexivity|]. split; [vm_compute; reflexivity|]. exact Hclosed.
Defined.

Lemma reset_after_done_reuses_path_witness :
  ∃ w w1 info w2 rec1 rec2,
    VideoDemo.midway = Ok w ∧
    _step w 1%Z = Ok (w1, (2, 1, true, info))%Z ∧ _reset w1 = (w2, 0%Z) ∧
    closed w2 = closed w1 ++ [rec1] ∧ video_recorder w2 = Some rec2 ∧
    frames rec1 = [2%Z] ∧
    base_path rec1 = "videos/video.000001" ∧
    base_path rec2 = "videos/video.000001".
Proof.
  let v := eval vm_compute in VideoDemo.midway in
  match v with
  | Ok ?w =>
      let s := eval vm_compute in (_step w 1%Z) in
      match s with
      | Ok (?w1, (_, _, _, ?info)) =>
          let r := eval vm_compute in (_reset w1) in
          match r with
          | (?w2, _) =>
              assert (_step w 1%Z = Ok (w1, (2, 1, true, info))%Z) as Hstep
                by (vm_compute; reflexivity);
              assert (_reset w1 = (w2, 0%Z)) as Hreset
                by (vm_compute; reflexivity);
              pose proof (reset_after_done_reuses_path w 1%Z w1 2%Z 1%Z info
                            w2 0%Z Hstep Hreset)
                as (rec1 & rec2 & Hrec1 & Hframes & Hclosed & Hrec2 & _ & Hpath & _);
              exists w, w1, info, w2, rec1, rec2
          end
      end
  end.
  split; [vm_compute; reflexivity|]. split; [exact Hstep|].
  split; [exact Hreset|]. split; [exact Hclosed|]. split; [exact Hrec2|].
  split; [exact Hframes|].
  injection Hrec1 as <-. split; [vm_compute; reflexivity|].
  rewrite Hpath. vm_compute. reflexivity.
Defined.
End VideoWrapperFacts.

(* ===================================================================== *)
(** * Further properties of the training driver *)
(* ===================================================================== *)

Module StableFacts.
Import Stable.

Section stable.
Context {M V F G : Type} `{!Algo M V}.
Implicit Types (a : args V F G) (c : counters) (tr : list (event M F G)).

Lemma created_dirs_app tr1 tr2 :
  created_dirs (tr1 ++ tr2) = created_dirs tr1 ++ created_dirs tr2.
Proof. unfold created_dirs. apply omap_app. Qed.

Lemma created_dirs_save_callbacks (fs : list F) root :
  created_dirs (map (λ f, SaveCallback (M := M) (G := G) f root) fs) = [].
Proof. induction fs as [|f fs IH]; [done|]. simpl. exact IH. Qed.

Lemma created_dirs_log_callbacks (gs : list G) locals :
  created_dirs (map (λ g, LogCallback (M := M) (F := F) g locals) gs) = [].
Proof. induction gs as [|g gs IH]; [done|]. simpl. exact IH. Qed.

Lemma created_dirs_Makedirs p tr :
  created_dirs (Makedirs p :: tr) = p :: created_dirs tr.
Proof. done. Qed.

Lemma created_dirs_ModelSave m p tr :
  created_dirs (ModelSave m p :: tr) = created_dirs tr.
Proof. done. Qed.

Lemma created_dirs_save (m : M) root (fs : list F) :
  created_dirs (_save (G := G) m root fs) = [root].
Proof.
  unfold _save. rewrite created_dirs_app, created_dirs_save_callbacks. done.
Qed.

(** One invocation: either nothing is created and the checkpoint counter
    stays, or the step's directory is created and the counter is the step. *)
Lemma callback_dirs a m c locals c' tr :
  callback a m c locals = Ok (c', tr) →
  ∃ v, locals !! callback_key a = Some v ∧
    let step := (v * callback_mul a)%Z in
    if decide (step - checkpoint_interval a > last_checkpoint c)%Z
    then created_dirs tr = [checkpoint_dir a step] ∧ last_checkpoint c' = step
    else created_dirs tr = [] ∧ last_checkpoint c' = last_checkpoint c.
Proof.
  unfold callback. intros Hrun.
  apply bind_Ok in Hrun as (v & Hv & Hrun). apply getkey_Ok in Hv.
  exists v. split; [done|]. cbv zeta in *.
  destruct (decide (v * callback_mul a - checkpoint_interval a > last_checkpoint c)%Z).
  - destruct (decide (v * callback_mul a - log_interval a
                      > last_log (mk_counters (v * callback_mul a) (last_log c)))%Z);
      injection Hrun as <- <-;
      rewrite created_dirs_Makedirs, created_dirs_ModelSave, created_dirs_app,
        created_dirs_save_callbacks, ?created_dirs_log_callbacks;
      done.
  - destruct (decide (v * callback_mul a - log_interval a > last_log c)%Z);
      injection Hrun as <- <-; rewrite ?created_dirs_log_callbacks; done.
Qed.

Lemma run_callbacks_spaced a c calls c' tr :
  run_callbacks a c calls = Ok (c', tr) →
  ∃ steps, created_dirs tr = map (checkpoint_dir a) steps ∧
           spaced (checkpoint_interval a) (last_checkpoint c) steps ∧
           steps `sublist_of` reported_steps a calls ∧
           Forall (λ s, ∃ m locals v, (m, locals) ∈ calls ∧
                          locals !! callback_key a = Some v ∧
                          s = (v * callback_mul a)%Z) steps.
Proof.
  revert c c' tr.
  induction calls as [|[m locals] calls IH]; intros c c' tr Hrun; simpl in Hrun.
  - injection Hrun as <- <-. by exists [].
  - apply bind_Ok in Hrun as ([c1 tr1] & H1 & Hrun).
    apply bind_Ok in Hrun as ([c2 tr2] & H2 & Hrun). injection Hrun as <- <-.
    apply callback_dirs in H1 as (v & Hv & H1). simpl in H1.
    apply IH in H2 as (steps & Hdirs & Hsp & Hsub & Hin).
    assert (Forall (λ s, ∃ m0 locals0 v0, (m0, locals0) ∈ (m, locals) :: calls ∧
                      locals0 !! callback_key a = Some v0 ∧
                      s = (v0 * callback_mul a)%Z) steps) as Hin'.
    { eapply Forall_impl; [exact Hin|]. intros s (m0 & l0 & v0 & Hel & ? & ?).
      exists m0, l0, v0. split; [by right|done]. }
    assert (reported_steps a ((m, locals) :: calls)
            = (v * callback_mul a)%Z :: reported_steps a calls) as Hrep.
    { unfold reported_steps. simpl. by rewrite Hv. }
    rewrite created_dirs_app, Hdirs, Hrep.
    destruct (decide (v * callback_mul a - checkpoint_interval a > last_checkpoint c)%Z)
      as [Hgt|Hle]; destruct H1 as [-> Hc1].
    + exists ((v * callback_mul a)%Z :: steps). split; [done|]. split.
      * simpl. split; [done|]. by rewrite <- Hc1.
      * split; [by apply sublist_skip|].
        constructor; [|done]. exists m, locals, v. split; [by left|done].
    + exists steps. split; [done|]. split; [by rewrite <- Hc1|].
      split; [by apply sublist_cons|done].
Qed.

(** X20. Whenever [_stable] returns, the directories it created are the
    checkpoint directories of some of the steps that the callback was
    called with while [learn] ran, in the order of the calls, followed by
    the final model's; the first of these steps is more than
    [checkpoint_interval] and each later one more than [checkpoint_interval]
    above the one before. *)
Theorem checkpoints_are_spaced a final tr :
  _stable a = inr (final, tr) →
  final = osp_join (out_dir a) "final_model" ∧
  ∃ kw model steps,
    merge_keywords {[ "env" := KwEnv;
                      "verbose" := KwInt (if debug a then 2 else 1) ]}
                   [kwargs a; rl_args a] = Ok kw ∧
    make_model a kw = Ok (Some model) ∧
    created_dirs tr = map (checkpoint_dir a) steps ++ [final] ∧
    spaced (checkpoint_interval a) 0 steps ∧
    steps `sublist_of`
      reported_steps a (learn model (total_timesteps a) (seed a)).1 ∧
    Forall (λ s, ∃ m locals v,
              (m, locals) ∈ (learn model (total_timesteps a) (seed a)).1 ∧
              locals !! callback_key a = Some v ∧
              s = (v * callback_mul a)%Z) steps.
Proof.
  unfold _stable. intros Hrun.
  destruct (merge_keywords _ _) as [kw|e]; [simpl in Hrun|discriminate].
  destruct (make_model a kw) as [[model|]|e] eqn:Hmodel; simpl in Hrun;
    try discriminate.
  destruct (learn model (total_timesteps a) (seed a)) as [calls trained]
    eqn:Hlearn.
  destruct (run_callbacks a (mk_counters 0 0) calls) as [[c tr0]|e] eqn:Hcb;
    simpl in Hrun; [|discriminate].
  injection Hrun as <- <-. split; [done|].
  apply run_callbacks_spaced in Hcb as (steps & Hdirs & Hsp & Hsub & Hin).
  exists kw, model, steps. rewrite Hlearn. split; [done|]. split; [done|].
  split; [|done].
  rewrite created_dirs_app, created_dirs_Makedirs, created_dirs_ModelSave,
    created_dirs_app, created_dirs_save_callbacks, Hdirs. done.
Qed.

(** *** Constant increments *)

Lemma checkpoint_due (b C i : Z) :
  (0 < b)%Z → (0 ≤ C)%Z → (0 ≤ i)%Z →
  let p := (C / b + 1)%Z in
  ((i + 1) * b - C > i / p * p * b)%Z ↔ ((i + 1) mod p = 0)%Z.
Proof.
  intros Hb HC Hi p.
  assert (0 < p)%Z as Hp by (unfold p; pose proof (Z.div_pos C b); lia).
  pose proof (Z.div_mod C b ltac:(lia)) as HCdm.
  pose proof (Z.mod_pos_bound C b Hb) as HCm.
  pose proof (Z.div_mod i p ltac:(lia)) as Hidm.
  pose proof (Z.mod_pos_bound i p Hp) as Him.
  set (q := (i / p)%Z) in *. set (r := (i mod p)%Z) in *.
  assert (C / b = p - 1)%Z as HCq by (unfold p; lia).
  rewrite HCq in HCdm.
  destruct (decide (r + 1 = p)%Z) as [Hr|Hr].
  - split; intros _.
    + replace (i + 1)%Z with ((q + 1) * p)%Z by lia. apply Z.mod_mul. lia.
    + nia.
  - split; intros H.
    + exfalso. assert (r + 1 ≤ p - 1)%Z as Hle by lia.
      assert ((r + 1) * b ≤ (p - 1) * b)%Z by nia. nia.
    + exfalso. apply Hr.
      assert ((i + 1) mod p = r + 1)%Z as Heq.
      { symmetry. apply (Z.mod_unique_pos _ _ q); lia. }
      lia.
Qed.

Lemma checkpoint_counter (p i : Z) :
  (0 < p)%Z → (0 ≤ i)%Z →
  ((i + 1) / p * p = if decide ((i + 1) mod p = 0)%Z then i + 1 else i / p * p)%Z.
Proof.
  intros Hp Hi.
  pose proof (Z.div_mod (i + 1) p ltac:(lia)) as Hdm.
  pose proof (Z.mod_pos_bound (i + 1) p Hp) as Hm.
  pose proof (Z.div_mod i p ltac:(lia)) as Hidm.
  pose proof (Z.mod_pos_bound i p Hp) as Him.
  case_decide as H0.
  - lia.
  - f_equal. apply (Z.div_unique_pos i p _ ((i + 1) mod p - 1)); lia.
Qed.

Lemma run_callbacks_period a (i : nat) c calls c' tr :
  (0 < callback_mul a)%Z → (0 ≤ checkpoint_interval a)%Z →
  let p := (checkpoint_interval a / callback_mul a + 1)%Z in
  last_checkpoint c = (Z.of_nat i / p * p * callback_mul a)%Z →
  Forall2 (λ k call, call.2 !! callback_key a = Some (Z.of_nat k))
          (seq (S i) (length calls)) calls →
  run_callbacks a c calls = Ok (c', tr) →
  created_dirs tr =
    map (λ k, checkpoint_dir a (Z.of_nat k * callback_mul a))
        (filter (λ k, (Z.of_nat k mod p = 0)%Z) (seq (S i) (length calls))).
Proof.
  intros Hb HC p. revert i c c' tr.
  induction calls as [|[m locals] calls IH]; simpl; intros i c c' tr Hc Hcalls Hrun.
  - by injection Hrun as <- <-.
  - apply bind_Ok in Hrun as ([c1 tr1] & H1 & Hrun).
    apply bind_Ok in Hrun as ([c2 tr2] & H2 & Hrun). injection Hrun as <- <-.
    apply Forall2_cons_1 in Hcalls as [Hk Hcalls]. simpl in Hk.
    apply callback_dirs in H1 as (v & Hv & H1). simpl in H1.
    rewrite Hk in Hv. injection Hv as <-.
    pose proof (checkpoint_due (callback_mul a) (checkpoint_interval a)
                  (Z.of_nat i) Hb HC ltac:(lia)) as Hdue. simpl in Hdue.
    fold p in Hdue.
    assert (0 < p)%Z as Hp
      by (unfold p; pose proof (Z.div_pos (checkpoint_interval a) (callback_mul a)); lia).
    pose proof (checkpoint_counter p (Z.of_nat i) Hp ltac:(lia)) as Hcnt.
    replace (Z.of_nat i + 1)%Z with (Z.of_nat (S i)) in Hdue, Hcnt by lia.
    rewrite created_dirs_app, filter_cons.
    rewrite (IH (S i) c1 c2 tr2); [| |done|done].
    + rewrite Hc in H1.
      destruct (decide (Z.of_nat (S i) mod p = 0)%Z) as [Hmod|Hmod].
      * rewrite decide_True in H1 by (apply Hdue; exact Hmod).
        destruct H1 as [-> _]. done.
      * rewrite decide_False in H1 by (intros H; apply Hmod, Hdue; exact H).
        destruct H1 as [-> _]. done.
    + rewrite Hc in H1. rewrite Hcnt.
      destruct (decide (Z.of_nat (S i) mod p = 0)%Z) as [Hmod|Hmod].
      * rewrite decide_True in H1 by (apply Hdue; exact Hmod).
        destruct H1 as [_ ->]. done.
      * rewrite decide_False in H1 by (intros H; apply Hmod, Hdue; exact H).
        destruct H1 as [_ ->]. done.
Qed.

(** X21. When [learn] invokes the callback once per update, with the
    update numbers 1, 2, ..., n under [callback_key], and every update is
    [callback_mul > 0] timesteps, a checkpoint is written at update [k]
    exactly when [k] is a multiple of [checkpoint_interval / callback_mul + 1]
    (integer division): checkpoints are one update further apart than
    [checkpoint_interval] timesteps would suggest when the interval is a
    multiple of the update size. *)
Theorem checkpoint_period a calls c' tr :
  (0 < callback_mul a)%Z → (0 ≤ checkpoint_interval a)%Z →
  Forall2 (λ k call, call.2 !! callback_key a = Some (Z.of_nat k))
          (seq 1 (length calls)) calls →
  run_callbacks a (mk_counters 0 0) calls = Ok (c', tr) →
  created_dirs tr =
    map (λ k, checkpoint_dir a (Z.of_nat k * callback_mul a))
        (filter (λ k, (Z.of_nat k
                       mod (checkpoint_interval a / callback_mul a + 1) = 0)%Z)
                (seq 1 (length calls))).
Proof.
  intros Hb HC Hcalls Hrun.
  apply (run_callbacks_period a 0 (mk_counters 0 0) calls c' tr Hb HC);
    [|done|done].
  simpl. rewrite Z.div_0_l; [lia|].
  pose proof (Z.div_pos (checkpoint_interval a) (callback_mul a)). lia.
Qed.

(** *** Failures before training *)

Lemma merge_keywords_two (e d1 d2 : gmap string (kwval V)) :
  merge_keywords e [d1; d2] =
    if decide (dom e ##@{gset string} dom d1) then
      if decide (dom (e ∪ d1) ##@{gset string} dom d2) then Ok (e ∪ d1 ∪ d2)
      else Raise TypeError
    else Raise TypeError.
Proof.
  unfold merge_keywords. simpl.
  destruct (decide (dom e ##@{gset string} dom d1)); [|done]. simpl. done.
Qed.

(** X22. A keyword that [rl_args] shares with the other keyword arguments,
    or that the other keyword arguments share with the two that [_stable]
    sets itself ([env] and [verbose]), makes [_stable] raise [TypeError]
    before any model exists. *)
Theorem repeated_keyword_raises a k :
  (k ∈ dom (kwargs a) ∧ (k = "env" ∨ k = "verbose")) ∨
  (k ∈ dom (rl_args a) ∧ (k = "env" ∨ k = "verbose" ∨ k ∈ dom (kwargs a))) →
  _stable a = inl (Builtin TypeError).
Proof.
  intros Hk. unfold _stable. rewrite merge_keywords_two.
  destruct (decide (_ ## dom (kwargs a))) as [Hd1|Hd1]; [|done].
  destruct (decide (_ ## dom (rl_args a))) as [Hd2|Hd2]; [|done].
  exfalso. destruct Hk as [[Hin Hk]|[Hin Hk]].
  - rewrite elem_of_disjoint in Hd1. apply (Hd1 k); [|done].
    rewrite dom_insert, dom_singleton, elem_of_union, !elem_of_singleton.
    destruct Hk; [by left|by right].
  - rewrite elem_of_disjoint in Hd2. apply (Hd2 k); [|done].
    rewrite dom_union, dom_insert, dom_singleton, !elem_of_union,
      !elem_of_singleton.
    destruct Hk as [?|[?|?]]; [by left; left|by left; right|by right].
Qed.

(** X23. With a policy to load whose type is neither the algorithm's own
    nor [zoo], no branch binds [model]: [_stable] raises
    [UnboundLocalError] instead of training, whatever the other arguments
    are, as long as the keywords themselves are accepted. *)
Theorem unsupported_load_type_raises a path :
  lp_path (load_policy a) = Some path →
  lp_type (load_policy a) ≠ our_type a →
  lp_type (load_policy a) ≠ "zoo" →
  "env" ∉ dom (kwargs a) ∪ dom (rl_args a) →
  "verbose" ∉ dom (kwargs a) ∪ dom (rl_args a) →
  dom (kwargs a) ##@{gset string} dom (rl_args a) →
  _stable a = inl (UnboundLocalError "model").
Proof.
  intros Hpath Hty Hzoo Henv Hverbose Hdisj. unfold _stable.
  rewrite merge_keywords_two.
  rewrite not_elem_of_union in Henv, Hverbose.
  destruct Henv as [Henv1 Henv2], Hverbose as [Hverbose1 Hverbose2].
  rewrite decide_True; cycle 1.
  { rewrite elem_of_disjoint. intros k Hk Hin.
    rewrite dom_insert, dom_singleton, elem_of_union, !elem_of_singleton in Hk.
    destruct Hk as [->| ->]; [by apply Henv1|by apply Hverbose1]. }
  rewrite decide_True; cycle 1.
  { rewrite elem_of_disjoint. intros k Hk Hin.
    rewrite dom_union, dom_insert, dom_singleton, !elem_of_union,
      !elem_of_singleton in Hk.
    destruct Hk as [[->| ->]|Hk]; [by apply Henv2|by apply Hverbose2|].
    rewrite elem_of_disjoint in Hdisj. by apply (Hdisj k). }
  simpl. unfold make_model. rewrite Hpath.
  rewrite decide_False by done. rewrite decide_False by done. done.
Qed.
End stable.

(** *** A training run of seven updates *)

Lemma checkpoints_are_spaced_witness :
  ∃ final tr,
    _stable StableDemo.from_scratch = inr (final, tr) ∧
    created_dirs tr = ["out/checkpoint/000000000006";
                       "out/checkpoint/000000000012"; "out/final_model"] ∧
    final = "out/final_model" ∧
    ∃ kw model steps,
      merge_keywords {[ "env" := KwEnv; "verbose" := KwInt 1 ]}
        [kwargs StableDemo.from_scratch; rl_args StableDemo.from_scratch]
        = Ok kw ∧
      make_model StableDemo.from_scratch kw = Ok (Some model) ∧
      created_dirs tr
        = map (checkpoint_dir StableDemo.from_scratch) steps ++ [final] ∧
      spaced 4 0 steps ∧
      steps `sublist_of`
        reported_steps StableDemo.from_scratch (learn model 7%Z 0%Z).1 ∧
      Forall (λ s, ∃ m locals v,
                (m, locals) ∈ (learn model 7%Z 0%Z).1 ∧
                locals !! "update" = Some v ∧ s = (v * 2)%Z) steps.
Proof.
  let v := eval vm_compute in (_stable StableDemo.from_scratch) in
  match v with
  | inr (?final, ?tr) =>
      exists final, tr;
      assert (_stable StableDemo.from_scratch = inr (final, tr)) as Hrun
        by (vm_compute; reflexivity);
      pose proof (checkpoints_are_spaced StableDemo.from_scratch final tr Hrun)
        as [Hfinal Hsteps]
  end.
  split; [exact Hrun|]. split; [vm_compute; reflexivity|].
  split; [exact Hfinal|exact Hsteps].
Defined.

Lemma checkpoint_period_witness :
  ∃ c tr,
    run_callbacks StableDemo.from_scratch (mk_counters 0 0)
                  (learn 0 7%Z 0%Z).1 = Ok (c, tr) ∧
    created_dirs tr
      = map (λ k, checkpoint_dir StableDemo.from_scratch (Z.of_nat k * 2)) [3; 6].
Proof.
  let v := eval vm_compute in
    (run_callbacks StableDemo.from_scratch (mk_counters 0 0) (learn 0 7%Z 0%Z).1) in
  match v with
  | Ok (?c, ?tr) =>
      exists c, tr;
      assert (run_callbacks StableDemo.from_scratch (mk_counters 0 0)
                (learn 0 7%Z 0%Z).1 = Ok (c, tr)) as Hrun
        by (vm_compute; reflexivity);
      assert (Forall2 (λ k (call : nat * gmap string Z),
                         call.2 !! callback_key StableDemo.from_scratch
                           = Some (Z.of_nat k))
                      (seq 1 (length (learn 0 7%Z 0%Z).1)) (learn 0 7%Z 0%Z).1)
        as Hcalls by (repeat (constructor; [vm_compute; reflexivity|]); constructor);
      pose proof (checkpoint_period StableDemo.from_scratch (learn 0 7%Z 0%Z).1
                    c tr ltac:(vm_compute; reflexivity)
                    ltac:(vm_compute; discriminate) Hcalls Hrun) as Hperiod
  end.
  split; [exact Hrun|]. rewrite Hperiod. vm_compute. reflexivity.
Defined.

Lemma repeated_keyword_raises_witness :
  _stable (StableDemo.ppo2_args (mk_load_policy None "ppo2")
                                {[ "n_steps" := KwInt 5 ]})
    = inl (Builtin TypeError).
Proof.
  apply (repeated_keyword_raises _ "n_steps"). right. split.
  - apply (bool_decide_unpack _). vm_compute. exact I.
  - right. right. apply (bool_decide_unpack _). vm_compute. exact I.
Defined.

Lemma unsupported_load_type_raises_witness :
  _stable (StableDemo.ppo2_args (mk_load_policy (Some "model.pkl") "ppo1")
                                {[ "ent_coef" := KwInt 0 ]})
    = inl (UnboundLocalError "model").
Proof.
  apply (unsupported_load_type_raises _ "model.pkl").
  - reflexivity.
  - discriminate.
  - discriminate.
  - apply (bool_decide_unpack _). vm_compute. exact I.
  - apply (bool_decide_unpack _). vm_compute. exact I.
  - apply (bool_decide_unpack _). vm_compute. exact I.
Defined.
End StableFacts.

(* ===================================================================== *)
(** * Properties of the GAIL demonstrations *)
(* ===================================================================== *)

Module ExpertDatasetFacts.
Import ExpertDatasetFromOurFormat.

Section dataset.
Context {V : Type}.
Implicit Types (d : gmap string (list (list V))) (out : gmap string (column V)).

Lemma np_concatenate_Ok {A} (arrays : list (list A)) x :
  np_concatenate arrays = Ok x ↔ arrays ≠ [] ∧ x = concat arrays.
Proof.
  destruct arrays as [|a arrays]; simpl; split.
  - discriminate.
  - by intros [? _].
  - intros [= <-]. done.
  - by intros [_ ->].
Qed.

(** The dict comprehension: every key is kept, with its episodes joined,
    and no key had an empty list of episodes. *)
Lemma flatten_Ok d (flat : gmap string (column V)) :
  for_items (λ k v flat, x ← np_concatenate v; Ok (<[k := Data x]> flat)) d ∅
    = Ok flat →
  (∀ k, flat !! k = (λ v, Data (concat v)) <$> d !! k) ∧
  (∀ k v, d !! k = Some v → v ≠ []).
Proof.
  unfold for_items. revert flat.
  apply (map_fold_weak_ind (λ res m, ∀ flat, res = Ok flat →
    (∀ k, flat !! k = (λ v, Data (concat v)) <$> m !! k) ∧
    (∀ k v, m !! k = Some v → v ≠ []))).
  - intros flat [= <-]. split; [|done]. intros k. by rewrite !lookup_empty.
  - intros i v m res Hi IH flat Hres.
    apply bind_Ok in Hres as (flat0 & H0 & Hres).
    apply bind_Ok in Hres as (x & Hx & Hres). injection Hres as <-.
    apply np_concatenate_Ok in Hx as [Hne ->].
    destruct (IH _ H0) as [IH1 IH2]. split.
    + intros k. destruct (decide (i = k)) as [->|Hik].
      * by rewrite !lookup_insert_eq.
      * rewrite !lookup_insert_ne by done. apply IH1.
    + intros k v' Hk. destruct (decide (i = k)) as [->|Hik].
      * rewrite lookup_insert_eq in Hk. by injection Hk as <-.
      * rewrite lookup_insert_ne in Hk by done. by eapply IH2.
Qed.

Lemma flatten_total d :
  (∀ k v, d !! k = Some v → v ≠ []) →
  is_Ok (for_items (λ k v (flat : gmap string (column V)),
                      x ← np_concatenate v; Ok (<[k := Data x]> flat)) d ∅).
Proof.
  unfold for_items.
  apply (map_fold_weak_ind (λ res m,
    (∀ k v, m !! k = Some v → v ≠ []) → is_Ok res)).
  - intros _. by eexists.
  - intros i v m res Hi IH Hne.
    destruct IH as [flat ->].
    { intros k v' Hk. apply (Hne k). rewrite lookup_insert_ne; [done|congruence]. }
    simpl. destruct v as [|ep v]; [by destruct (Hne i []); [rewrite lookup_insert_eq|]|].
    simpl. by eexists.
Qed.

(** What [__init__] computes when it succeeds. *)
Lemma init_inv d out :
  __init__ d = Ok out →
  ∃ rewards observations flat,
    d !! "rewards" = Some rewards ∧ d !! "observations" = Some observations ∧
    (∀ k, flat !! k = (λ v, Data (concat v)) <$> d !! k) ∧
    (∀ k v, d !! k = Some v → v ≠ []) ∧
    out = delete "observations"
            (<["obs" := Data (concat observations)]>
               (<["episode_starts" :=
                    Flags (concat (map (λ r, ep_starts (length r)) rewards))]> flat)).
Proof.
  unfold __init__. intros Hrun.
  apply bind_Ok in Hrun as (rewards & Hrew & Hrun). apply getkey_Ok in Hrew.
  apply bind_Ok in Hrun as (flat & Hflat & Hrun).
  apply bind_Ok in Hrun as (starts & Hstarts & Hrun).
  apply bind_Ok in Hrun as (obs & Hobs & Hrun). injection Hrun as <-.
  apply np_concatenate_Ok in Hstarts as [_ ->].
  apply flatten_Ok in Hflat as [Hflat Hne].
  apply getkey_Ok in Hobs. rewrite lookup_insert_ne in Hobs by done.
  rewrite Hflat in Hobs.
  destruct (d !! "observations") as [observations|] eqn:Hd; [|done].
  injection Hobs as <-.
  by exists rewards, observations, flat.
Qed.

Lemma ep_starts_length n : length (ep_starts n) = n `max` 1.
Proof. unfold ep_starts. simpl. rewrite length_replicate. lia. Qed.

Lemma starts_length (rewards : list (list V)) :
  length (concat (map (λ r, ep_starts (length r)) rewards)) =
    length (concat rewards) + length (filter (λ ep, ep = []) rewards).
Proof.
  induction rewards as [|ep rewards IH]; [done|].
  simpl. rewrite filter_cons. rewrite !length_app, IH, length_replicate.
  destruct ep as [|x ep]; simpl; [|lia].
  lia.
Qed.

(** X24. In the dict that [__init__] builds, [rewards] holds the rewards
    of all episodes one after the other, and [episode_starts] holds one
    flag per reward plus one more for every episode without any reward:
    the two have the same length exactly when no episode is empty. *)
Theorem episode_starts_length d out rewards :
  __init__ d = Ok out → d !! "rewards" = Some rewards →
  ∃ starts,
    out !! "rewards" = Some (Data (concat rewards)) ∧
    out !! "episode_starts" = Some (Flags starts) ∧
    length starts =
      length (concat rewards) + length (filter (λ ep, ep = []) rewards).
Proof.
  intros Hrun Hrew.
  apply init_inv in Hrun
    as (rewards' & observations & flat & Hrew' & Hobs & Hflat & Hne & ->).
  rewrite Hrew in Hrew'. injection Hrew' as <-.
  eexists. split; [|split].
  - rewrite lookup_delete_ne, !lookup_insert_ne by done.
    by rewrite Hflat, Hrew.
  - rewrite lookup_delete_ne, lookup_insert_ne, lookup_insert_eq by done. done.
  - apply starts_length.
Qed.

Lemma starts_lookup (episodes : list (list V)) i :
  Forall (λ ep, ep ≠ []) episodes →
  concat (map (λ r, ep_starts (length r)) episodes) !! i = Some true ↔
  ∃ j, j < length episodes ∧ i = episode_offset episodes j.
Proof.
  unfold episode_offset. revert i.
  induction episodes as [|ep episodes IH]; intros i Hne.
  - simpl. split; [done|]. intros (j & Hj & _). simpl in Hj. lia.
  - apply Forall_cons_1 in Hne as [Hep Hne].
    assert (length (ep_starts (length ep)) = length ep) as Hlen.
    { rewrite ep_starts_length. destruct ep; [done|simpl; lia]. }
    assert (0 < length ep) as Hpos by (destruct ep; [done|simpl; lia]).
    cbn [map concat].
    destruct (decide (i < length ep)) as [Hi|Hi].
    + rewrite lookup_app_l by lia. split.
      * intros Htrue. exists 0. split; [simpl; lia|]. simpl.
        destruct i as [|i]; [done|]. unfold ep_starts in Htrue. simpl in Htrue.
        apply lookup_replicate in Htrue as [? _]. done.
      * intros (j & Hj & ->). destruct j as [|j]; [done|].
        simpl in Hi. rewrite length_app in Hi. lia.
    + rewrite lookup_app_r by lia. rewrite Hlen, (IH _ Hne). split.
      * intros (j & Hj & Hoff). exists (S j). split; [simpl; lia|].
        simpl. rewrite length_app. lia.
      * intros (j & Hj & ->). destruct j as [|j].
        { simpl in Hi. lia. }
        exists j. split; [simpl in Hj; lia|].
        simpl. rewrite length_app. lia.
Qed.

(** X25. When no episode is empty, the flags mark exactly the first
    timestep of every episode: position [i] of [episode_starts] is [True]
    if and only if [i] is the total length of the first [j] episodes, for
    some episode [j]. *)
Theorem episode_starts_mark_episodes d out rewards starts i :
  __init__ d = Ok out → d !! "rewards" = Some rewards →
  Forall (λ ep, ep ≠ []) rewards →
  out !! "episode_starts" = Some (Flags starts) →
  starts !! i = Some true ↔
  ∃ j, j < length rewards ∧ i = episode_offset rewards j.
Proof.
  intros Hrun Hrew Hne Hout.
  apply init_inv in Hrun
    as (rewards' & observations & flat & Hrew' & Hobs & Hflat & _ & ->).
  rewrite Hrew in Hrew'. injection Hrew' as <-.
  rewrite lookup_delete_ne, lookup_insert_ne, lookup_insert_eq in Hout by done.
  injection Hout as <-. by apply starts_lookup.
Qed.

(** X26. [__init__] gets as far as the base class exactly when the file
    has [rewards] and [observations] and holds at least one episode under
    every key. *)
Theorem init_returns_iff d :
  is_Ok (__init__ d) ↔
  is_Some (d !! "rewards") ∧ is_Some (d !! "observations") ∧
  ∀ k v, d !! k = Some v → v ≠ [].
Proof.
  split.
  - intros [out Hrun].
    apply init_inv in Hrun as (rewards & observations & flat & Hrew & Hobs & _ & Hne & _).
    rewrite Hrew, Hobs. done.
  - intros ([rewards Hrew] & [observations Hobs] & Hne). unfold __init__.
    rewrite (proj2 (getkey_Ok _ _ _) Hrew). simpl.
    destruct (flatten_total d Hne) as [flat Hflat]. rewrite Hflat. simpl.
    apply flatten_Ok in Hflat as [Hflat _].
    destruct rewards as [|ep rewards]; [by destruct (Hne _ _ Hrew)|].
    simpl. unfold getkey. rewrite lookup_insert_ne by done.
    rewrite Hflat, Hobs. simpl. by eexists.
Qed.

(** X27. The observations end up under [obs] and nowhere else: the key
    [observations] is gone, [obs] holds the observations of all episodes
    one after the other (whatever the file had under [obs] before), and
    every other key of the file except [episode_starts] holds its own
    episodes joined. *)
Theorem observations_renamed d out observations :
  __init__ d = Ok out → d !! "observations" = Some observations →
  out !! "observations" = None ∧
  out !! "obs" = Some (Data (concat observations)) ∧
  ∀ k, k ≠ "observations" → k ≠ "obs" → k ≠ "episode_starts" →
       out !! k = (λ v, Data (concat v)) <$> d !! k.
Proof.
  intros Hrun Hobs.
  apply init_inv in Hrun
    as (rewards & observations' & flat & Hrew & Hobs' & Hflat & _ & ->).
  rewrite Hobs in Hobs'. injection Hobs' as <-.
  split; [by rewrite lookup_delete_eq|]. split.
  - by rewrite lookup_delete_ne, lookup_insert_eq.
  - intros k H1 H2 H3.
    rewrite lookup_delete_ne, !lookup_insert_ne by done. apply Hflat.
Qed.
End dataset.

(** *** Two files *)

Lemma episode_starts_length_witness :
  ∃ out,
    __init__ DatasetDemo.with_empty_episode = Ok out ∧
    out !! "episode_starts" = Some (Flags [true; false; true; true]) ∧
    ∃ starts,
      out !! "rewards" = Some (Data (concat [[0; 1]; []; [5]]%Z)) ∧
      out !! "episode_starts" = Some (Flags starts) ∧
      length starts = 3 + 1.
Proof.
  let v := eval vm_compute in (__init__ DatasetDemo.with_empty_episode) in
  match v with
  | Ok ?out =>
      exists out;
      assert (__init__ DatasetDemo.with_empty_episode = Ok out) as Hrun
        by (vm_compute; reflexivity);
      pose proof (episode_starts_length DatasetDemo.with_empty_episode out
                    [[0; 1]; []; [5]]%Z Hrun ltac:(vm_compute; reflexivity))
        as Hlength
  end.
  split; [exact Hrun|]. split; [vm_compute; reflexivity|]. exact Hlength.
Defined.

Lemma episode_starts_mark_episodes_witness :
  ∃ out starts,
    __init__ DatasetDemo.two_episodes = Ok out ∧
    out !! "episode_starts" = Some (Flags starts) ∧
    starts = [true; false; true] ∧
    (starts !! 2 = Some true ↔
     ∃ j, j < 2 ∧ 2 = episode_offset [[0; 1]; [5]]%Z j).
Proof.
  let v := eval vm_compute in (__init__ DatasetDemo.two_episodes) in
  match v with
  | Ok ?out =>
      exists out, [true; false; true];
      assert (__init__ DatasetDemo.two_episodes = Ok out) as Hrun
        by (vm_compute; reflexivity);
      assert (out !! "episode_starts" = Some (Flags [true; false; true]))
        as Hstarts by (vm_compute; reflexivity);
      pose proof (episode_starts_mark_episodes DatasetDemo.two_episodes out
                    [[0; 1]; [5]]%Z [true; false; true] 2 Hrun
                    ltac:(vm_compute; reflexivity)
                    ltac:(repeat constructor; discriminate) Hstarts)
        as Hmarks
  end.
  split; [exact Hrun|]. split; [exact Hstarts|]. split; [reflexivity|].
  exact Hmarks.
Defined.

Lemma observations_renamed_witness :
  ∃ out,
    __init__ DatasetDemo.two_episodes = Ok out ∧
    dom out = {[ "obs"; "actions"; "rewards"; "episode_starts" ]} ∧
    out !! "observations" = None ∧
    out !! "obs" = Some (Data [10; 11; 12]%Z).
Proof.
  let v := eval vm_compute in (__init__ DatasetDemo.two_episodes) in
  match v with
  | Ok ?out =>
      exists out;
      assert (__init__ DatasetDemo.two_episodes = Ok out) as Hrun
        by (vm_compute; reflexivity);
      pose proof (observations_renamed DatasetDemo.two_episodes out
                    [[10; 11]; [12]]%Z Hrun ltac:(vm_compute; reflexivity))
        as (Hgone & Hobs & _)
  end.
  split; [exact Hrun|]. split; [vm_compute; reflexivity|].
  split; [exact Hgone|exact Hobs].
Defined.
End ExpertDatasetFacts.

(* ===================================================================== *)
(** * Properties of the debug dumps *)
(* ===================================================================== *)

Module DebugVenvFacts.
Import DebugVenv.

Section debug.
Context {E Act Obs Rew Inf : Type} `{!Venv E Act Obs Rew Inf}.
Implicit Types (w : t E Act Obs Rew) (fs : gmap nat (list (gmap string (entry Act Obs Rew)))).

Lemma debug_step_async_inv w actions w' :
  step_async w actions = Ok w' →
  venv w' = inner_step_async actions (venv w) ∧
  debug_file w' = debug_file w ∧
  debug_dict w' = <["actions" := Actions actions]> (debug_dict w).
Proof.
  unfold step_async. intros Hrun.
  apply bind_Ok in Hrun as (fields & _ & Hrun). by injection Hrun as <-.
Qed.

Lemma debug_step_wait_inv w fs w' fs' out :
  step_wait w fs = Ok (w', fs', out) →
  ∃ f, debug_file w = Some f ∧ debug_file w' = Some f ∧
       inner_step_wait (venv w) = (venv w', out) ∧
       debug_dict w' = ∅ ∧
       fs' = <[f := default [] (fs !! f)
                 ++ [{[ "next_obs" := Observations out.1.1.1;
                        "rewards" := Rewards out.1.1.2 ]} ∪ debug_dict w]]> fs.
Proof.
  unfold step_wait.
  destruct (inner_step_wait (venv w)) as [e [[[o r] dn] i]].
  destruct (debug_file w) as [f|]; simpl; [|discriminate].
  intros [= <- <- <-]. by exists f.
Qed.

(** A wrapper that has not been given a debug file, as it is when
    constructed, cannot finish a step: [step_wait] raises [TypeError]. *)
Theorem step_wait_without_file_raises w fs :
  debug_file w = None → step_wait w fs = Raise TypeError.
Proof.
  intros Hfile. unfold step_wait.
  destruct (inner_step_wait (venv w)) as [e [[[o r] dn] i]].
  by rewrite Hfile.
Qed.

(** X28. From the second step after a reset on, a dumped record holds the
    action, the next observation and the reward of its step and nothing
    else: whatever the wrapper held before, after one [step_wait] the
    record of the following [step_async] and [step_wait] has exactly
    these three entries, appended to the current debug file, and no other
    file changes. *)
Theorem later_records_have_three_entries w0 fs0 w1 fs1 out1 actions w2 w3 fs2
    obs rew dones infos :
  step_wait w0 fs0 = Ok (w1, fs1, out1) →
  step_async w1 actions = Ok w2 →
  step_wait w2 fs1 = Ok (w3, fs2, (obs, rew, dones, infos)) →
  ∃ f, debug_file w0 = Some f ∧
       fs2 !! f = Some (default [] (fs1 !! f)
                        ++ [{[ "actions" := Actions actions;
                               "next_obs" := Observations obs;
                               "rewards" := Rewards rew ]}]) ∧
       ∀ f', f' ≠ f → fs2 !! f' = fs1 !! f'.
Proof.
  intros H1 H2 H3.
  apply debug_step_wait_inv in H1 as (f & Hf0 & Hf1 & _ & Hd1 & _).
  apply debug_step_async_inv in H2 as (_ & Hf2 & Hd2).
  apply debug_step_wait_inv in H3 as (f' & Hf3 & _ & _ & _ & ->).
  rewrite Hf2, Hf1 in Hf3. injection Hf3 as <-.
  exists f. split; [done|]. split.
  - rewrite lookup_insert_eq. do 3 f_equal. rewrite Hd2, Hd1. simpl.
    apply map_eq. intros k.
    destruct (decide (k = "actions")) as [->|Ha].
    { rewrite lookup_union_r by done. by rewrite !lookup_insert_eq. }
    rewrite (lookup_insert_ne _ "actions") by done.
    destruct (decide (k = "next_obs")) as [->|Hn].
    { rewrite lookup_union_l' by (rewrite lookup_insert_eq; by eexists).
      by rewrite !lookup_insert_eq. }
    rewrite (lookup_insert_ne _ "next_obs") by done.
    rewrite lookup_union_l.
    + by rewrite lookup_insert_ne.
    + rewrite lookup_insert_ne by done. apply lookup_empty.
  - intros f' Hne. by rewrite lookup_insert_ne.
Qed.

(** X29. The first record after a reset also holds the observation that
    the reset returned, under [prev_obs]. *)
Theorem first_record_has_prev_obs w0 fs0 w1 fs1 out1 w2 obs0 actions w3 w4 fs2
    obs rew dones infos :
  step_wait w0 fs0 = Ok (w1, fs1, out1) →
  reset w1 = (w2, obs0) →
  step_async w2 actions = Ok w3 →
  step_wait w3 fs1 = Ok (w4, fs2, (obs, rew, dones, infos)) →
  ∃ f, debug_file w0 = Some f ∧
       fs2 !! f = Some (default [] (fs1 !! f)
                        ++ [{[ "prev_obs" := Observations obs0;
                               "actions" := Actions actions;
                               "next_obs" := Observations obs;
                               "rewards" := Rewards rew ]}]).
Proof.
  intros H1 Hr H2 H3.
  apply debug_step_wait_inv in H1 as (f & Hf0 & Hf1 & _ & Hd1 & _).
  unfold reset in Hr. destruct (inner_reset (venv w1)) as [e o].
  injection Hr as <- <-.
  apply debug_step_async_inv in H2 as (_ & Hf2 & Hd2). simpl in Hf2, Hd2.
  apply debug_step_wait_inv in H3 as (f' & Hf3 & _ & _ & _ & ->).
  rewrite Hf2, Hf1 in Hf3. injection Hf3 as <-.
  exists f. split; [done|].
  rewrite lookup_insert_eq. do 3 f_equal. rewrite Hd2, Hd1. simpl.
  apply map_eq. intros k.
  destruct (decide (k = "prev_obs")) as [->|Hp].
  { rewrite lookup_union_r by done. rewrite lookup_insert_ne by done.
    by rewrite !lookup_insert_eq. }
  rewrite (lookup_insert_ne _ "prev_obs" k) by done.
  destruct (decide (k = "actions")) as [->|Ha].
  { rewrite lookup_union_r by done. by rewrite !lookup_insert_eq. }
  rewrite (lookup_insert_ne _ "actions" k) by done.
  destruct (decide (k = "next_obs")) as [->|Hn].
  { rewrite lookup_union_l' by (rewrite lookup_insert_eq; by eexists).
    by rewrite !lookup_insert_eq. }
  rewrite (lookup_insert_ne _ "next_obs" k) by done.
  rewrite lookup_union_l.
  - by rewrite lookup_insert_ne.
  - rewrite !lookup_insert_ne by done. apply lookup_empty.
Qed.
End debug.

(** *** A counter *)

Lemma step_wait_without_file_raises_witness :
  step_wait (__init__ (Act := Z) (Obs := Z) (Rew := Z) 0%Z) ∅ = Raise TypeError.
Proof.
  exact (step_wait_without_file_raises
           (__init__ (Act := Z) (Obs := Z) (Rew := Z) 0%Z) ∅ eq_refl).
Defined.

Lemma later_records_have_three_entries_witness :
  ∃ w1 fs1 w2 w3 fs2,
    step_wait DebugDemo.with_file ∅ = Ok (w1, fs1, (0, 1, [false], tt))%Z ∧
    step_async w1 5%Z = Ok w2 ∧
    step_wait w2 fs1 = Ok (w3, fs2, (5, 1, [false], tt))%Z ∧
    fs2 !! 7 = Some [ {[ "next_obs" := Observations 0%Z; "rewards" := Rewards 1%Z ]};
                      {[ "actions" := Actions 5%Z;
                         "next_obs" := Observations 5%Z;
                         "rewards" := Rewards 1%Z ]} ].
Proof.
  let v1 := eval vm_compute in (step_wait DebugDemo.with_file ∅) in
  match v1 with
  | Ok (?w1, ?fs1, _) =>
      let v2 := eval vm_compute in (step_async w1 5%Z) in
      match v2 with
      | Ok ?w2 =>
          let v3 := eval vm_compute in (step_wait w2 fs1) in
          match v3 with
          | Ok (?w3, ?fs2, _) =>
              exists w1, fs1, w2, w3, fs2;
              assert (step_wait DebugDemo.with_file ∅
                        = Ok (w1, fs1, (0, 1, [false], tt))%Z) as H1
                by (vm_compute; reflexivity);
              assert (step_async w1 5%Z = Ok w2) as H2
                by (vm_compute; reflexivity);
              assert (step_wait w2 fs1 = Ok (w3, fs2, (5, 1, [false], tt))%Z) as H3
                by (vm_compute; reflexivity);
              pose proof (later_records_have_three_entries DebugDemo.with_file ∅
                            w1 fs1 (0, 1, [false], tt)%Z 5%Z w2 w3 fs2
                            5%Z 1%Z [false] tt H1 H2 H3)
                as (f & Hf & Hrec & _)
          end
      end
  end.
  split; [exact H1|]. split; [exact H2|]. split; [exact H3|].
  injection Hf as <-. rewrite Hrec. vm_compute. reflexivity.
Defined.

Lemma first_record_has_prev_obs_witness :
  ∃ w1 fs1 w2 w3 w4 fs2,
    step_wait DebugDemo.with_file ∅ = Ok (w1, fs1, (0, 1, [false], tt))%Z ∧
    reset w1 = (w2, 0%Z) ∧ step_async w2 5%Z = Ok w3 ∧
    step_wait w3 fs1 = Ok (w4, fs2, (5, 1, [false], tt))%Z ∧
    fs2 !! 7 = Some [ {[ "next_obs" := Observations 0%Z; "rewards" := Rewards 1%Z ]};
                      {[ "prev_obs" := Observations 0%Z;
                         "actions" := Actions 5%Z;
                         "next_obs" := Observations 5%Z;
                         "rewards" := Rewards 1%Z ]} ].
Proof.
  let v1 := eval vm_compute in (step_wait DebugDemo.with_file ∅) in
  match v1 with
  | Ok (?w1, ?fs1, _) =>
      let v2 := eval vm_compute in (reset w1) in
      match v2 with
      | (?w2, _) =>
          let v3 := eval vm_compute in (step_async w2 5%Z) in
          match v3 with
          | Ok ?w3 =>
              let v4 := eval vm_compute in (step_wait w3 fs1) in
              match v4 with
              | Ok (?w4, ?fs2, _) =>
                  exists w1, fs1, w2, w3, w4, fs2;
                  assert (step_wait DebugDemo.with_file ∅
                            = Ok (w1, fs1, (0, 1, [false], tt))%Z) as H1
                    by (vm_compute; reflexivity);
                  assert (reset w1 = (w2, 0%Z)) as Hr
                    by (vm_compute; reflexivity);
                  assert (step_async w2 5%Z = Ok w3) as H2
                    by (vm_compute; reflexivity);
                  assert (step_wait w3 fs1
                            = Ok (w4, fs2, (5, 1, [false], tt))%Z) as H3
                    by (vm_compute; reflexivity);
                  pose proof (first_record_has_prev_obs DebugDemo.with_file ∅
                                w1 fs1 (0, 1, [false], tt)%Z w2 0%Z 5%Z w3 w4 fs2
                                5%Z 1%Z [false] tt H1 Hr H2 H3)
                    as (f & Hf & Hrec)
              end
          end
      end
  end.
  split; [exact H1|]. split; [exact Hr|]. split; [exact H2|].
  split; [exact H3|].
  injection Hf as <-. rewrite Hrec. vm_compute. reflexivity.
Defined.
End DebugVenvFacts.
